(** * Raw-audio format classifier: reader, math kernels and decision rule

    A shallow embedding of [MultiFormatReader.cpp], [SpecPowerMeter.cpp]
    and [FormatClassifier.cpp].

    - Bytes are integers in [0, 256); buffers are lists indexed from 0.
    - [float] values are IEEE-754 binary32 numbers, [double] values are
      binary64 numbers, both given by the [SpecFloat] operations of the
      standard library (round to nearest, ties to even).  Every
      [float] expression is evaluated in binary32, as on a target with
      [FLT_EVAL_METHOD == 0].
    - An open [FILE*] is the file contents plus the current position.
    - The only C++ exception that can be raised after construction is
      the [std::runtime_error] of [SwapBytes]; code that may raise lives
      in the [result] monad. *)

From Stdlib Require Import ZArith List Lia Bool SpecFloat.
From stdpp Require Import base list.
Import ListNotations.

(** ** Exceptions *)

Inductive exn : Type :=
  | FileOpen            (* "Error opening file" *)
  | UnsupportedWidth.   (* "SwapBytes Exception: Format width exceeding 8 bytes." *)

(** Outcome of a call: a value, a C++ exception, or behaviour the language
    leaves undefined (the conversion of a non-representable [double] to
    [int], and a read of the meter's arrays at a bin outside them, are
    tracked this way; the other buffers are total lists and the theorems
    carry the size hypotheses the constructor establishes).  [OutOfFuel]
    is the outcome of an unbounded loop cut off by its iteration budget;
    the theorems show that it never occurs. *)
Inductive result (A : Type) : Type :=
  | Ok (a : A)
  | Throw (e : exn)
  | Undef
  | OutOfFuel.
Arguments Ok {A} a.
Arguments Throw {A} e.
Arguments Undef {A}.
Arguments OutOfFuel {A}.

#[global] Instance result_ret : MRet result := fun A a => Ok a.
#[global] Instance result_bind : MBind result := fun A B k m =>
  match m with
  | Ok a => k a
  | Throw e => Throw e
  | Undef => Undef
  | OutOfFuel => OutOfFuel
  end.

Definition is_Ok {A} (m : result A) : Prop := exists a, m = Ok a.

(** ** Bytes, files and the reader *)

Definition byte := Z.

#[global] Instance byte_inhabited : Inhabited byte := populate 0%Z.

(** An open stdio stream: contents and position indicator. *)
Record FILE := mkFILE { fdata : list byte; fpos : nat }.

(** [fread(buf + off, size, count, f)]: copies as many bytes as the file
    still has, up to [size * count], and returns the number of complete
    items.  Reading at or past the end copies nothing. *)
Definition fread (buf : list byte) (off size count : nat) (f : FILE)
  : list byte * nat * FILE :=
  let got := take (size * count) (drop (fpos f) (fdata f)) in
  (list_inserts off got buf,
   length got / size,
   mkFILE (fdata f) (fpos f + length got)).

(** [fseek(f, off, SEEK_CUR)] with a non-negative offset. *)
Definition fseek_cur (off : nat) (f : FILE) : FILE :=
  mkFILE (fdata f) (fpos f + off).

(** [fseek(f, off, SEEK_SET)]; [rewind] is the case [off = 0]. *)
Definition fseek_set (off : nat) (f : FILE) : FILE :=
  mkFILE (fdata f) off.

(** Modelled from the spec: the header [MultiFormatReader.h] is not among
    the sources; it declares the enumerations below (the eight formats the
    [switch] statements dispatch on, and the two byte orders), the member
    [mEnd] whose [Which()] is the byte order of the host, and the 8-byte
    scratch array [mSwapBuffer]. *)
Inductive FormatT : Type :=
  | Int8 | Int16 | Int32 | Uint8 | Uint16 | Uint32 | Float | Double.

Inductive EndiannessT : Type := Little | Big.

#[global] Instance FormatT_eq_dec : EqDecision FormatT.
Proof. solve_decision. Defined.
#[global] Instance EndiannessT_eq_dec : EqDecision EndiannessT.
Proof. solve_decision. Defined.

Record MultiFormatReader := mkReader {
  mpFid : FILE;
  mEnd : EndiannessT        (* mEnd.Which() *)
}.

Definition with_fid (rd : MultiFormatReader) (f : FILE) : MultiFormatReader :=
  mkReader f (mEnd rd).

(** A counted loop [for (n = lo; n < hi; n++) body]. *)
Definition for_loop {S : Type} (lo hi : nat) (body : nat -> S -> S) (s : S) : S :=
  fold_left (fun s n => body n s) (seq lo (hi - lo)) s.

(** The same loop with a body that may raise. *)
Definition for_loopM {S : Type} (lo hi : nat) (body : nat -> S -> result S) (s : S)
  : result S :=
  fold_left (fun m n => s ← m; body n s) (seq lo (hi - lo)) (Ok s).

(** [while (cond) body], cut off after [fuel] iterations. *)
Fixpoint while_loop {S : Type} (fuel : nat) (cond : S -> bool)
    (body : S -> result S) (s : S) : result S :=
  if cond s then
    match fuel with
    | 0 => OutOfFuel
    | S fuel => s' ← body s; while_loop fuel cond body s'
    end
  else Ok s.

(** [do body while (cond)] *)
Definition do_while {S : Type} (fuel : nat) (body : S -> result S)
    (cond : S -> bool) (s : S) : result S :=
  s' ← body s; while_loop fuel cond body s'.

Module Reader.

Definition Reset (rd : MultiFormatReader) : MultiFormatReader :=
  with_fid rd (fseek_set 0 (mpFid rd)).

Definition ResetAt (startoffset : nat) (rd : MultiFormatReader) : MultiFormatReader :=
  with_fid rd (fseek_set startoffset (mpFid rd)).

(** [Read(buffer, size, len, stride)] *)
Definition Read (buffer : list byte) (size len stride : nat) (f : FILE)
  : list byte * nat * FILE :=
  if decide (1 < stride) then
    for_loop 0 len
      (fun n '(buf, actRead, f) =>
         let '(buf, k, f) := fread buf (n * size) size 1 f in
         (buf, actRead + k, fseek_cur ((stride - 1) * size) f))
      (buffer, 0, f)
  else
    fread buffer 0 size len f.

(** One group of [SwapBytes]: [memcpy] into [mSwapBuffer], then write the
    group back in reverse order. *)
Definition SwapGroup (size : nat) (i : nat) (buf : list byte) : list byte :=
  let mSwapBuffer := take size (drop (i * size) buf) in
  for_loop 0 size
    (fun n cur => <[i * size + n := mSwapBuffer !!! (size - n - 1)]> cur)
    buf.

Definition SwapBytes (buffer : list byte) (size len : nat) : result (list byte) :=
  if decide (8 < size) then Throw UnsupportedWidth
  else Ok (for_loop 0 len (SwapGroup size) buffer).

(** Byte width passed to [Read] and [SwapBytes] for each format, and
    whether the [case] swaps at all. *)
Definition width (format : FormatT) : nat :=
  match format with
  | Int8 | Uint8 => 1
  | Int16 | Uint16 => 2
  | Int32 | Uint32 | Float => 4
  | Double => 8
  end.

(** [ReadSamples(buffer, len, stride, format, end)] *)
Definition ReadSamples (rd : MultiFormatReader) (buffer : list byte)
    (len stride : nat) (format : FormatT) (end_ : EndiannessT)
  : result (list byte * nat * MultiFormatReader) :=
  let swapflag := bool_decide (mEnd rd <> end_) in
  match format with
  | Int8 | Uint8 =>
      let '(buffer, actRead, f) := Read buffer 1 len stride (mpFid rd) in
      Ok (buffer, actRead, with_fid rd f)
  | Int16 | Uint16 =>
      let '(buffer, actRead, f) := Read buffer 2 len stride (mpFid rd) in
      buffer ← (if swapflag then SwapBytes buffer 2 len else Ok buffer);
      Ok (buffer, actRead, with_fid rd f)
  | Int32 | Uint32 | Float =>
      let '(buffer, actRead, f) := Read buffer 4 len stride (mpFid rd) in
      buffer ← (if swapflag then SwapBytes buffer 4 len else Ok buffer);
      Ok (buffer, actRead, with_fid rd f)
  | Double =>
      let '(buffer, actRead, f) := Read buffer 8 len stride (mpFid rd) in
      buffer ← (if swapflag then SwapBytes buffer 8 len else Ok buffer);
      Ok (buffer, actRead, with_fid rd f)
  end.

End Reader.

(** ** Floating-point numbers *)

(** [float]: IEEE-754 binary32. *)
Definition float := spec_float.
(** [double]: IEEE-754 binary64. *)
Definition double := spec_float.

#[global] Instance spec_float_eq_dec : EqDecision spec_float.
Proof. solve_decision. Defined.

Module F32.
Definition prec : Z := 24.
Definition emax : Z := 128.
Definition add : float -> float -> float := SFadd prec emax.
Definition sub : float -> float -> float := SFsub prec emax.
Definition mul : float -> float -> float := SFmul prec emax.
Definition div : float -> float -> float := SFdiv prec emax.
Definition sqrt : float -> float := SFsqrt prec emax.
Definition opp : float -> float := SFopp.
(** [a < b], [a <= b], [a == b]; all false when an operand is NaN. *)
Definition ltb : float -> float -> bool := SFltb.
Definition leb : float -> float -> bool := SFleb.
Definition eqb : float -> float -> bool := SFeqb.
(** [x != x] *)
Definition is_nan (x : float) : bool := negb (eqb x x).
(** Conversion of an integer to [float]. *)
Definition of_Z (z : Z) : float := binary_normalize prec emax z 0 false.
(** A decimal literal [n/d] with an [f] suffix: the binary32 number nearest
    to the quotient ([n] and [d] are exactly representable). *)
Definition lit (n d : Z) : float := div (of_Z n) (of_Z d).
Definition zero : float := S754_zero false.
Definition one : float := of_Z 1.
(** [FLT_MAX] *)
Definition FLT_MAX : float := SFmax_float prec emax.
(** The value of a 32-bit pattern read as a [float]. *)
Definition of_bits (x : Z) : float :=
  let m := (x mod 2 ^ 23)%Z in
  let e := ((x / 2 ^ 23) mod 2 ^ 8)%Z in
  let s := Z.testbit x 31 in
  if (e =? 0)%Z then
    match m with
    | Zpos p => S754_finite s p (-149)
    | _ => S754_zero s
    end
  else if (e =? 255)%Z then
    (if (m =? 0)%Z then S754_infinity s else S754_nan)
  else
    match (m + 2 ^ 23)%Z with
    | Zpos p => S754_finite s p (e - 150)
    | _ => S754_nan
    end.
End F32.

Module F64.
Definition prec : Z := 53.
Definition emax : Z := 1024.
Definition mul : double -> double -> double := SFmul prec emax.
Definition sub : double -> double -> double := SFsub prec emax.
Definition div : double -> double -> double := SFdiv prec emax.
Definition of_Z (z : Z) : double := binary_normalize prec emax z 0 false.
(** A decimal literal [n/d] without suffix. *)
Definition lit (n d : Z) : double := div (of_Z n) (of_Z d).
(** [(double) x] for a [float] x: every binary32 number is a binary64
    number. *)
Definition of_float (x : float) : double :=
  match x with
  | S754_finite s m e => binary_round prec emax s m e
  | _ => x
  end.
(** [(float) x] for a [double] x: rounding to binary32. *)
Definition to_float (x : double) : float :=
  match x with
  | S754_finite s m e => binary_round F32.prec F32.emax s m e
  | _ => x
  end.
(** The value of a 64-bit pattern read as a [double]. *)
Definition of_bits (x : Z) : double :=
  let m := (x mod 2 ^ 52)%Z in
  let e := ((x / 2 ^ 52) mod 2 ^ 11)%Z in
  let s := Z.testbit x 63 in
  if (e =? 0)%Z then
    match m with
    | Zpos p => S754_finite s p (-1074)
    | _ => S754_zero s
    end
  else if (e =? 2047)%Z then
    (if (m =? 0)%Z then S754_infinity s else S754_nan)
  else
    match (m + 2 ^ 52)%Z with
    | Zpos p => S754_finite s p (e - 1075)
    | _ => S754_nan
    end.
(** [floor(x)] followed by the conversion to [int]; undefined for NaN,
    infinities and values outside the range of a 32-bit [int]. *)
Definition floor_to_int (x : double) : result Z :=
  let in_range (z : Z) : result Z :=
    if ((- 2 ^ 31 <=? z) && (z <? 2 ^ 31))%Z then Ok z else Undef in
  match x with
  | S754_zero _ => Ok 0%Z
  | S754_finite s m e =>
      in_range (Z.shiftl (if s then Zneg m else Zpos m) e)
  | _ => Undef
  end.
End F64.

(** ** Arithmetic of the math kernels

    The kernels of [FormatClassifier] only add, subtract, multiply,
    divide and take square roots.  They are written once over this
    interface; [binary32_arith] is the arithmetic the program runs
    with. *)
Class Arith (F : Type) := {
  f_zero : F;
  f_add : F -> F -> F;
  f_sub : F -> F -> F;
  f_mul : F -> F -> F;
  f_div : F -> F -> F;
  f_sqrt : F -> F;
  f_of_size : nat -> F      (* conversion of a [size_t] *)
}.

#[global] Instance arith_inhabited {F} `{Arith F} : Inhabited F := populate f_zero.

#[global] Instance binary32_arith : Arith float := {|
  f_zero := F32.zero;
  f_add := F32.add;
  f_sub := F32.sub;
  f_mul := F32.mul;
  f_div := F32.div;
  f_sqrt := F32.sqrt;
  f_of_size n := F32.of_Z (Z.of_nat n)
|}.

(** ** Constants of [FormatClassifier.h] *)

Definition cSiglen : nat := 1024.
Definition cRawSiglen : nat := 8 * cSiglen.
Definition cPolyTaps : nat := 4.
Definition cNumInts : nat := 32.
Definition cDitherF1 : float := F32.lit 31 100.
Definition cDitherF2 : float := F32.lit 42 100.
Definition cDitherA : float := F32.of_Z 12.
Definition cMinRms : float := F64.to_float (F64.lit 1 (10 ^ 12)).
Definition cSigSearchGridSize : nat := 32.
Definition cHeaderSkip : nat := 1024.
(** [mFiltSiglen(cSiglen / cPolyTaps)] *)
Definition mFiltSiglen : nat := cSiglen / cPolyTaps.

(** ** Math kernels *)

Section Kernels.
Context {F : Type} `{Arith F}.

Definition Add (in1 in2 : list F) (len : nat) : list F :=
  for_loop 0 len (fun n in1 => <[n := f_add (in1 !!! n) (in2 !!! n)]> in1) in1.

Definition Sub (in_ : list F) (subt : F) (len : nat) : list F :=
  for_loop 0 len (fun n in_ => <[n := f_sub (in_ !!! n) subt]> in_) in_.

Definition Div (in_ : list F) (div : F) (len : nat) : list F :=
  for_loop 0 len (fun n in_ => <[n := f_div (in_ !!! n) div]> in_) in_.

Definition Mean (in_ : list F) (len : nat) : F :=
  let mean := for_loop 0 len (fun n mean => f_add mean (in_ !!! n)) f_zero in
  f_div mean (f_of_size len).

Definition Rms (in_ : list F) (len : nat) : F :=
  let rms :=
    for_loop 0 len (fun n rms => f_add rms (f_mul (in_ !!! n) (in_ !!! n))) f_zero in
  f_sqrt rms.

(** [FilterPolyphase(x, y, win, p, len)]; returns the windowed [x] and the
    folded [y]. *)
Definition FilterPolyphase (x y win : list F) (p len : nat) : list F * list F :=
  let outlen := len / p in
  let x := for_loop 0 len (fun n x => <[n := f_mul (x !!! n) (win !!! n)]> x) x in
  let y := for_loop 0 outlen (fun n y => <[n := f_zero]> y) y in
  let y := for_loop 0 p (fun n y => Add y (drop (n * outlen) x) outlen) y in
  (x, y).

(** The preprocessing chain of [Run] (the same statements in the mono and
    in the stereo loop): fold, remove the mean, divide by [Rms].  Returns
    the new [mSigBuffer] and [mAuxBuffer]. *)
Definition Preprocess (sig aux win : list F) : list F * list F :=
  let '(sig, aux) := FilterPolyphase sig aux win cPolyTaps cSiglen in
  let smean := Mean aux mFiltSiglen in
  let aux := Sub aux smean mFiltSiglen in
  let rms := Rms aux mFiltSiglen in
  let aux := Div aux rms mFiltSiglen in
  (sig, aux).

End Kernels.

(** [Max(in, len, &maxidx)]: the returned maximum and the index. *)
Definition Max (in_ : list float) (len : nat) : float * nat :=
  for_loop 0 len
    (fun n '(max, maxidx) =>
       if F32.ltb max (in_ !!! n) then (in_ !!! n, n) else (max, maxidx))
    (F32.opp F32.FLT_MAX, 0).

(** ** Conversion of raw samples *)

(** The unsigned value of a group of bytes, least significant first. *)
Definition le_val (bs : list byte) : Z :=
  fold_right (fun b acc => (b mod 256 + 256 * acc)%Z) 0%Z bs.

(** The object of [size] bytes at element index [n] of a typed pointer
    into [raw], read in the byte order of the host, as an unsigned
    integer. *)
Definition load (host : EndiannessT) (raw : list byte) (size n : nat) : Z :=
  let g := take size (drop (n * size) raw) in
  le_val (match host with Little => g | Big => rev g end).

(** Two's-complement reading of a [w]-bit pattern. *)
Definition signed (w : Z) (z : Z) : Z :=
  if (z <? 2 ^ (w - 1))%Z then z else (z - 2 ^ w)%Z.

(** [(float) in[n]] for [in] of each of the eight element types. *)
Definition cast_sample (host : EndiannessT) (format : FormatT)
    (raw : list byte) (n : nat) : float :=
  match format with
  | Int8 => F32.of_Z (signed 8 (load host raw 1 n))
  | Int16 => F32.of_Z (signed 16 (load host raw 2 n))
  | Int32 => F32.of_Z (signed 32 (load host raw 4 n))
  | Uint8 => F32.of_Z (load host raw 1 n)
  | Uint16 => F32.of_Z (load host raw 2 n)
  | Uint32 => F32.of_Z (load host raw 4 n)
  | Float => F32.of_bits (load host raw 4 n)
  | Double => F64.to_float (F64.of_bits (load host raw 8 n))
  end.

(** [ToFloat(in, out, len)], with [elem n] standing for [(float) in[n]]. *)
Definition ToFloat (elem : nat -> float) (out : list float) (len : nat) : list float :=
  for_loop 0 len (fun n out => <[n := elem n]> out) out.

(** ** The spectral power meter *)

Record SpecPowerMeter := mkMeter {
  mSigLen : Z;
  mSigI : list float;
  mEqEnabled : bool;
  mEqMask : list float
}.

(** [buf[n]] for an [int] index [n] into an array of [len] elements.  The
    arrays [mSigFR], [mSigFI] and [mEqMask] of the meter are allocated
    with [mSigLen] elements each; a read at an index outside [0, len) is
    undefined. *)
Definition at_int (len : Z) (buf : list float) (n : Z) : result float :=
  if ((0 <=? n) && (n <? len))%Z then Ok (buf !!! Z.to_nat n) else Undef.

Section Meter.
(** [FFT(NumSamples, InverseTransform, RealIn, ImagIn, RealOut, ImagOut)] of
    [FFT.h], which is not among the sources: any function producing the two
    output arrays. *)
Variable FFT : Z -> bool -> list float -> list float -> list float * list float.

Definition EnableEqualizer (m : SpecPowerMeter) : SpecPowerMeter :=
  mkMeter (mSigLen m) (mSigI m) true (mEqMask m).

Definition DisableEqualizer (m : SpecPowerMeter) : SpecPowerMeter :=
  mkMeter (mSigLen m) (mSigI m) false (mEqMask m).

(** [memcpy(mEqMask, eqmask, masklen * sizeof(float))] *)
Definition SetEqualizer (m : SpecPowerMeter) (eqmask : list float) (masklen : nat)
  : SpecPowerMeter :=
  mkMeter (mSigLen m) (mSigI m) (mEqEnabled m)
          (list_inserts 0 (take masklen eqmask) (mEqMask m)).

Definition Freq2Bin (m : SpecPowerMeter) (fc : float) : result Z :=
  bin ← F64.floor_to_int (F64.mul (F64.of_float fc) (F64.of_Z (mSigLen m)));
  Ok (Z.rem bin (mSigLen m)).

(** [for (int n = loBin; n < hiBin; n++)], with a body that may read
    outside an array. *)
Definition for_int {S : Type} (lo hi : Z) (body : Z -> S -> result S) (s : S)
  : result S :=
  fold_left (fun r k => s ← r; body (lo + Z.of_nat k)%Z s)
            (seq 0 (Z.to_nat (hi - lo))) (Ok s).

Definition CalcBinPower (m : SpecPowerMeter) (sig_f_r sig_f_i : list float)
    (loBin hiBin : Z) : result float :=
  let N := mSigLen m in
  if mEqEnabled m then
    for_int loBin hiBin
      (fun n pwr =>
         r ← at_int N sig_f_r n;
         q ← at_int N (mEqMask m) n;
         i ← at_int N sig_f_i n;
         let re := F32.mul r q in
         let im := F32.mul i q in
         Ok (F32.add pwr (F32.add (F32.mul re re) (F32.mul im im))))
      F32.zero
  else
    for_int loBin hiBin
      (fun n pwr =>
         r ← at_int N sig_f_r n;
         i ← at_int N sig_f_i n;
         Ok (F32.add pwr (F32.add (F32.mul r r) (F32.mul i i))))
      F32.zero.

(** The two boundary bins of [CalcPower], after the adjustment of the
    high bin. *)
Definition CalcBins (m : SpecPowerMeter) (fc bw : float) : result (Z * Z) :=
  loBin ← Freq2Bin m (F32.sub fc (F32.div bw (F32.of_Z 2)));
  hiBin ← Freq2Bin m (F32.add fc (F32.div bw (F32.of_Z 2)));
  let hiBin := if decide (loBin = hiBin) then (loBin + 1)%Z else hiBin in
  Ok (loBin, hiBin).

(** [CalcPower(sig, fc, bw)]; the scratch arrays [mSigFR] and [mSigFI] are
    overwritten by every call and read by nothing else, so they are local
    here. *)
Definition CalcPower (m : SpecPowerMeter) (sig : list float) (fc bw : float)
  : result float :=
  '(loBin, hiBin) ← CalcBins m fc bw;
  let '(mSigFR, mSigFI) := FFT (mSigLen m) false sig (mSigI m) in
  CalcBinPower m mSigFR mSigFI loBin hiBin.

End Meter.

(** ** The classifier *)

Record FormatClassT := mkClass {
  format : FormatT;
  endian : EndiannessT
}.

#[global] Instance FormatClassT_eq_dec : EqDecision FormatClassT.
Proof. solve_decision. Defined.

#[global] Instance FormatClassT_inhabited : Inhabited FormatClassT :=
  populate (mkClass Int8 Little).

Record FormatClassifier := mkClassifier {
  mClasses : list FormatClassT;
  mReader : MultiFormatReader;
  mMeter : SpecPowerMeter;
  mSigBuffer : list float;
  mAuxBuffer : list float;
  mWinBuffer : list float;
  mEqBuffer : list float;
  mRawBuffer : list byte;
  mSignalStart : nat;
  mPLo : list float;
  mPHiM : list float;
  mPHiS : list float;
  mMonoFeat : list float;
  mStereoFeat : list float;
  mResultFormat : FormatClassT;
  mResultChannels : Z
}.

(** Assignments to the members. *)
Definition set_mReader (v : MultiFormatReader) (c : FormatClassifier) : FormatClassifier :=
  mkClassifier (mClasses c) v (mMeter c) (mSigBuffer c) (mAuxBuffer c) (mWinBuffer c) (mEqBuffer c) (mRawBuffer c) (mSignalStart c) (mPLo c) (mPHiM c) (mPHiS c) (mMonoFeat c) (mStereoFeat c) (mResultFormat c) (mResultChannels c).
Definition set_mMeter (v : SpecPowerMeter) (c : FormatClassifier) : FormatClassifier :=
  mkClassifier (mClasses c) (mReader c) v (mSigBuffer c) (mAuxBuffer c) (mWinBuffer c) (mEqBuffer c) (mRawBuffer c) (mSignalStart c) (mPLo c) (mPHiM c) (mPHiS c) (mMonoFeat c) (mStereoFeat c) (mResultFormat c) (mResultChannels c).
Definition set_mSigBuffer (v : list float) (c : FormatClassifier) : FormatClassifier :=
  mkClassifier (mClasses c) (mReader c) (mMeter c) v (mAuxBuffer c) (mWinBuffer c) (mEqBuffer c) (mRawBuffer c) (mSignalStart c) (mPLo c) (mPHiM c) (mPHiS c) (mMonoFeat c) (mStereoFeat c) (mResultFormat c) (mResultChannels c).
Definition set_mAuxBuffer (v : list float) (c : FormatClassifier) : FormatClassifier :=
  mkClassifier (mClasses c) (mReader c) (mMeter c) (mSigBuffer c) v (mWinBuffer c) (mEqBuffer c) (mRawBuffer c) (mSignalStart c) (mPLo c) (mPHiM c) (mPHiS c) (mMonoFeat c) (mStereoFeat c) (mResultFormat c) (mResultChannels c).
Definition set_mRawBuffer (v : list byte) (c : FormatClassifier) : FormatClassifier :=
  mkClassifier (mClasses c) (mReader c) (mMeter c) (mSigBuffer c) (mAuxBuffer c) (mWinBuffer c) (mEqBuffer c) v (mSignalStart c) (mPLo c) (mPHiM c) (mPHiS c) (mMonoFeat c) (mStereoFeat c) (mResultFormat c) (mResultChannels c).
Definition set_mSignalStart (v : nat) (c : FormatClassifier) : FormatClassifier :=
  mkClassifier (mClasses c) (mReader c) (mMeter c) (mSigBuffer c) (mAuxBuffer c) (mWinBuffer c) (mEqBuffer c) (mRawBuffer c) v (mPLo c) (mPHiM c) (mPHiS c) (mMonoFeat c) (mStereoFeat c) (mResultFormat c) (mResultChannels c).
Definition set_mPLo (v : list float) (c : FormatClassifier) : FormatClassifier :=
  mkClassifier (mClasses c) (mReader c) (mMeter c) (mSigBuffer c) (mAuxBuffer c) (mWinBuffer c) (mEqBuffer c) (mRawBuffer c) (mSignalStart c) v (mPHiM c) (mPHiS c) (mMonoFeat c) (mStereoFeat c) (mResultFormat c) (mResultChannels c).
Definition set_mPHiM (v : list float) (c : FormatClassifier) : FormatClassifier :=
  mkClassifier (mClasses c) (mReader c) (mMeter c) (mSigBuffer c) (mAuxBuffer c) (mWinBuffer c) (mEqBuffer c) (mRawBuffer c) (mSignalStart c) (mPLo c) v (mPHiS c) (mMonoFeat c) (mStereoFeat c) (mResultFormat c) (mResultChannels c).
Definition set_mPHiS (v : list float) (c : FormatClassifier) : FormatClassifier :=
  mkClassifier (mClasses c) (mReader c) (mMeter c) (mSigBuffer c) (mAuxBuffer c) (mWinBuffer c) (mEqBuffer c) (mRawBuffer c) (mSignalStart c) (mPLo c) (mPHiM c) v (mMonoFeat c) (mStereoFeat c) (mResultFormat c) (mResultChannels c).
Definition set_mMonoFeat (v : list float) (c : FormatClassifier) : FormatClassifier :=
  mkClassifier (mClasses c) (mReader c) (mMeter c) (mSigBuffer c) (mAuxBuffer c) (mWinBuffer c) (mEqBuffer c) (mRawBuffer c) (mSignalStart c) (mPLo c) (mPHiM c) (mPHiS c) v (mStereoFeat c) (mResultFormat c) (mResultChannels c).
Definition set_mStereoFeat (v : list float) (c : FormatClassifier) : FormatClassifier :=
  mkClassifier (mClasses c) (mReader c) (mMeter c) (mSigBuffer c) (mAuxBuffer c) (mWinBuffer c) (mEqBuffer c) (mRawBuffer c) (mSignalStart c) (mPLo c) (mPHiM c) (mPHiS c) (mMonoFeat c) v (mResultFormat c) (mResultChannels c).
Definition set_mResultFormat (v : FormatClassT) (c : FormatClassifier) : FormatClassifier :=
  mkClassifier (mClasses c) (mReader c) (mMeter c) (mSigBuffer c) (mAuxBuffer c) (mWinBuffer c) (mEqBuffer c) (mRawBuffer c) (mSignalStart c) (mPLo c) (mPHiM c) (mPHiS c) (mMonoFeat c) (mStereoFeat c) v (mResultChannels c).
Definition set_mResultChannels (v : Z) (c : FormatClassifier) : FormatClassifier :=
  mkClassifier (mClasses c) (mReader c) (mMeter c) (mSigBuffer c) (mAuxBuffer c) (mWinBuffer c) (mEqBuffer c) (mRawBuffer c) (mSignalStart c) (mPLo c) (mPHiM c) (mPHiS c) (mMonoFeat c) (mStereoFeat c) (mResultFormat c) v.

(** [ConvertSamples(in, out, format)]; the pointer casts read [in] in the
    byte order of the host. *)
Definition ConvertSamples (host : EndiannessT) (in_ : list byte) (out : list float)
    (fmt : FormatClassT) : list float :=
  ToFloat (cast_sample host (format fmt) in_) out cSiglen.

(** One pass through the body of the [do] loop of [ReadSignal], on the
    loop state [(n, actRead, c)]. *)
Definition ReadSignal_body (fmt : FormatClassT) (stride : nat)
    (s : nat * nat * FormatClassifier) : result (nat * nat * FormatClassifier) :=
  let '(n, _, c) := s in
  let host := mEnd (mReader c) in
  '(raw, actRead, rd) ←
    Reader.ReadSamples (mReader c) (mRawBuffer c) cSiglen stride (format fmt) (endian fmt);
  let c := set_mReader rd (set_mRawBuffer raw c) in
  c ← (if decide (n = 0) then
         Ok (set_mSigBuffer (ConvertSamples host (mRawBuffer c) (mSigBuffer c) fmt) c)
       else if decide (actRead = cSiglen) then
         let c := set_mAuxBuffer (ConvertSamples host (mRawBuffer c) (mAuxBuffer c) fmt) c in
         (* Integrate signals *)
         let c := set_mSigBuffer (Add (mSigBuffer c) (mAuxBuffer c) cSiglen) c in
         (* Do some dummy reads to break signal coherence *)
         '(raw, _, rd) ←
           Reader.ReadSamples (mReader c) (mRawBuffer c) (n + 1) stride
                              (format fmt) (endian fmt);
         Ok (set_mReader rd (set_mRawBuffer raw c))
       else Ok c);
  Ok (n + 1, actRead, c).

Definition ReadSignal_cond (s : nat * nat * FormatClassifier) : bool :=
  let '(n, actRead, _) := s in
  bool_decide (n < cNumInts) && bool_decide (actRead = cSiglen).

(** [ReadSignal(format, stride)]; also returns the final value of the
    local [n]. *)
Definition ReadSignal (fmt : FormatClassT) (stride : nat) (c : FormatClassifier)
  : result (nat * FormatClassifier) :=
  let c := set_mReader (Reader.ResetAt (mSignalStart c) (mReader c)) c in
  '(n, _, c) ← do_while cNumInts (ReadSignal_body fmt stride) ReadSignal_cond (0, 0, c);
  Ok (n, c).

(** The loop state of [FindSignalStart]. *)
Record search := mkSearch {
  s_c : FormatClassifier;
  s_actRead : nat;
  s_rms : float;
  s_signalFound : bool;
  s_i : nat
}.

Definition testFormat : FormatClassT := mkClass Uint8 Little.

(** The loop continues while [(actRead == cSiglen) && !(rms != rms)]; the
    [break] after [signalFound = 1] is the third conjunct. *)
Definition FindSignalStart_cond (s : search) : bool :=
  bool_decide (s_actRead s = cSiglen) && negb (F32.is_nan (s_rms s))
  && negb (s_signalFound s).

Definition FindSignalStart_body (s : search) : result search :=
  let c := s_c s in
  let host := mEnd (mReader c) in
  (* Only do a RMS calculation based on the first few samples *)
  let rms := Rms (mSigBuffer c) 64 in
  if F32.leb cMinRms rms then
    Ok (mkSearch c (s_actRead s) rms true (s_i s))
  else
    '(c, actRead) ←
      for_loopM 0 cSigSearchGridSize
        (fun n '(c, _) =>
           '(raw, actRead, rd) ←
             Reader.ReadSamples (mReader c) (mRawBuffer c) cSiglen 1
                                (format testFormat) (endian testFormat);
           Ok (set_mReader rd (set_mRawBuffer raw c), actRead))
        (c, s_actRead s);
    if decide (actRead = cSiglen) then
      let c := set_mSigBuffer (ConvertSamples host (mRawBuffer c) (mSigBuffer c) testFormat) c in
      Ok (mkSearch c actRead rms false (s_i s + 1))
    else
      Ok (mkSearch c actRead rms false (s_i s)).

(** [FindSignalStart()].  The loop consumes at least one byte per
    iteration that is followed by another one, so the length of the file
    bounds the number of iterations. *)
Definition FindSignalStart (c : FormatClassifier) : result FormatClassifier :=
  let host := mEnd (mReader c) in
  (* Do a dummy read of 1024 bytes to skip potential header information *)
  let c := set_mReader (Reader.Reset (mReader c)) c in
  '(raw, _, rd) ←
    Reader.ReadSamples (mReader c) (mRawBuffer c) cHeaderSkip 1 Uint8 Little;
  let c := set_mReader rd (set_mRawBuffer raw c) in
  (* Zero out raw buffer *)
  let c := set_mRawBuffer (list_inserts 0 (replicate cRawSiglen 0%Z) (mRawBuffer c)) c in
  (* Do a first read *)
  '(raw, actRead, rd) ←
    Reader.ReadSamples (mReader c) (mRawBuffer c) cSiglen 1
                       (format testFormat) (endian testFormat);
  let c := set_mReader rd (set_mRawBuffer raw c) in
  let c := set_mSigBuffer (ConvertSamples host (mRawBuffer c) (mSigBuffer c) testFormat) c in
  s ← while_loop (S (length (fdata (mpFid (mReader c)))))
        FindSignalStart_cond FindSignalStart_body
        (mkSearch c actRead F32.zero false 0);
  if s_signalFound s then
    (* Now calculate the signal start offset in bytes *)
    Ok (set_mSignalStart (cHeaderSkip + s_i s * cSigSearchGridSize * cSiglen) (s_c s))
  else
    Ok (set_mSignalStart cHeaderSkip (s_c s)).

Section Equalizer.
(** [powf] of the C library. *)
Variable powf : float -> float -> float.

(** The attenuation [A] and the slope [m] of [CalcEqualizerMask]. *)
Definition eq_A : float :=
  powf (F32.of_Z 10) (F32.div (F32.opp cDitherA) (F32.of_Z 20)).
Definition eq_m : float :=
  F32.div (F32.sub eq_A F32.one) (F32.sub cDitherF2 cDitherF1).

Definition CalcEqualizerMask (buffer : list float) (len : nat) : list float :=
  let fLen := F32.of_Z (Z.of_nat len) in
  let len2 := len / 2 in
  let A := eq_A in
  let m := eq_m in
  for_loop 0 len2
    (fun n buffer =>
       let f := F32.div (F32.of_Z (Z.of_nat n)) fLen in
       (* Now select the different parts of the equalizer mask *)
       let buffer :=
         if F32.ltb f cDitherF1 then <[n := F32.one]> buffer else buffer in
       let buffer :=
         if F32.leb cDitherF1 f && F32.ltb f cDitherF2
         then <[n := F32.add (F32.mul m (F32.sub f cDitherF1)) F32.one]> buffer
         else buffer in
       let buffer :=
         if F32.leb cDitherF2 f then <[n := A]> buffer else buffer in
       (* Mirror mask to second half of spectrum *)
       <[len - n - 1 := buffer !!! n]> buffer)
    buffer.

(** What iteration [n] of the loop of [CalcEqualizerMask] stores at index
    [n], given the value [old] found there: the three [if] statements in
    sequence. *)
Definition mask_entry (len n : nat) (old : float) : float :=
  let f := F32.div (F32.of_Z (Z.of_nat n)) (F32.of_Z (Z.of_nat len)) in
  let v := if F32.ltb f cDitherF1 then F32.one else old in
  let v := if F32.leb cDitherF1 f && F32.ltb f cDitherF2
           then F32.add (F32.mul eq_m (F32.sub f cDitherF1)) F32.one else v in
  if F32.leb cDitherF2 f then eq_A else v.

End Equalizer.

(** The classification classes the constructor pushes into [mClasses]. *)
Definition classes : list FormatClassT :=
  [ mkClass Int8 Little; mkClass Int16 Little; mkClass Uint8 Little;
    mkClass Float Little; mkClass Double Little;
    mkClass Int8 Big; mkClass Int16 Big; mkClass Uint8 Big;
    mkClass Float Big; mkClass Double Big ].

(** [Get the results]: the last statements of [Run]. *)
Definition Run_result (c : FormatClassifier) : FormatClassifier :=
  let '(monoMax, midx) := Max (mMonoFeat c) (length (mClasses c)) in
  let '(stereoMax, sidx) := Max (mStereoFeat c) (length (mClasses c)) in
  if F32.ltb stereoMax monoMax then
    set_mResultFormat (mClasses c !!! midx) (set_mResultChannels 1%Z c)
  else
    set_mResultFormat (mClasses c !!! sidx) (set_mResultChannels 2%Z c).

Section Run.
Variable FFT : Z -> bool -> list float -> list float -> list float * list float.

(** The body of the first loop of [Run]. *)
Definition Run_mono (n : nat) (c : FormatClassifier) : result FormatClassifier :=
  (* Read the signal *)
  '(_, c) ← ReadSignal (mClasses c !!! n) 1 c;
  (* Do some preprocessing *)
  let '(sig, aux) := Preprocess (mSigBuffer c) (mAuxBuffer c) (mWinBuffer c) in
  let c := set_mAuxBuffer aux (set_mSigBuffer sig c) in
  (* Now actually fill the feature vector *)
  pLo ← CalcPower FFT (mMeter c) (mAuxBuffer c) (F32.lit 25 100) (F32.lit 5 10);
  let c := set_mPLo (mPLo c ++ [pLo]) c in
  pHiM ← CalcPower FFT (mMeter c) (mAuxBuffer c) (F32.lit 45 100) (F32.lit 1 10);
  let c := set_mPHiM (mPHiM c ++ [pHiM]) c in
  Ok (set_mMonoFeat (<[n := F32.div (mPLo c !!! n) (mPHiM c !!! n)]> (mMonoFeat c)) c).

(** The body of the second loop of [Run]. *)
Definition Run_stereo (n : nat) (c : FormatClassifier) : result FormatClassifier :=
  '(_, c) ← ReadSignal (mClasses c !!! n) 2 c;
  let '(sig, aux) := Preprocess (mSigBuffer c) (mAuxBuffer c) (mWinBuffer c) in
  let c := set_mAuxBuffer aux (set_mSigBuffer sig c) in
  pHiS ← CalcPower FFT (mMeter c) (mAuxBuffer c) (F32.lit 40 100) (F32.lit 2 10);
  let c := set_mPHiS (mPHiS c ++ [pHiS]) c in
  Ok (set_mStereoFeat (<[n := F32.div (mPLo c !!! n) (mPHiS c !!! n)]> (mStereoFeat c)) c).

Definition Run (c : FormatClassifier) : result FormatClassifier :=
  let c := set_mPHiS [] (set_mPHiM [] (set_mPLo [] c)) in
  (* Calc the mono feature vector; enable the dither noise equalizer *)
  let c := set_mMeter (EnableEqualizer (mMeter c)) c in
  c ← for_loopM 0 (length (mClasses c)) Run_mono c;
  (* Calc the stereo feature vector; disable the dither noise equalizer *)
  let c := set_mMeter (DisableEqualizer (mMeter c)) c in
  c ← for_loopM 0 (length (mClasses c)) Run_stereo c;
  Ok (Run_result c).

End Run.

(** ** Functions used to state the properties *)

(** The index a byte of the swapped buffer comes from: same group,
    mirrored offset. *)
Definition mirror (size j : nat) : nat := j / size * size + (size - 1 - j mod size).

(** The three tests of [CalcEqualizerMask] at index [n] of a mask of
    length [len]: [f < F1], [F1 <= f && f < F2], [f >= F2]. *)
Definition mask_tests (len n : nat) : bool * bool * bool :=
  let f := F32.div (F32.of_Z (Z.of_nat n)) (F32.of_Z (Z.of_nat len)) in
  (F32.ltb f cDitherF1, F32.leb cDitherF1 f && F32.ltb f cDitherF2, F32.leb cDitherF2 f).

(** The file position of the byte that a read starting at [p] stores at
    index [j] of the buffer: sample [j / W], byte [j mod W]. *)
Definition file_index (p W s j : nat) : nat := p + j / W * (s * W) + j mod W.

(** A read of [len] samples finds every sample complete. *)
Definition read_full (L p W s len : nat) : Prop :=
  len = 0 \/ p + (len - 1) * (s * W) + W <= L.

#[global] Instance read_full_dec L p W s len : Decision (read_full L p W s len).
Proof. unfold read_full. apply _. Defined.


(** The source index of byte [j] of the buffer [ReadSamples] returns, in
    the buffer [Read] filled: mirrored within its group when the first
    [len] groups were swapped. *)
Definition swap_index (swap : bool) (W len j : nat) : nat :=
  if swap && bool_decide (j < len * W) then mirror W j else j.

(** Samples consumed before window [k] of [ReadSignal]: the earlier
    windows, and the dummy read of [j + 1] samples that follows each of
    the windows [j = 1, ..., k - 1]. *)
Fixpoint samples_before (k : nat) : nat :=
  match k with
  | 0 => 0
  | S k' => samples_before k' + cSiglen + (if decide (k' = 0) then 0 else k' + 1)
  end.

(** The byte offset in the file at which window [k] starts. *)
Definition window_offset (c : FormatClassifier) (fmt : FormatClassT) (stride k : nat) : nat :=
  mSignalStart c + samples_before k * (stride * Reader.width (format fmt)).

(** The file holds all [cSiglen] samples of window [k]. *)
Definition window_full (c : FormatClassifier) (fmt : FormatClassT) (stride k : nat) : Prop :=
  read_full (length (fdata (mpFid (mReader c)))) (window_offset c fmt stride k)
            (Reader.width (format fmt)) stride cSiglen.

#[global] Instance window_full_dec c fmt stride k : Decision (window_full c fmt stride k).
Proof. unfold window_full. apply _. Defined.

(** The [cSiglen] floats obtained by a read of one window at byte offset
    [o] into the raw buffer of [c], followed by the conversion. *)
Definition window_at (c : FormatClassifier) (fmt : FormatClassT) (stride o : nat)
  : list float :=
  match Reader.ReadSamples (Reader.ResetAt o (mReader c)) (mRawBuffer c) cSiglen stride
                           (format fmt) (endian fmt) with
  | Ok (raw, _, _) => cast_sample (mEnd (mReader c)) (format fmt) raw <$> seq 0 cSiglen
  | _ => []
  end.

(** The element-wise sum of the windows [0, ..., m - 1], added in this
    order. *)
Definition integrate (c : FormatClassifier) (fmt : FormatClassT) (stride m : nat)
  : list float :=
  fold_left
    (fun acc k => Add acc (window_at c fmt stride (window_offset c fmt stride k)) cSiglen)
    (seq 1 (m - 1))
    (window_at c fmt stride (window_offset c fmt stride 0)).

(** The members that neither [ReadSignal] nor [FindSignalStart] assigns,
    apart from [mSignalStart]. *)
Definition same_members (c0 c : FormatClassifier) : Prop :=
  mClasses c = mClasses c0 /\ mMeter c = mMeter c0
  /\ mWinBuffer c = mWinBuffer c0 /\ mEqBuffer c = mEqBuffer c0
  /\ mPLo c = mPLo c0 /\ mPHiM c = mPHiM c0 /\ mPHiS c = mPHiS c0
  /\ mMonoFeat c = mMonoFeat c0 /\ mStereoFeat c = mStereoFeat c0
  /\ mResultFormat c = mResultFormat c0 /\ mResultChannels c = mResultChannels c0.

(** What a pass over the file keeps: the file and the host byte order,
    the sizes of the three working buffers, and the other members. *)
Definition same_frame (c0 c : FormatClassifier) : Prop :=
  same_members c0 c
  /\ fdata (mpFid (mReader c)) = fdata (mpFid (mReader c0))
  /\ mEnd (mReader c) = mEnd (mReader c0)
  /\ length (mRawBuffer c) = length (mRawBuffer c0)
  /\ length (mSigBuffer c) = length (mSigBuffer c0)
  /\ length (mAuxBuffer c) = length (mAuxBuffer c0).

(** The position of the reader when window [k] is about to be read: the
    offset of the window, or somewhere at or past the end of the file
    when that offset is past the end. *)
Definition at_window (c0 : FormatClassifier) (fmt : FormatClassT) (s k : nat)
    (c : FormatClassifier) : Prop :=
  fpos (mpFid (mReader c)) = window_offset c0 fmt s k
  \/ (length (fdata (mpFid (mReader c0))) <= fpos (mpFid (mReader c))
      /\ length (fdata (mpFid (mReader c0))) < window_offset c0 fmt s k).

(** The loop invariant of [ReadSignal], on the loop state
    [(n, actRead, c)] at the test of the condition. *)
Definition ReadSignal_inv (c0 : FormatClassifier) (fmt : FormatClassT) (s : nat)
    (st : nat * nat * FormatClassifier) : Prop :=
  let '(n, a, c) := st in
  1 <= n <= cNumInts
  /\ same_frame c0 c
  /\ mSignalStart c = mSignalStart c0
  /\ (a = cSiglen ->
      (forall k, k < n -> window_full c0 fmt s k)
      /\ mSigBuffer c = integrate c0 fmt s n
      /\ at_window c0 fmt s n c)
  /\ (a <> cSiglen ->
      (forall k, k < n - 1 -> window_full c0 fmt s k)
      /\ ~ window_full c0 fmt s (n - 1)
      /\ mSigBuffer c = integrate c0 fmt s (1 `max` (n - 1))).

(** The byte offset of the [k]-th window that [FindSignalStart] probes. *)
Definition probe_offset (k : nat) : nat :=
  cHeaderSkip + k * (cSigSearchGridSize * cSiglen).

(** The file holds all [cSiglen] bytes of probe window [k]. *)
Definition probe_full (c : FormatClassifier) (k : nat) : Prop :=
  read_full (length (fdata (mpFid (mReader c)))) (probe_offset k) 1 1 cSiglen.

(** [Rms] of the first 64 floats of probe window [k]. *)
Definition probe_rms (c : FormatClassifier) (k : nat) : float :=
  Rms (window_at c testFormat 1 (probe_offset k)) 64.

(** The measure that decreases along the loop of [FindSignalStart]. *)
Definition search_measure (s : search) : nat :=
  if s_signalFound s then 0
  else if decide (s_actRead s = cSiglen)
       then 2 + (length (fdata (mpFid (mReader (s_c s)))) - fpos (mpFid (mReader (s_c s))))
       else 1.

(** What [FindSignalStart] keeps at every step: the frame, and the zeros
    that [memset] wrote beyond the first [cSiglen] bytes of the raw
    buffer. *)
Definition search_frame (c0 c : FormatClassifier) : Prop :=
  same_frame c0 c
  /\ forall j, cSiglen <= j -> mRawBuffer c !! j = replicate cRawSiglen 0%Z !! j.

(** The loop invariant of [FindSignalStart]. *)
Definition FindSignalStart_inv (c0 : FormatClassifier) (s : search) : Prop :=
  search_frame c0 (s_c s)
  /\ if s_signalFound s then
       (forall k, k <= s_i s -> probe_full c0 k)
       /\ (forall k, k < s_i s ->
             F32.leb cMinRms (probe_rms c0 k) = false
             /\ F32.is_nan (probe_rms c0 k) = false)
       /\ F32.leb cMinRms (probe_rms c0 (s_i s)) = true
     else
       exists P,
         (forall k, k < P -> probe_full c0 k /\ F32.leb cMinRms (probe_rms c0 k) = false)
         /\ (forall k, S k < P -> F32.is_nan (probe_rms c0 k) = false)
         /\ s_rms s = match P with 0 => F32.zero | S P' => probe_rms c0 P' end
         /\ (s_actRead s = cSiglen ->
             s_i s = P /\ probe_full c0 P
             /\ mSigBuffer (s_c s) = window_at c0 testFormat 1 (probe_offset P)
             /\ fpos (mpFid (mReader (s_c s))) = probe_offset P + cSiglen)
         /\ (s_actRead s <> cSiglen -> ~ probe_full c0 P).

(** Probe window [i] is the first one whose [Rms] passes the test
    [rms >= cMinRms]: the windows up to [i] are complete, and those before
    [i] are below the threshold and not NaN. *)
Definition first_loud_probe (c : FormatClassifier) (i : nat) : Prop :=
  (forall k, k <= i -> probe_full c k)
  /\ (forall k, k < i ->
        F32.leb cMinRms (probe_rms c k) = false
        /\ F32.is_nan (probe_rms c k) = false)
  /\ F32.leb cMinRms (probe_rms c i) = true.

(** The search ends at probe window [P] without a signal: the windows
    before [P] are complete and below the threshold, and either window [P]
    is cut short by the end of the file, or the [Rms] of the window before
    it is NaN. *)
Definition search_gives_up (c : FormatClassifier) (P : nat) : Prop :=
  (forall k, k < P -> probe_full c k /\ F32.leb cMinRms (probe_rms c k) = false)
  /\ (forall k, S k < P -> F32.is_nan (probe_rms c k) = false)
  /\ (~ probe_full c P
      \/ exists P', P = S P' /\ F32.is_nan (probe_rms c P') = true).

(** The bins [lo, lo + 1, ..., hi - 1], in this order. *)
Definition bin_range (lo hi : Z) : list Z :=
  (fun k => (lo + Z.of_nat k)%Z) <$> seq 0 (Z.to_nat (hi - lo)).

(** The squared magnitude of the spectrum at a bin [n] inside the arrays,
    weighted by the equalizer mask when the equalizer is enabled. *)
Definition bin_power (m : SpecPowerMeter) (sig_f_r sig_f_i : list float) (n : Z) : float :=
  let w x := if mEqEnabled m then F32.mul x (mEqMask m !!! Z.to_nat n) else x in
  let re := w (sig_f_r !!! Z.to_nat n) in
  let im := w (sig_f_i !!! Z.to_nat n) in
  F32.add (F32.mul re re) (F32.mul im im).

(** One pass through the loop of [CalcBinPower]. *)
Definition CalcBinPower_body (m : SpecPowerMeter) (sig_f_r sig_f_i : list float)
    (n : Z) (pwr : float) : result float :=
  if mEqEnabled m then
    r ← at_int (mSigLen m) sig_f_r n;
    q ← at_int (mSigLen m) (mEqMask m) n;
    i ← at_int (mSigLen m) sig_f_i n;
    Ok (F32.add pwr (F32.add (F32.mul (F32.mul r q) (F32.mul r q))
                             (F32.mul (F32.mul i q) (F32.mul i q))))
  else
    r ← at_int (mSigLen m) sig_f_r n;
    i ← at_int (mSigLen m) sig_f_i n;
    Ok (F32.add pwr (F32.add (F32.mul r r) (F32.mul i i))).

(** The three band requests of [Run]: [(0.25f, 0.5f)], [(0.45f, 0.1f)] and
    [(0.40f, 0.2f)]. *)
Definition band_requests : list (float * float) :=
  [(F32.lit 25 100, F32.lit 5 10); (F32.lit 45 100, F32.lit 1 10);
   (F32.lit 40 100, F32.lit 2 10)].

(** What [Max] returns for the first [len] elements of [in_]: no element
    exceeds [max]; when some element exceeds [-FLT_MAX], [max] is the
    element at [idx]; when none does, [max] is [-FLT_MAX] and [idx] is 0. *)
Definition Max_returns (in_ : list float) (len : nat) (max : float) (idx : nat) : Prop :=
  (forall j, j < len -> F32.ltb max (in_ !!! j) = false)
  /\ ((exists j, j < len /\ F32.ltb (F32.opp F32.FLT_MAX) (in_ !!! j) = true) ->
      idx < len /\ max = in_ !!! idx)
  /\ ((forall j, j < len -> F32.ltb (F32.opp F32.FLT_MAX) (in_ !!! j) = false) ->
      max = F32.opp F32.FLT_MAX /\ idx = 0).

(** The state the constructor sets up before it calls [Run]: the ten
    classes, the working sizes of the buffers, and a meter for signals of
    [mFiltSiglen = 256] samples. *)
Definition Run_ready (c : FormatClassifier) : Prop :=
  mClasses c = classes
  /\ length (mRawBuffer c) = cRawSiglen
  /\ length (mSigBuffer c) = cSiglen
  /\ length (mAuxBuffer c) = cSiglen
  /\ mSigLen (mMeter c) = Z.of_nat mFiltSiglen.

(** A binary32 number that is [+0], [+infinity], or a normal number that
    is at least 1: a 24-bit mantissa with an exponent of at least -23. *)
Definition zero_or_ge_one (x : float) : bool :=
  match x with
  | S754_zero s | S754_infinity s => negb s
  | S754_nan => false
  | S754_finite s m e =>
      negb s && (Zpos (digits2_pos m) =? 24)%Z && (-23 <=? e)%Z
  end.

(** ** Construction, [CalcSincwin] and [Abs] *)

(** [M_PI] of [<cmath>]: the binary64 number nearest to pi. *)
Definition M_PI : double := F64.of_bits 0x400921FB54442D18.

(** [MultiFormatReader(filename)]: [file] is what [fopen] finds, [None]
    when it returns [NULL]; [host] is the byte order of the machine. *)
Definition new_MultiFormatReader (file : option (list byte)) (host : EndiannessT)
  : result MultiFormatReader :=
  match file with
  | Some data => Ok (mkReader (mkFILE data 0) host)
  | None => Throw FileOpen
  end.

(** [SpecPowerMeter(sigLen)], for a [sigLen] that is not negative: the
    loop stores [0.0f] in every entry of the new [mSigI] and [1.0f] in
    every entry of the new [mEqMask]. *)
Definition new_SpecPowerMeter (sigLen : Z) : SpecPowerMeter :=
  mkMeter sigLen (replicate (Z.to_nat sigLen) F32.zero) false
          (replicate (Z.to_nat sigLen) F32.one).

Section Window.
(** [sinf] and [cosf] of the C library. *)
Variables sinf cosf : float -> float.

(** [CalcSincwin(buffer, len)].  The products with [M_PI] are [double]
    expressions; [x] and the argument of [cosf] are rounded to [float]. *)
Definition CalcSincwin (buffer : list float) (len : nat) : list float :=
  let M := F32.sub (F32.of_Z (Z.of_nat len)) F32.one in
  for_loop 0 len
    (fun n buffer =>
       let x :=
         F64.to_float
           (F64.sub
              (F64.mul (F64.div (F64.mul (F64.of_float (F32.of_Z 4)) M_PI) (F64.of_float M))
                       (F64.of_Z (Z.of_nat n)))
              (F64.mul (F64.of_float (F32.of_Z 2)) M_PI)) in
       let buffer := <[n := F32.div (sinf x) x]> buffer in
       (* Multiply an additional Hann window to attenuate sidelobes further down *)
       let hann :=
         F32.mul (F32.lit 5 10)
           (F32.sub F32.one
              (cosf (F64.to_float
                       (F64.div (F64.mul (F64.mul (F64.of_float (F32.of_Z 2)) M_PI)
                                         (F64.of_Z (Z.of_nat n)))
                                (F64.of_float M))))) in
       <[n := F32.mul (buffer !!! n) hann]> buffer)
    buffer.

End Window.

Definition set_mWinBuffer (v : list float) (c : FormatClassifier) : FormatClassifier :=
  mkClassifier (mClasses c) (mReader c) (mMeter c) (mSigBuffer c) (mAuxBuffer c) v
               (mEqBuffer c) (mRawBuffer c) (mSignalStart c) (mPLo c) (mPHiM c) (mPHiS c)
               (mMonoFeat c) (mStereoFeat c) (mResultFormat c) (mResultChannels c).

Definition set_mEqBuffer (v : list float) (c : FormatClassifier) : FormatClassifier :=
  mkClassifier (mClasses c) (mReader c) (mMeter c) (mSigBuffer c) (mAuxBuffer c)
               (mWinBuffer c) v (mRawBuffer c) (mSignalStart c) (mPLo c) (mPHiM c)
               (mPHiS c) (mMonoFeat c) (mStereoFeat c) (mResultFormat c)
               (mResultChannels c).

(** What the constructor finds in the memory it does not initialise: the
    contents of the two new feature arrays and the two result members. *)
Record Indeterminate := mkIndeterminate {
  u_MonoFeat : nat -> float;
  u_StereoFeat : nat -> float;
  u_ResultFormat : FormatClassT;
  u_ResultChannels : Z
}.

Section Constructor.
Variables sinf cosf : float -> float.
Variable powf : float -> float -> float.
Variable FFT : Z -> bool -> list float -> list float -> list float * list float.

(** [FormatClassifier(filename)] *)
Definition new_FormatClassifier (file : option (list byte)) (host : EndiannessT)
    (u : Indeterminate) : result FormatClassifier :=
  rd ← new_MultiFormatReader file host;
  let meter := new_SpecPowerMeter (Z.of_nat mFiltSiglen) in
  (* Resize buffers to their working sizes; define the classification classes *)
  let c := mkClassifier classes rd meter
             (replicate cSiglen F32.zero) (replicate cSiglen F32.zero)
             (replicate cSiglen F32.zero) (replicate mFiltSiglen F32.zero)
             (replicate cRawSiglen 0%Z) cHeaderSkip [] [] [] [] []
             (u_ResultFormat u) (u_ResultChannels u) in
  (* Find signal start offset *)
  c ← FindSignalStart c;
  (* Build feature vectors *)
  let c := set_mMonoFeat (u_MonoFeat u <$> seq 0 (length (mClasses c))) c in
  let c := set_mStereoFeat (u_StereoFeat u <$> seq 0 (length (mClasses c))) c in
  (* Calc window signal for polyphase input filter *)
  let c := set_mWinBuffer (CalcSincwin sinf cosf (mWinBuffer c) cSiglen) c in
  (* Calc equalizer mask and set it to power meter *)
  let c := set_mEqBuffer (CalcEqualizerMask powf (mEqBuffer c) mFiltSiglen) c in
  let c := set_mMeter (SetEqualizer (mMeter c) (mEqBuffer c) mFiltSiglen) c in
  (* Run it *)
  Run FFT c.

End Constructor.

(** [Abs(in, out, len)] *)
Definition Abs (in_ out : list float) (len : nat) : list float :=
  for_loop 0 len
    (fun n out =>
       if F32.ltb (in_ !!! n) F32.zero then <[n := F32.opp (in_ !!! n)]> out
       else <[n := in_ !!! n]> out)
    out.

(** ** Functions used to state the properties of reads and conversions *)

(** The number of complete samples that a read of [len] samples of width
    [W] at stride [s] finds in a file of [L] bytes, starting at position
    [p]. *)
Definition samples_available (L p W s len : nat) : nat :=
  if decide (p + W <= L) then len `min` ((L - p - W) / (s * W) + 1) else 0.

(** The [W] bytes at byte offset [o] of [data], as an unsigned integer in
    the byte order [end_]. *)
Definition load_at (end_ : EndiannessT) (data : list byte) (o W : nat) : Z :=
  let g := take W (drop o data) in
  le_val (match end_ with Little => g | Big => rev g end).

(** A binary32 number that is NaN or has a clear sign bit. *)
Definition nan_or_sign_clear (x : float) : bool :=
  match x with
  | S754_zero s | S754_infinity s | S754_finite s _ _ => negb s
  | S754_nan => true
  end.

(** The integer that a binary32 number equals, when it equals one. *)
Definition int_value (x : float) : option Z :=
  match x with
  | S754_zero _ => Some 0%Z
  | S754_finite s m e =>
      let v := if (0 <=? e)%Z then Some (Zpos m * 2 ^ e)%Z
               else if (Zpos m mod 2 ^ (- e) =? 0)%Z then Some (Zpos m / 2 ^ (- e))%Z
                    else None in
      (fun z => if s then (- z)%Z else z) <$> v
  | _ => None
  end.

(** The integer that sample [n] of a raw buffer holds, for the integer
    formats. *)
Definition int_sample (host : EndiannessT) (fmt : FormatT) (raw : list byte) (n : nat)
  : option Z :=
  match fmt with
  | Int8 => Some (signed 8 (load host raw 1 n))
  | Int16 => Some (signed 16 (load host raw 2 n))
  | Int32 => Some (signed 32 (load host raw 4 n))
  | Uint8 => Some (load host raw 1 n)
  | Uint16 => Some (load host raw 2 n)
  | Uint32 => Some (load host raw 4 n)
  | Float | Double => None
  end.

(** Two classifiers whose files have the same length and the same bytes
    in every complete probe window of [FindSignalStart]. *)
Definition same_probes (c1 c2 : FormatClassifier) : Prop :=
  length (fdata (mpFid (mReader c1))) = length (fdata (mpFid (mReader c2)))
  /\ forall k j, probe_full c1 k -> j < cSiglen ->
       fdata (mpFid (mReader c1)) !! (probe_offset k + j)
       = fdata (mpFid (mReader c2)) !! (probe_offset k + j).

(** The [float] that a sample of the format is converted to, given the
    unsigned value of its bytes read in the byte order of the host. *)
Definition sample_value (format : FormatT) (z : Z) : float :=
  match format with
  | Int8 => F32.of_Z (signed 8 z)
  | Int16 => F32.of_Z (signed 16 z)
  | Int32 => F32.of_Z (signed 32 z)
  | Uint8 | Uint16 | Uint32 => F32.of_Z z
  | Float => F32.of_bits z
  | Double => F64.to_float (F64.of_bits z)
  end.

(** The element-wise sum of the windows [0, ..., m - 1] in binary32:
    element [j] is [((w0[j] + w1[j]) + ...) + w(m-1)[j]]. *)
Definition window_sum (c : FormatClassifier) (fmt : FormatClassT) (stride m : nat)
  : list float :=
  (fun j =>
     fold_left
       (fun acc k =>
          F32.add acc (window_at c fmt stride (window_offset c fmt stride k) !!! j))
       (seq 1 (m - 1))
       (window_at c fmt stride (window_offset c fmt stride 0) !!! j))
  <$> seq 0 cSiglen.

(** The file of the counterexample to C5: a header of 1024 zero bytes and
    a window of 1024 little-endian binary32 numbers, all zero except the
    sixth, which is the NaN [0x7FC00000]. *)
Definition nan_file : list byte :=
  replicate 1024 0%Z ++ replicate 20 0%Z ++ [0; 0; 192; 127]%Z ++ replicate 4072 0%Z.

(** * Properties *)

(** ** Loops *)

Section Loops.
Context {S : Type}.

Lemma for_loop_nil (lo : nat) (body : nat -> S -> S) (s : S) :
  for_loop lo lo body s = s.
Proof. unfold for_loop. by rewrite Nat.sub_diag. Qed.

Lemma for_loop_S (lo hi : nat) (body : nat -> S -> S) (s : S) :
  lo <= hi ->
  for_loop lo (Datatypes.S hi) body s = body hi (for_loop lo hi body s).
Proof.
  intros Hle. unfold for_loop.
  replace (Datatypes.S hi - lo) with (Datatypes.S (hi - lo)) by lia.
  rewrite seq_S, fold_left_app. simpl.
  by replace (lo + (hi - lo)) with hi by lia.
Qed.

(** A loop invariant rule. *)
Lemma for_loop_ind (P : nat -> S -> Prop) (hi : nat) (body : nat -> S -> S) (s : S) :
  P 0 s ->
  (forall n s, n < hi -> P n s -> P (Datatypes.S n) (body n s)) ->
  P hi (for_loop 0 hi body s).
Proof.
  intros H0 Hstep.
  assert (forall k, k <= hi -> P k (for_loop 0 k body s)) as Hk; [|by apply Hk].
  induction k as [|k IH]; intros Hle.
  - by rewrite for_loop_nil.
  - rewrite for_loop_S by lia. apply Hstep; [lia|]. apply IH. lia.
Qed.

Lemma for_loop_ext (lo hi : nat) (f g : nat -> S -> S) (s : S) :
  (forall n s, lo <= n < hi -> f n s = g n s) ->
  for_loop lo hi f s = for_loop lo hi g s.
Proof.
  intros Hfg. unfold for_loop.
  assert (forall l s, (forall n, n ∈ l -> lo <= n < hi) ->
            fold_left (fun s n => f n s) l s = fold_left (fun s n => g n s) l s) as Hl.
  { induction l as [|x l IH]; intros s' Hin; [done|]. simpl.
    rewrite Hfg by (apply Hin; left). apply IH. intros n Hn. apply Hin. by right. }
  apply Hl. intros n Hn. apply elem_of_seq in Hn. lia.
Qed.

End Loops.

Section ArrayLoops.
Context {A : Type} `{Inhabited A}.

(** A loop that rewrites each of the first [len] elements from its own
    value is a map over that prefix. *)
Lemma for_loop_update (g : nat -> A -> A) (len : nat) (l : list A) (j : nat) :
  for_loop 0 len (fun n b => <[n := g n (b !!! n)]> b) l !! j
  = if decide (j < len) then g j <$> (l !! j) else l !! j.
Proof.
  revert j. induction len as [|len IH]; intros j.
  - rewrite for_loop_nil. by case_decide; [lia|].
  - rewrite for_loop_S by lia.
    set (b := for_loop 0 len _ l) in *.
    assert (length b = length l) as Hlen.
    { subst b. apply (for_loop_ind (fun _ b => length b = length l)); [done|].
      intros n s _ Hs. by rewrite length_insert. }
    destruct (decide (j = len)) as [->|Hne].
    + rewrite decide_True by lia.
      destruct (decide (len < length l)) as [Hlt|Hge].
      * rewrite list_lookup_insert_eq by lia.
        assert (b !! len = l !! len) as Hb by (rewrite IH; by rewrite decide_False by lia).
        rewrite (list_lookup_total_alt b), Hb.
        destruct (l !! len) eqn:E; [done|].
        apply lookup_ge_None in E. lia.
      * rewrite list_insert_ge by lia. rewrite IH, decide_False by lia.
        rewrite (lookup_ge_None_2 l) by lia. done.
    + rewrite list_lookup_insert_ne by done. rewrite IH.
      repeat case_decide; try lia; done.
Qed.

Lemma for_loop_update_length (g : nat -> A -> A) (len : nat) (l : list A) :
  length (for_loop 0 len (fun n b => <[n := g n (b !!! n)]> b) l) = length l.
Proof.
  apply (for_loop_ind (fun _ b => length b = length l)); [done|].
  intros n s _ Hs. by rewrite length_insert.
Qed.

Lemma for_loop_update_map (g : A -> A) (len : nat) (l : list A) :
  for_loop 0 len (fun n b => <[n := g (b !!! n)]> b) l
  = (g <$> take len l) ++ drop len l.
Proof.
  apply list_eq. intros j.
  rewrite (for_loop_update (fun _ => g)).
  destruct (decide (j < len)) as [Hlt|Hge].
  - destruct (decide (j < length l)) as [Hj|Hj].
    + rewrite lookup_app_l by (rewrite length_fmap, length_take; lia).
      rewrite list_lookup_fmap, lookup_take_lt by lia. done.
    + rewrite (lookup_ge_None_2 l) by lia. simpl. symmetry.
      apply lookup_ge_None_2. rewrite length_app, length_fmap, length_take, length_drop. lia.
  - destruct (decide (len <= length l)).
    + rewrite lookup_app_r by (rewrite length_fmap, length_take; lia).
      rewrite length_fmap, length_take, lookup_drop. f_equal. lia.
    + rewrite (lookup_ge_None_2 l) by lia. symmetry.
      apply lookup_ge_None_2. rewrite length_app, length_fmap, length_take, length_drop. lia.
Qed.

(** A loop that accumulates over the first [len] elements is a fold over
    that prefix. *)
Lemma for_loop_accumulate {B : Type} (f : B -> A -> B) (len : nat) (l : list A) (b : B) :
  len <= length l ->
  for_loop 0 len (fun n acc => f acc (l !!! n)) b = fold_left f (take len l) b.
Proof.
  induction len as [|len IH]; intros Hle.
  - by rewrite for_loop_nil.
  - rewrite for_loop_S by lia. rewrite IH by lia.
    destruct (lookup_lt_is_Some_2 l len) as [x Hx]; [lia|].
    rewrite (take_S_r _ _ x) by done. rewrite fold_left_app. simpl.
    by rewrite (list_lookup_total_correct _ _ _ Hx).
Qed.

End ArrayLoops.

Section StoreLoops.
Context {A : Type}.

(** A loop that stores [v k] at index [base + k]. *)
Lemma for_loop_store (v : nat -> A) (base n : nat) (l : list A) (j : nat) :
  for_loop 0 n (fun k b => <[base + k := v k]> b) l !! j
  = if decide (base <= j < base + n /\ j < length l) then Some (v (j - base))
    else l !! j.
Proof.
  revert j. induction n as [|n IH]; intros j.
  - rewrite for_loop_nil. by rewrite decide_False by lia.
  - rewrite for_loop_S by lia.
    set (b := for_loop 0 n _ l) in *.
    assert (length b = length l) as Hlen.
    { subst b. apply (for_loop_ind (fun _ b => length b = length l)); [done|].
      intros k s _ Hs. by rewrite length_insert. }
    destruct (decide (j = base + n)) as [->|Hne].
    + destruct (decide (base + n < length l)).
      * rewrite list_lookup_insert_eq by lia. rewrite decide_True by lia.
        do 2 f_equal. lia.
      * rewrite list_insert_ge by lia. rewrite IH.
        rewrite !decide_False by lia. done.
    + rewrite list_lookup_insert_ne by done. rewrite IH.
      repeat case_decide; try lia; done.
Qed.

Lemma for_loop_store_length (v : nat -> A) (base n : nat) (l : list A) :
  length (for_loop 0 n (fun k b => <[base + k := v k]> b) l) = length l.
Proof.
  apply (for_loop_ind (fun _ b => length b = length l)); [done|].
  intros k s _ Hs. by rewrite length_insert.
Qed.

End StoreLoops.

(** ** Byte swapping *)

Module SwapFacts.
Import Reader.

Lemma mirror_group (size i k : nat) :
  k < size -> mirror size (i * size + k) = i * size + (size - 1 - k).
Proof.
  intros Hk. unfold mirror.
  rewrite (Nat.add_comm (i * size) k), Nat.div_add, Nat.Div0.mod_add by lia.
  rewrite Nat.div_small, Nat.mod_small by lia. lia.
Qed.

Lemma mirror_decompose (size j : nat) :
  0 < size -> exists i k, k < size /\ j = i * size + k.
Proof.
  intros Hs. exists (j / size), (j mod size). split.
  - apply Nat.mod_upper_bound. lia.
  - rewrite (Nat.div_mod_eq j size) at 1. lia.
Qed.

Lemma mirror_involutive (size j : nat) :
  0 < size -> mirror size (mirror size j) = j.
Proof.
  intros Hs. destruct (mirror_decompose size j Hs) as (i & k & Hk & ->).
  rewrite mirror_group by done. rewrite mirror_group by lia. lia.
Qed.

Lemma mirror_bound (size len j : nat) :
  0 < size -> j < len * size -> mirror size j < len * size.
Proof.
  intros Hs Hj. destruct (mirror_decompose size j Hs) as (i & k & Hk & ->).
  rewrite mirror_group by done.
  assert (i < len) by nia. nia.
Qed.

Lemma mirror_1 (j : nat) : mirror 1 j = j.
Proof. unfold mirror. rewrite Nat.div_1_r, Nat.mod_1_r. lia. Qed.

Lemma SwapGroup_length (size i : nat) (buf : list byte) :
  length (SwapGroup size i buf) = length buf.
Proof. unfold SwapGroup. apply for_loop_store_length. Qed.

Lemma SwapGroup_lookup (size i : nat) (buf : list byte) (j : nat) :
  i * size + size <= length buf ->
  SwapGroup size i buf !! j
  = if decide (i * size <= j < i * size + size)
    then buf !! (i * size + (size - 1 - (j - i * size)))
    else buf !! j.
Proof.
  intros Hlen. unfold SwapGroup. rewrite for_loop_store.
  destruct (decide (i * size <= j < i * size + size)) as [Hj|Hj].
  - rewrite decide_True by lia.
    rewrite lookup_total_take, decide_True by lia. rewrite lookup_total_drop.
    symmetry. rewrite list_lookup_lookup_total_lt by lia.
    do 2 f_equal. lia.
  - by rewrite decide_False by lia.
Qed.

Lemma swap_loop_length (size len : nat) (buf : list byte) :
  length (for_loop 0 len (SwapGroup size) buf) = length buf.
Proof.
  apply (for_loop_ind (fun _ b => length b = length buf)); [done|].
  intros n s _ Hs. by rewrite SwapGroup_length.
Qed.

(** Every byte of the first [len] groups comes from the mirrored index;
    the rest of the buffer is untouched. *)
Lemma swap_loop_lookup (size len : nat) (buf : list byte) (j : nat) :
  0 < size -> len * size <= length buf ->
  for_loop 0 len (SwapGroup size) buf !! j
  = if decide (j < len * size) then buf !! mirror size j else buf !! j.
Proof.
  intros Hs. revert j. induction len as [|len IH]; intros j Hlen.
  - rewrite for_loop_nil. by rewrite decide_False by lia.
  - rewrite for_loop_S by lia.
    rewrite SwapGroup_lookup by (rewrite swap_loop_length; lia).
    destruct (decide (len * size <= j < len * size + size)) as [Hj|Hj].
    + rewrite IH by lia. rewrite decide_False by lia. rewrite decide_True by lia.
      f_equal. replace j with (len * size + (j - len * size)) at 2 by lia.
      rewrite mirror_group by lia. done.
    + rewrite IH by lia. repeat case_decide; try lia; done.
Qed.

Lemma SwapBytes_Ok (buf : list byte) (size len : nat) :
  size <= 8 -> SwapBytes buf size len = Ok (for_loop 0 len (SwapGroup size) buf).
Proof. intros Hs. unfold SwapBytes. by rewrite decide_False by lia. Qed.

Lemma swap_loop_involutive (size len : nat) (buf : list byte) :
  0 < size -> len * size <= length buf ->
  for_loop 0 len (SwapGroup size) (for_loop 0 len (SwapGroup size) buf) = buf.
Proof.
  intros Hs Hlen. apply list_eq. intros j.
  rewrite swap_loop_lookup by (rewrite ?swap_loop_length; lia).
  case_decide as Hj; rewrite swap_loop_lookup by lia.
  - rewrite decide_True by (by apply mirror_bound).
    by rewrite mirror_involutive.
  - by rewrite decide_False.
Qed.

Lemma swap_loop_1 (len : nat) (buf : list byte) :
  for_loop 0 len (SwapGroup 1) buf = buf.
Proof.
  apply (for_loop_ind (fun _ b => b = buf)); [done|].
  intros n s _ ->. unfold SwapGroup.
  rewrite for_loop_S, for_loop_nil by lia.
  apply list_eq. intros j.
  destruct (decide (j = n * 1 + 0)) as [->|Hne]; [|by rewrite list_lookup_insert_ne].
  destruct (decide (n * 1 + 0 < length buf)) as [Hlt|Hge].
  - rewrite list_lookup_insert_eq by done.
    rewrite lookup_total_take, decide_True by lia. rewrite lookup_total_drop.
    symmetry. rewrite list_lookup_lookup_total_lt by lia. do 2 f_equal; lia.
  - by rewrite list_insert_ge by lia.
Qed.

End SwapFacts.

Module ReaderFacts.
Import Reader SwapFacts.

(** [ReadSamples] in terms of [Read] and the group-wise swap: it never
    raises, whatever the format. *)
Lemma ReadSamples_eq (rd : MultiFormatReader) (buf : list byte) (len stride : nat)
    (fmt : FormatT) (end_ : EndiannessT) :
  ReadSamples rd buf len stride fmt end_
  = let '(b, actRead, f) := Read buf (width fmt) len stride (mpFid rd) in
    Ok (if bool_decide (mEnd rd <> end_) then for_loop 0 len (SwapGroup (width fmt)) b else b,
        actRead, with_fid rd f).
Proof.
  unfold ReadSamples.
  destruct fmt; simpl; destruct (Read _ _ _ _ _) as [[b a] f];
    try (case_bool_decide; [rewrite SwapBytes_Ok by lia|]; done);
    case_bool_decide; by rewrite ?swap_loop_1.
Qed.

Lemma ReadSamples_is_Ok (rd : MultiFormatReader) (buf : list byte) (len stride : nat)
    (fmt : FormatT) (end_ : EndiannessT) :
  is_Ok (ReadSamples rd buf len stride fmt end_).
Proof.
  rewrite ReadSamples_eq. destruct (Read _ _ _ _ _) as [[b a] f]. by eexists.
Qed.

(** C8.  For every buffer holding the [len] groups and every group width
    [W] among 1, 2, 4 and 8, swapping twice with the same width restores
    the buffer; for [W = 1] a single swap already leaves the buffer as it
    is; and [ReadSamples] for the width-1 formats [Int8] and [Uint8]
    gives the same buffer, count and reader state for either requested
    byte order. *)
Theorem SwapBytes_involution :
  (forall (buf : list byte) (W len : nat),
     W = 1 \/ W = 2 \/ W = 4 \/ W = 8 ->
     W * len <= length buf ->
     (SwapBytes buf W len ≫= fun b => SwapBytes b W len) = Ok buf)
  /\ (forall (buf : list byte) (len : nat), SwapBytes buf 1 len = Ok buf)
  /\ (forall (rd : MultiFormatReader) (buf : list byte) (len stride : nat) (fmt : FormatT),
        fmt = Int8 \/ fmt = Uint8 ->
        ReadSamples rd buf len stride fmt Little = ReadSamples rd buf len stride fmt Big).
Proof.
  split; [|split].
  - intros buf W len HW Hlen.
    rewrite SwapBytes_Ok by lia. simpl.
    rewrite SwapBytes_Ok by lia.
    rewrite swap_loop_involutive by lia. done.
  - intros buf len. rewrite SwapBytes_Ok by lia. by rewrite swap_loop_1.
  - intros rd buf len stride fmt [-> | ->]; done.
Qed.

Lemma SwapBytes_involution_witness :
  (SwapBytes [1; 2; 3; 4; 5; 6; 7; 8; 9]%Z 4 2 ≫= fun b => SwapBytes b 4 2)
  = Ok [1; 2; 3; 4; 5; 6; 7; 8; 9]%Z
  /\ ReadSamples (mkReader (mkFILE [10; 20; 30]%Z 0) Little) [0; 0; 0; 0]%Z 2 1 Uint8 Little
     = ReadSamples (mkReader (mkFILE [10; 20; 30]%Z 0) Little) [0; 0; 0; 0]%Z 2 1 Uint8 Big.
Proof.
  split.
  - apply (proj1 SwapBytes_involution); [by right; right; left | simpl; lia].
  - apply (proj2 (proj2 SwapBytes_involution)). by right.
Defined.

(** C9.  [SwapBytes] raises (the width error, and no other) exactly when
    the group width exceeds 8 bytes; [ReadSamples] returns normally for
    each of the eight formats on every host and for either requested
    byte order, so the error cannot come out of a read of one of the
    classifier's candidates. *)
Theorem SwapBytes_UnsupportedWidth :
  (forall (buf : list byte) (size len : nat),
     (SwapBytes buf size len = Throw UnsupportedWidth <-> 8 < size)
     /\ (is_Ok (SwapBytes buf size len) <-> size <= 8))
  /\ (forall (rd : MultiFormatReader) (buf : list byte) (len stride : nat)
             (fmt : FormatT) (end_ : EndiannessT),
        width fmt <= 8 /\ is_Ok (ReadSamples rd buf len stride fmt end_))
  /\ Forall (fun cls =>
        forall (rd : MultiFormatReader) (buf : list byte) (len stride : nat),
          is_Ok (ReadSamples rd buf len stride (format cls) (endian cls))) classes.
Proof.
  split; [|split].
  - intros buf size len. unfold SwapBytes, is_Ok.
    case_decide; split; split; try done; try lia.
    + by intros [a ?].
    + by eexists.
  - intros rd buf len stride fmt end_. split.
    + destruct fmt; simpl; lia.
    + apply ReadSamples_is_Ok.
  - apply Forall_forall. intros cls _ rd buf len stride. apply ReadSamples_is_Ok.
Qed.

End ReaderFacts.

(** ** Math kernels *)

Section KernelFacts.
Context {F : Type} `{Arith F}.

Lemma Sub_eq (l : list F) (s : F) (len : nat) :
  Sub l s len = ((fun x => f_sub x s) <$> take len l) ++ drop len l.
Proof. unfold Sub. apply (for_loop_update_map (fun x => f_sub x s)). Qed.

Lemma Div_eq (l : list F) (d : F) (len : nat) :
  Div l d len = ((fun x => f_div x d) <$> take len l) ++ drop len l.
Proof. unfold Div. apply (for_loop_update_map (fun x => f_div x d)). Qed.

Lemma Add_lookup (in1 in2 : list F) (len j : nat) :
  Add in1 in2 len !! j
  = if decide (j < len) then (fun x => f_add x (in2 !!! j)) <$> (in1 !! j) else in1 !! j.
Proof. unfold Add. apply (for_loop_update (fun n x => f_add x (in2 !!! n))). Qed.

Lemma Add_length (in1 in2 : list F) (len : nat) :
  length (Add in1 in2 len) = length in1.
Proof. unfold Add. apply (for_loop_update_length (fun n x => f_add x (in2 !!! n))). Qed.

Lemma Sub_length (l : list F) (s : F) (len : nat) : length (Sub l s len) = length l.
Proof. unfold Sub. apply (for_loop_update_length (fun _ x => f_sub x s)). Qed.

Lemma Div_length (l : list F) (d : F) (len : nat) : length (Div l d len) = length l.
Proof. unfold Div. apply (for_loop_update_length (fun _ x => f_div x d)). Qed.

Lemma Mean_eq (l : list F) (len : nat) :
  len <= length l ->
  Mean l len = f_div (fold_left f_add (take len l) f_zero) (f_of_size len).
Proof. intros Hlen. unfold Mean. by rewrite for_loop_accumulate. Qed.

Lemma Rms_eq (l : list F) (len : nat) :
  len <= length l ->
  Rms l len = f_sqrt (fold_left (fun acc x => f_add acc (f_mul x x)) (take len l) f_zero).
Proof.
  intros Hlen. unfold Rms.
  by rewrite (for_loop_accumulate (fun acc x => f_add acc (f_mul x x))).
Qed.

Lemma FilterPolyphase_length (x y win : list F) (p len : nat) :
  length (FilterPolyphase x y win p len).1 = length x
  /\ length (FilterPolyphase x y win p len).2 = length y.
Proof.
  unfold FilterPolyphase. simpl. split.
  - apply (for_loop_update_length (fun n v => f_mul v (win !!! n))).
  - apply (for_loop_ind (fun _ b => length b = length y)).
    + apply (for_loop_update_length (fun _ _ => f_zero)).
    + intros n s _ Hs. by rewrite Add_length.
Qed.

(** The chain of [Preprocess], step by step: nothing tests [rms]. *)
Lemma Preprocess_eq (sig aux win : list F) :
  let folded := (FilterPolyphase sig aux win cPolyTaps cSiglen).2 in
  let centred := Sub folded (Mean folded mFiltSiglen) mFiltSiglen in
  (Preprocess sig aux win).2 = Div centred (Rms centred mFiltSiglen) mFiltSiglen.
Proof. unfold Preprocess. by destruct (FilterPolyphase _ _ _ _ _). Qed.

Lemma take_update_prefix (g : F -> F) (len : nat) (l : list F) :
  len <= length l ->
  take len ((g <$> take len l) ++ drop len l) = g <$> take len l.
Proof.
  intros Hlen. rewrite take_app_le by (rewrite length_fmap, length_take; lia).
  apply take_ge. rewrite length_fmap, length_take. lia.
Qed.

End KernelFacts.

(** *** Normalisation in binary32 *)

Section NormaliseBinary32.

(** Division by a zero never gives back a number: the quotient is NaN or
    an infinity. *)
Lemma div_by_zero (x d : float) :
  F32.eqb d F32.zero = true ->
  F32.div x d = S754_nan \/ exists s, F32.div x d = S754_infinity s.
Proof.
  destruct d as [s| | |s m e]; try (destruct s); try discriminate; intros _;
    destruct x as [sx|sx| |sx mx ex]; simpl; eauto.
Qed.

(** C1, as amended.  In the preprocessing of a candidate pass, after the
    polyphase fold and the removal of the mean, each of the [S/P = 256]
    elements of the working buffer is divided by [rms], whatever the value
    of [rms]: there is no test for zero.  When [rms] is zero every one of
    the 256 elements becomes NaN or an infinity. *)
Theorem Preprocess_divides_by_rms (sig aux win : list float) :
  length aux = cSiglen ->
  let folded := (FilterPolyphase sig aux win cPolyTaps cSiglen).2 in
  let centred := Sub folded (Mean folded mFiltSiglen) mFiltSiglen in
  let rms := Rms centred mFiltSiglen in
  let aux' := (Preprocess sig aux win).2 in
  mFiltSiglen = 256
  /\ (forall j, j < mFiltSiglen ->
        exists x, centred !! j = Some x /\ aux' !! j = Some (F32.div x rms))
  /\ (forall j, mFiltSiglen <= j -> aux' !! j = centred !! j)
  /\ (F32.eqb rms F32.zero = true ->
      forall j, j < mFiltSiglen ->
        aux' !! j = Some S754_nan \/ exists s, aux' !! j = Some (S754_infinity s)).
Proof.
  intros Hlen folded centred rms aux'.
  assert (length centred = cSiglen) as Hc.
  { subst centred folded. rewrite Sub_length.
    by rewrite (proj2 (FilterPolyphase_length _ _ _ _ _)). }
  assert (mFiltSiglen <= cSiglen) as Hle by (vm_compute; lia).
  assert (forall j, j < mFiltSiglen ->
            exists x, centred !! j = Some x /\ aux' !! j = Some (F32.div x rms)) as Hdiv.
  { intros j Hj. subst aux'. rewrite Preprocess_eq. fold folded centred rms.
    destruct (lookup_lt_is_Some_2 centred j) as [x Hx]; [lia|].
    exists x. split; [done|]. rewrite Div_eq.
    rewrite lookup_app_l by (rewrite length_fmap, length_take; lia).
    by rewrite list_lookup_fmap, lookup_take_lt, Hx by lia. }
  split; [done|]. split; [done|]. split.
  - intros j Hj. subst aux'. rewrite Preprocess_eq. fold folded centred rms.
    rewrite Div_eq.
    rewrite lookup_app_r by (rewrite length_fmap, length_take; lia).
    rewrite length_fmap, length_take, lookup_drop. f_equal. lia.
  - intros Hz j Hj. destruct (Hdiv j Hj) as (x & _ & Hx).
    destruct (div_by_zero x rms Hz) as [E | [s E]]; rewrite E in Hx; eauto.
Qed.

Lemma Preprocess_divides_by_rms_witness :
  let sig := replicate cSiglen F32.zero in
  let aux := replicate cSiglen F32.zero in
  let win := replicate cSiglen F32.one in
  let folded := (FilterPolyphase sig aux win cPolyTaps cSiglen).2 in
  let centred := Sub folded (Mean folded mFiltSiglen) mFiltSiglen in
  length aux = cSiglen
  /\ exists x, centred !! 0 = Some x
      /\ (Preprocess sig aux win).2 !! 0 = Some (F32.div x (Rms centred mFiltSiglen)).
Proof.
  intros sig aux win. split; [reflexivity|].
  apply (proj1 (proj2 (Preprocess_divides_by_rms sig aux win eq_refl)) 0).
  vm_compute. lia.
Defined.

(** C1 as stated fails: with a silent window the computed [rms] is zero,
    and the working buffer is not left as it was: its 256 elements, all
    zero before the division, are all NaN after it. *)
Lemma Preprocess_zero_rms_not_skipped :
  let sig := replicate cSiglen F32.zero in
  let aux := replicate cSiglen F32.zero in
  let win := replicate cSiglen F32.one in
  let folded := (FilterPolyphase sig aux win cPolyTaps cSiglen).2 in
  let centred := Sub folded (Mean folded mFiltSiglen) mFiltSiglen in
  Rms centred mFiltSiglen = F32.zero
  /\ take mFiltSiglen centred = replicate 256 F32.zero
  /\ take mFiltSiglen (Preprocess sig aux win).2 = replicate 256 S754_nan
  /\ (Preprocess sig aux win).2 <> centred.
Proof.
  intros sig aux win folded centred.
  assert (take mFiltSiglen (Preprocess sig aux win).2 = replicate 256 S754_nan) as Hn
    by (vm_compute; reflexivity).
  split; [vm_compute; reflexivity|]. split; [vm_compute; reflexivity|].
  split; [exact Hn|].
  intros Heq. rewrite Heq in Hn. vm_compute in Hn. discriminate Hn.
Qed.

End NormaliseBinary32.

(** ** The equalizer mask *)

Section EqualizerFacts.
Variable powf : float -> float -> float.

Lemma CalcEqualizerMask_lookup (buffer : list float) (len : nat) (j : nat) :
  len <= length buffer ->
  CalcEqualizerMask powf buffer len !! j
  = if decide (j < len / 2) then Some (mask_entry powf len j (buffer !!! j))
    else if decide (len - len / 2 <= j < len)
         then Some (mask_entry powf len (len - 1 - j) (buffer !!! (len - 1 - j)))
         else buffer !! j.
Proof.
  intros Hlen. unfold CalcEqualizerMask.
  assert (len / 2 + len / 2 <= len) as Hhalf.
  { pose proof (Nat.div_mod_eq len 2). lia. }
  set (body := fun (n : nat) (buffer : list float) => _).
  assert (forall k, k <= len / 2 ->
    let b := for_loop 0 k body buffer in
    length b = length buffer /\
    forall j, b !! j
      = if decide (j < k) then Some (mask_entry powf len j (buffer !!! j))
        else if decide (len - k <= j < len)
             then Some (mask_entry powf len (len - 1 - j) (buffer !!! (len - 1 - j)))
             else buffer !! j) as Hinv.
  { induction k as [|k IH]; intros Hk; simpl.
    - rewrite for_loop_nil. split; [done|]. intros i.
      by rewrite !decide_False by lia.
    - destruct IH as [IHlen IHlook]; [lia|].
      rewrite for_loop_S by lia.
      set (b := for_loop 0 k body buffer) in *.
      assert (b !!! k = buffer !!! k) as Hbk.
      { rewrite !list_lookup_total_alt, IHlook. by rewrite !decide_False by lia. }
      assert (body k b = <[len - k - 1 := mask_entry powf len k (buffer !!! k)]>
                           (<[k := mask_entry powf len k (buffer !!! k)]> b)) as ->.
      { unfold body, mask_entry. rewrite <- Hbk.
        destruct (F32.ltb _ cDitherF1), (F32.leb cDitherF1 _ && F32.ltb _ cDitherF2),
          (F32.leb cDitherF2 _);
          rewrite ?list_insert_insert_eq, ?list_lookup_total_insert_eq by lia;
          try done.
        by rewrite (list_insert_id b k (b !!! k))
          by (apply list_lookup_lookup_total_lt; lia). }
      split; [by rewrite !length_insert|].
      intros i.
      destruct (decide (i = len - k - 1)) as [->|Hne1].
      { rewrite list_lookup_insert_eq by (rewrite length_insert; lia).
        rewrite decide_False by lia. rewrite decide_True by lia.
        by replace (len - 1 - (len - k - 1)) with k by lia. }
      rewrite list_lookup_insert_ne by done.
      destruct (decide (i = k)) as [->|Hne2].
      { rewrite list_lookup_insert_eq by lia. by rewrite decide_True by lia. }
      rewrite list_lookup_insert_ne by done. rewrite IHlook.
      repeat case_decide; try lia; done. }
  destruct (Hinv (len / 2)) as [_ Hl]; [lia|]. apply Hl.
Qed.

(** For a mask of 256 entries the three tests select the indices 0..79,
    80..107 and 108..127 of the first half, one test per index. *)
Lemma mask_tests_256 (n : nat) :
  n < 128 ->
  mask_tests 256 n
  = (bool_decide (n < 80), bool_decide (80 <= n < 108), bool_decide (108 <= n)).
Proof.
  intros Hn.
  assert (forallb (fun n =>
            bool_decide (mask_tests 256 n
              = (bool_decide (n < 80), bool_decide (80 <= n < 108), bool_decide (108 <= n))))
            (seq 0 128) = true) as Hall by (vm_compute; reflexivity).
  rewrite forallb_forall in Hall.
  specialize (Hall n). rewrite bool_decide_eq_true in Hall.
  apply Hall. apply in_seq. lia.
Qed.

(** C7.  [CalcEqualizerMask] over a buffer of [N = 256] entries stores,
    at every index [n < N/2] with [f = n/N]: 1 when [f < F1 = 0.31f], the
    ramp [m * (f - F1) + 1] with [m = (A - 1) / (F2 - F1)] when
    [F1 <= f < F2 = 0.42f], and [A = powf(10, -12/20)] when [f >= F2];
    exactly one of the three cases applies.  The second half mirrors the
    first: entries [n] and [N - 1 - n] hold the same value for every
    [n < N], and compare equal with [==] unless that value is NaN. *)
Theorem CalcEqualizerMask_piecewise_mirrored (buffer : list float) :
  length buffer = mFiltSiglen ->
  let N := mFiltSiglen in
  let mask := CalcEqualizerMask powf buffer N in
  let A := powf (F32.of_Z 10) (F32.div (F32.opp (F32.of_Z 12)) (F32.of_Z 20)) in
  let m := F32.div (F32.sub A F32.one) (F32.sub cDitherF2 cDitherF1) in
  N = 256
  /\ length mask = N
  /\ (forall n, n < N / 2 ->
        let f := F32.div (F32.of_Z (Z.of_nat n)) (F32.of_Z (Z.of_nat N)) in
        (F32.ltb f cDitherF1 = true -> mask !! n = Some F32.one)
        /\ (F32.leb cDitherF1 f = true -> F32.ltb f cDitherF2 = true ->
            mask !! n = Some (F32.add (F32.mul m (F32.sub f cDitherF1)) F32.one))
        /\ (F32.leb cDitherF2 f = true -> mask !! n = Some A)
        /\ (F32.ltb f cDitherF1 = true /\ n < 80
            \/ (F32.leb cDitherF1 f = true /\ F32.ltb f cDitherF2 = true /\ 80 <= n < 108)
            \/ F32.leb cDitherF2 f = true /\ 108 <= n))
  /\ (forall n, n < N -> mask !! (N - 1 - n) = mask !! n)
  /\ (forall n x, n < N -> mask !! n = Some x -> F32.is_nan x = false ->
        exists y, mask !! (N - 1 - n) = Some y /\ F32.eqb x y = true).
Proof.
  intros Hlen N mask A m. subst N.
  assert (mFiltSiglen = 256) as HN by reflexivity.
  assert (forall j, mask !! j
            = if decide (j < 128) then Some (mask_entry powf 256 j (buffer !!! j))
              else if decide (128 <= j < 256)
                   then Some (mask_entry powf 256 (255 - j) (buffer !!! (255 - j)))
                   else buffer !! j) as Hmask.
  { intros j. subst mask. rewrite CalcEqualizerMask_lookup by (rewrite Hlen; lia).
    rewrite HN. reflexivity. }
  assert (forall n, n < 256 -> mask !! (255 - n) = mask !! n) as Hmirror.
  { intros n Hn. rewrite !Hmask.
    repeat case_decide; try lia; try done.
    by replace (255 - (255 - n)) with n by lia. }
  split; [done|]. split; [|split; [|split]].
  - subst mask. unfold CalcEqualizerMask.
    apply (for_loop_ind (fun _ b => length b = mFiltSiglen)); [done|].
    intros n b _ Hb.
    repeat match goal with |- context [if ?c then _ else _] => destruct c end;
      by rewrite !length_insert.
  - intros n Hn f. rewrite HN in Hn. change (256 / 2) with 128 in Hn.
    pose proof (mask_tests_256 n Hn) as Ht. unfold mask_tests in Ht.
    change (F32.div (F32.of_Z (Z.of_nat n)) (F32.of_Z (Z.of_nat 256))) with f in Ht.
    injection Ht as Ht1 Ht2 Ht3.
    rewrite Hmask, decide_True by lia. unfold mask_entry.
    change (F32.div (F32.of_Z (Z.of_nat n)) (F32.of_Z (Z.of_nat 256))) with f.
    symmetry in Ht1, Ht2, Ht3.
    destruct (F32.ltb f cDitherF1), (F32.leb cDitherF1 f), (F32.ltb f cDitherF2),
      (F32.leb cDitherF2 f); simpl in *;
      repeat match goal with
             | H : bool_decide _ = true |- _ => apply bool_decide_eq_true in H
             | H : bool_decide _ = false |- _ => apply bool_decide_eq_false in H
             end;
      try lia;
      (split; [|split; [|split]]); try done; try (intros; lia);
      try (left; split; [done|lia]);
      try (right; left; repeat split; try done; lia);
      try (right; right; split; [done|lia]).
  - intros n Hn. rewrite HN in *. apply (Hmirror n Hn).
  - intros n x Hn Hx Hnan. exists x. rewrite HN in *. split.
    + change (256 - 1 - n) with (255 - n). by rewrite Hmirror.
    + unfold F32.is_nan in Hnan. by apply negb_false_iff in Hnan.
Qed.

End EqualizerFacts.

Lemma CalcEqualizerMask_piecewise_mirrored_witness :
  let powf (x y : float) := F32.lit 2512 10000 in
  let mask := CalcEqualizerMask powf (replicate mFiltSiglen F32.zero) mFiltSiglen in
  mask !! 0 = Some F32.one
  /\ mask !! 120 = Some (F32.lit 2512 10000)
  /\ mask !! (mFiltSiglen - 1 - 120) = mask !! 120.
Proof.
  intros powf mask.
  destruct (CalcEqualizerMask_piecewise_mirrored powf (replicate mFiltSiglen F32.zero))
    as (_ & _ & Hn & Hmirror & _); [reflexivity|].
  split; [|split].
  - destruct (Hn 0) as (H1 & _); [vm_compute; lia|]. apply H1. vm_compute. reflexivity.
  - destruct (Hn 120) as (_ & _ & H3 & _); [vm_compute; lia|]. apply H3.
    vm_compute. reflexivity.
  - apply (Hmirror 120). vm_compute. lia.
Defined.

(** ** Comparison of floating-point numbers *)

Section Comparison.

Lemma SFcompare_finite_lt (s1 s2 : bool) (m1 m2 : positive) (e1 e2 : Z) :
  SFcompare (S754_finite s1 m1 e1) (S754_finite s2 m2 e2) = Some Lt <->
  match s1, s2 with
  | true, false => True
  | false, true => False
  | false, false => (e1 < e2 \/ e1 = e2 /\ Zpos m1 < Zpos m2)%Z
  | true, true => (e2 < e1 \/ e1 = e2 /\ Zpos m2 < Zpos m1)%Z
  end.
Proof.
  simpl. rewrite Pos.compare_cont_spec. simpl.
  destruct s1, s2; try (split; [done|intros []]); try done;
    destruct (Z.compare_spec e1 e2); destruct (Pos.compare_spec m1 m2);
    simpl; split; try done; try lia; intros; try discriminate.
Qed.

Lemma ltb_trans (a b c : float) :
  F32.ltb a b = true -> F32.ltb b c = true -> F32.ltb a c = true.
Proof.
  unfold F32.ltb, SFltb.
  destruct a as [sa|sa| |sa ma ea], b as [sb|sb| |sb mb eb], c as [sc|sc| |sc mc ec];
    try (simpl; repeat match goal with s : bool |- _ => destruct s end; simpl; congruence).
  destruct (SFcompare (S754_finite sa ma ea) (S754_finite sb mb eb)) as [[]|] eqn:E1; try done.
  destruct (SFcompare (S754_finite sb mb eb) (S754_finite sc mc ec)) as [[]|] eqn:E2; try done.
  intros _ _.
  apply SFcompare_finite_lt in E1, E2.
  assert (SFcompare (S754_finite sa ma ea) (S754_finite sc mc ec) = Some Lt) as ->; [|done].
  apply SFcompare_finite_lt. destruct sa, sb, sc; try done; lia.
Qed.

Lemma ltb_irrefl (a : float) : F32.ltb a a = false.
Proof.
  unfold F32.ltb, SFltb. destruct a as [s|s| |s m e]; try done; try (by destruct s).
  destruct (SFcompare _ _) as [[]|] eqn:E; try done.
  apply SFcompare_finite_lt in E. destruct s; lia.
Qed.

Lemma ltb_asym (a b : float) : F32.ltb a b = true -> F32.ltb b a = false.
Proof.
  intros Hab. destruct (F32.ltb b a) eqn:Hba; [|done].
  pose proof (ltb_trans a b a Hab Hba) as H. by rewrite ltb_irrefl in H.
Qed.

Lemma eqb_not_ltb (a b : float) : F32.eqb a b = true -> F32.ltb b a = false.
Proof.
  unfold F32.eqb, F32.ltb, SFeqb, SFltb.
  destruct a as [sa|sa| |sa ma ea], b as [sb|sb| |sb mb eb];
    try (simpl; repeat match goal with s : bool |- _ => destruct s end; simpl; congruence).
  destruct (SFcompare (S754_finite sb mb eb) (S754_finite sa ma ea)) as [[]|] eqn:E; try done.
  apply SFcompare_finite_lt in E. intros H. exfalso. revert H.
  simpl. rewrite Pos.compare_cont_spec. simpl.
  destruct sa, sb; try done;
    destruct (Z.compare_spec ea eb); destruct (Pos.compare_spec ma mb); simpl; try done; lia.
Qed.

Lemma eqb_refl_not_nan (x : float) : F32.is_nan x = false <-> x <> S754_nan.
Proof.
  unfold F32.is_nan, F32.eqb, SFeqb. destruct x as [s|s| |s m e]; simpl; try (by destruct s).
  - done.
  - rewrite Pos.compare_cont_spec. simpl.
    destruct s; rewrite Z.compare_refl, ?Pos.compare_refl; done.
Qed.

End Comparison.

(** ** The decision rule *)

Section MaxFacts.

(** [-FLT_MAX], the initial value of [max]. *)
#[local] Abbreviation NEG := (F32.opp F32.FLT_MAX).

(** What [Max] returns: no element of the array exceeds the returned
    maximum; and either some element exceeds [-FLT_MAX], and then the
    maximum is the element at the returned index, or none does, and then
    the result is [-FLT_MAX] with index 0. *)
Lemma Max_spec (in_ : list float) (len : nat) :
  let max := (Max in_ len).1 in
  let maxidx := (Max in_ len).2 in
  (forall j, j < len -> F32.ltb max (in_ !!! j) = false)
  /\ ((max = NEG /\ maxidx = 0)
      \/ (maxidx < len /\ max = in_ !!! maxidx /\ F32.ltb NEG max = true)).
Proof.
  unfold Max.
  apply (for_loop_ind (fun n (s : float * nat) =>
    (forall j, j < n -> F32.ltb s.1 (in_ !!! j) = false)
    /\ ((s.1 = NEG /\ s.2 = 0)
        \/ (s.2 < n /\ s.1 = in_ !!! s.2 /\ F32.ltb NEG s.1 = true)))).
  - simpl. split; [intros j Hj; lia|]. by left.
  - intros n [max idx] Hn [Hall Hcase]. simpl in *.
    destruct (F32.ltb max (in_ !!! n)) eqn:Hlt; simpl.
    + split.
      * intros j Hj. destruct (decide (j = n)) as [->|Hne]; [apply ltb_irrefl|].
        destruct (F32.ltb (in_ !!! n) (in_ !!! j)) eqn:Hj2; [|done].
        rewrite <- (Hall j) by lia. symmetry. by apply (ltb_trans _ (in_ !!! n)).
      * right. split; [lia|]. split; [done|].
        destruct Hcase as [[-> _]|(_ & _ & Hneg)]; [done|].
        by apply (ltb_trans _ max).
    + split.
      * intros j Hj. destruct (decide (j = n)) as [->|Hne]; [done|]. apply Hall. lia.
      * destruct Hcase as [?|(? & ? & ?)]; [by left|]. right. split; [lia|done].
Qed.

Lemma Max_degenerate (in_ : list float) (len : nat) :
  (forall j, j < len -> F32.ltb NEG (in_ !!! j) = false) ->
  Max in_ len = (NEG, 0).
Proof.
  intros Hall. destruct (Max_spec in_ len) as [_ [[H1 H2]|(Hidx & Hmax & Hneg)]].
  - by destruct (Max in_ len); simpl in *; subst.
  - rewrite Hmax, Hall in Hneg by done. done.
Qed.

Lemma Max_attained (in_ : list float) (len j : nat) :
  j < len -> F32.ltb NEG (in_ !!! j) = true ->
  (Max in_ len).2 < len
  /\ (Max in_ len).1 = in_ !!! (Max in_ len).2
  /\ F32.ltb NEG (Max in_ len).1 = true.
Proof.
  intros Hj Hlt. destruct (Max_spec in_ len) as [Hall [[H1 H2]|H]]; [|done].
  rewrite <- H1, Hall in Hlt by done. done.
Qed.

Lemma Max_index (in_ : list float) (len : nat) :
  0 < len -> (Max in_ len).2 < len.
Proof.
  intros Hlen. destruct (Max_spec in_ len) as [_ [[_ ->]|[H _]]]; done.
Qed.

(** The last statements of [Run], for the ten classes. *)
Lemma Run_result_spec (c : FormatClassifier) :
  mClasses c = classes ->
  let mono := mMonoFeat c in
  let stereo := mStereoFeat c in
  let monoMax := (Max mono 10).1 in
  let midx := (Max mono 10).2 in
  let stereoMax := (Max stereo 10).1 in
  let sidx := (Max stereo 10).2 in
  let c' := Run_result c in
  (midx < 10 /\ sidx < 10)
  /\ (F32.ltb stereoMax monoMax = true ->
      mResultChannels c' = 1%Z /\ mResultFormat c' = classes !!! midx)
  /\ (F32.ltb stereoMax monoMax = false ->
      mResultChannels c' = 2%Z /\ mResultFormat c' = classes !!! sidx)
  /\ (F32.eqb monoMax stereoMax = true -> mResultChannels c' = 2%Z)
  /\ ((exists j, j < 10 /\ F32.ltb NEG (stereo !!! j) = true) ->
      F32.ltb stereoMax monoMax = F32.ltb (stereo !!! sidx) (mono !!! midx))
  /\ mResultFormat c' ∈ classes
  /\ (mResultChannels c' = 1%Z \/ mResultChannels c' = 2%Z).
Proof.
  intros Hcls mono stereo monoMax midx stereoMax sidx c'.
  assert (midx < 10) as Hm by (apply Max_index; lia).
  assert (sidx < 10) as Hs by (apply Max_index; lia).
  assert (forall i, i < 10 -> classes !!! i ∈ classes) as Hin.
  { intros i Hi. apply list_elem_of_lookup_total_2. simpl. lia. }
  assert (c' = if F32.ltb stereoMax monoMax
               then set_mResultFormat (classes !!! midx) (set_mResultChannels 1%Z c)
               else set_mResultFormat (classes !!! sidx) (set_mResultChannels 2%Z c)) as Hc'.
  { subst c' monoMax midx stereoMax sidx mono stereo. unfold Run_result.
    rewrite Hcls. simpl length.
    destruct (Max (mMonoFeat c) 10), (Max (mStereoFeat c) 10). done. }
  split; [done|]. split; [|split; [|split; [|split; [|split]]]].
  - intros Hlt. rewrite Hc', Hlt. done.
  - intros Hlt. rewrite Hc', Hlt. done.
  - intros Heq. apply eqb_not_ltb in Heq. rewrite Hc', Heq. done.
  - intros (j & Hj & Hlt).
    destruct (Max_attained stereo 10 j Hj Hlt) as (_ & Hsmax & Hsneg).
    fold stereoMax sidx in Hsmax, Hsneg. rewrite <- Hsmax.
    destruct (Max_spec mono 10) as [Hall [[H1 H2]|(_ & H1 & _)]];
      fold monoMax midx in Hall, H1; [|by rewrite <- H1].
    fold midx in H2. rewrite H1, H2, (ltb_asym _ _ Hsneg). symmetry.
    destruct (F32.ltb stereoMax (mono !!! 0)) eqn:E; [|done].
    pose proof (ltb_trans _ _ _ Hsneg E) as Ht.
    rewrite <- H1, Hall in Ht by lia. done.
  - rewrite Hc'. destruct (F32.ltb stereoMax monoMax); simpl; by apply Hin.
  - rewrite Hc'. destruct (F32.ltb stereoMax monoMax); simpl; auto.
Qed.

End MaxFacts.

(** ** Reading samples *)

Module ReadFacts.
Import Reader SwapFacts ReaderFacts.

Lemma div_mod_group (W n j : nat) :
  n * W <= j < n * W + W -> j / W = n /\ j mod W = j - n * W.
Proof.
  intros Hj. assert (0 < W) by lia.
  assert (j = W * n + (j - n * W)) as Hd by lia.
  split.
  - symmetry. apply (Nat.div_unique j W n (j - n * W)); lia.
  - symmetry. apply (Nat.mod_unique j W n (j - n * W)); lia.
Qed.

Lemma div_lt_group (W n j : nat) : 0 < W -> j < n * W -> j / W < n.
Proof. intros HW Hj. apply Nat.Div0.div_lt_upper_bound. lia. Qed.

Lemma fread_lookup (buf : list byte) (off size count : nat) (f : FILE) (j : nat) :
  (fread buf off size count f).1.1 !! j
  = if decide (off <= j < off + size * count /\ j < length buf
               /\ fpos f + (j - off) < length (fdata f))
    then fdata f !! (fpos f + (j - off)) else buf !! j.
Proof.
  unfold fread. simpl.
  set (got := take (size * count) (drop (fpos f) (fdata f))).
  assert (length got = (size * count) `min` (length (fdata f) - fpos f)) as Hgot.
  { subst got. by rewrite length_take, length_drop. }
  destruct (decide (off <= j < off + length got /\ j < length buf)) as [Hin|Hout].
  - rewrite list_lookup_inserts by lia. rewrite decide_True by lia.
    subst got. rewrite lookup_take_lt by lia. by rewrite lookup_drop.
  - rewrite decide_False by lia.
    destruct (decide (j < off)); [by rewrite list_lookup_inserts_lt|].
    destruct (decide (j < length buf)).
    + rewrite list_lookup_inserts_ge by lia. done.
    + rewrite !lookup_ge_None_2; [done|lia|rewrite length_inserts; lia].
Qed.

Lemma fread_rest (buf : list byte) (off size count : nat) (f : FILE) :
  let got := (size * count) `min` (length (fdata f) - fpos f) in
  length (fread buf off size count f).1.1 = length buf
  /\ (fread buf off size count f).1.2 = got / size
  /\ (fread buf off size count f).2 = mkFILE (fdata f) (fpos f + got).
Proof.
  unfold fread. simpl. rewrite length_inserts, length_take, length_drop. done.
Qed.

(** What [Read] does, for a positive width and a stride of at least 1. *)
Lemma Read_spec (buf : list byte) (W len s : nat) (f : FILE) :
  0 < W -> 1 <= s ->
  let L := length (fdata f) in
  let p := fpos f in
  let r := Read buf W len s f in
  length r.1.1 = length buf
  /\ fdata r.2 = fdata f
  /\ (forall j, r.1.1 !! j
        = if decide (j < len * W /\ j < length buf /\ file_index p W s j < L)
          then fdata f !! file_index p W s j else buf !! j)
  /\ (read_full L p W s len -> r.1.2 = len /\ fpos r.2 = p + len * (s * W))
  /\ (~ read_full L p W s len -> r.1.2 < len /\ L <= fpos r.2).
Proof.
  intros HW Hs L p r. subst r. unfold Read.
  destruct (decide (1 < s)) as [Hstride|Hstride].
  - (* scattered read *)
    set (body := fun (n : nat) (st : list byte * nat * FILE) => _).
    assert (forall n,
      let r := for_loop 0 n body (buf, 0, f) in
      length r.1.1 = length buf
      /\ fdata r.2 = fdata f
      /\ (forall j, r.1.1 !! j
            = if decide (j < n * W /\ j < length buf /\ file_index p W s j < L)
              then fdata f !! file_index p W s j else buf !! j)
      /\ (read_full L p W s n -> r.1.2 = n /\ fpos r.2 = p + n * (s * W))
      /\ (~ read_full L p W s n -> r.1.2 < n /\ L <= fpos r.2)) as Hinv; [|apply Hinv].
    induction n as [|n IH]; cbv zeta in *.
    + rewrite for_loop_nil. cbn [fst snd]. split; [done|]. split; [done|]. split; [|split].
      * intros j. by rewrite decide_False by lia.
      * intros _. lia.
      * intros Hn. exfalso. apply Hn. by left.
    + rewrite for_loop_S by lia.
      destruct (for_loop 0 n body (buf, 0, f)) as [[b a] g] eqn:Eloop. cbn [fst snd] in IH.
      destruct IH as (IHlen & IHdata & IHlook & IHfull & IHshort).
      assert (body n (b, a, g)
              = ((fread b (n * W) W 1 g).1.1, a + (fread b (n * W) W 1 g).1.2,
                 fseek_cur ((s - 1) * W) (fread b (n * W) W 1 g).2)) as ->.
      { unfold body. by destruct (fread b (n * W) W 1 g) as [[? ?] ?]. }
      pose proof (fread_lookup b (n * W) W 1 g) as Hlook.
      destruct (fread_rest b (n * W) W 1 g) as (Hl & Ha & Hf).
      rewrite Ha, Hf. clear Ha Hf.
      set (b' := (fread b (n * W) W 1 g).1.1) in *. clearbody b'.
      rewrite IHdata in *. fold L in Hlook |- *.
      unfold fseek_cur. cbn [fst snd fdata fpos].
      rewrite Nat.mul_1_r in *.
      destruct (decide (read_full L p W s n)) as [Hfull|Hnfull].
      * (* every earlier sample was complete *)
        destruct (IHfull Hfull) as [-> Hpos]. rewrite Hpos in *.
        split; [lia|]. split; [done|]. split; [|split].
        -- intros j. rewrite Hlook, IHlook.
           destruct (decide (n * W <= j < n * W + W)) as [Hj|Hj].
           ++ destruct (div_mod_group W n j Hj) as [Hd Hm].
              unfold file_index. rewrite Hd, Hm.
              repeat case_decide; try lia; try done; f_equal; lia.
           ++ repeat case_decide; try lia; done.
        -- intros Hfull'. destruct Hfull' as [?|Hfull']; [lia|].
           replace (S n - 1) with n in Hfull' by lia.
           rewrite Nat.min_l by lia. rewrite Nat.div_same by lia. lia.
        -- intros Hnf. assert (L < p + n * (s * W) + W) as Hlt.
           { destruct (decide (p + n * (s * W) + W <= L)); [|lia].
             exfalso. apply Hnf. right. replace (S n - 1) with n by lia. lia. }
           assert (W `min` (L - (p + n * (s * W))) < W) as Hmin by lia.
           rewrite Nat.div_small by lia. split; [lia|].
           assert (W <= (s - 1) * W) by nia. lia.
      * (* an earlier sample was incomplete *)
        destruct (IHshort Hnfull) as [Ha Hpos].
        assert (0 < n /\ L < p + (n - 1) * (s * W) + W) as [Hn0 Hlt].
        { unfold read_full in Hnfull. lia. }
        assert (L <= p + n * (s * W)) as Hge.
        { assert (n * (s * W) = (n - 1) * (s * W) + s * W) as -> by nia.
          assert (W <= s * W) by nia. lia. }
        rewrite (Nat.min_r _ (L - fpos g)) by lia.
        replace (L - fpos g) with 0 by lia. rewrite Nat.Div0.div_0_l by lia.
        split; [lia|]. split; [done|]. split; [|split].
        -- intros j. rewrite Hlook, IHlook.
           destruct (decide (n * W <= j < n * W + W)) as [Hj|Hj].
           ++ destruct (div_mod_group W n j Hj) as [Hd Hm].
              unfold file_index. rewrite Hd, Hm.
              repeat case_decide; try lia; done.
           ++ repeat case_decide; try lia; done.
        -- intros [?|Hfull']; [lia|]. exfalso. apply Hnfull. right.
           replace (S n - 1) with n in Hfull' by lia.
           assert (n * (s * W) = (n - 1) * (s * W) + s * W) as Heq by nia. lia.
        -- intros _. generalize ((s - 1) * W). intros x. lia.
  - (* linear read *)
    assert (s = 1) as -> by lia.
    pose proof (fread_lookup buf 0 W len f) as Hlook.
    destruct (fread_rest buf 0 W len f) as (Hl & Ha & Hf).
    destruct (fread buf 0 W len f) as [[b' k] g']. cbn [fst snd] in *.
    subst g' k. fold L p in Hlook |- *. cbn [fst snd fdata fpos].
    split; [done|]. split; [done|]. split; [|split].
    + intros j. rewrite Hlook. unfold file_index.
      rewrite Nat.mul_1_l.
      assert (j / W * W + j mod W = j) as Hj.
      { pose proof (Nat.div_mod_eq j W). lia. }
      replace (p + j / W * W + j mod W) with (p + j) by lia.
      replace (p + (j - 0)) with (p + j) by lia.
      repeat case_decide; try lia; done.
    + intros [->|Hfull].
      * rewrite Nat.mul_0_r. simpl. rewrite Nat.Div0.div_0_l by lia. lia.
      * assert (W * len <= L - p) by nia.
        rewrite Nat.min_l by lia. rewrite Nat.mul_comm, Nat.div_mul by lia. lia.
    + intros Hnf. assert (0 < len /\ L < p + (len - 1) * (1 * W) + W) as [Hl0 Hlt].
      { unfold read_full in Hnf. lia. }
      assert (L - p < W * len) as Hmin by nia.
      rewrite Nat.min_r by lia. split; [|lia].
      apply Nat.Div0.div_lt_upper_bound. lia.
Qed.

Lemma width_pos (fmt : FormatT) : 0 < width fmt <= 8.
Proof. destruct fmt; simpl; lia. Qed.

Lemma file_index_full (L p W s len i : nat) :
  0 < W -> 1 <= s -> read_full L p W s len -> i < len * W ->
  file_index p W s i < L.
Proof.
  intros HW Hs [->|Hfull] Hi; [lia|]. unfold file_index.
  assert (i / W <= len - 1) as Hq.
  { pose proof (div_lt_group W len i HW Hi). lia. }
  assert (i mod W < W) as Hr by (apply Nat.mod_upper_bound; lia).
  assert (i / W * (s * W) <= (len - 1) * (s * W)) by (apply Nat.mul_le_mono_r; lia).
  lia.
Qed.

Lemma swap_index_bound (swap : bool) (W len j : nat) :
  0 < W -> (swap_index swap W len j < len * W <-> j < len * W).
Proof.
  intros HW. unfold swap_index.
  destruct swap; simpl; [|done]. case_bool_decide; [|done].
  split; [done|]. intros _. by apply mirror_bound.
Qed.

Lemma swap_index_group (swap : bool) (W len n j : nat) :
  n * W <= j < n * W + W ->
  n * W <= swap_index swap W len j < n * W + W.
Proof.
  intros Hj. unfold swap_index.
  destruct (swap && bool_decide (j < len * W)); [|done].
  replace j with (n * W + (j - n * W)) by lia.
  rewrite mirror_group by lia. lia.
Qed.

(** What [ReadSamples] does, for a stride of at least 1 and a buffer that
    holds [len] samples. *)
Lemma ReadSamples_spec (rd : MultiFormatReader) (buf : list byte) (len s : nat)
    (fmt : FormatT) (end_ : EndiannessT) :
  1 <= s -> len * width fmt <= length buf ->
  let W := width fmt in
  let L := length (fdata (mpFid rd)) in
  let p := fpos (mpFid rd) in
  let swap := bool_decide (mEnd rd <> end_) in
  exists b a f',
    ReadSamples rd buf len s fmt end_ = Ok (b, a, with_fid rd f')
    /\ length b = length buf
    /\ fdata f' = fdata (mpFid rd)
    /\ (forall j, b !! j
          = let i := swap_index swap W len j in
            if decide (i < len * W /\ file_index p W s i < L)
            then fdata (mpFid rd) !! file_index p W s i else buf !! i)
    /\ (read_full L p W s len -> a = len /\ fpos f' = p + len * (s * W))
    /\ (~ read_full L p W s len -> a < len /\ L <= fpos f').
Proof.
  intros Hs Hlen W L p swap. subst L p.
  pose proof (width_pos fmt) as HW. fold W in HW.
  rewrite ReadSamples_eq. fold W swap.
  destruct (Read_spec buf W len s (mpFid rd)) as (Hl & Hd & Hlook & Hfull & Hshort);
    [lia|done|].
  destruct (Read buf W len s (mpFid rd)) as [[b a] f']. cbn [fst snd] in *.
  eexists _, a, f'. split; [reflexivity|].
  split; [|split; [done|split; [|done]]].
  - destruct swap; [by rewrite swap_loop_length|done].
  - intros j. cbv zeta. unfold swap_index.
    destruct swap; simpl.
    + rewrite swap_loop_lookup by lia.
      case_bool_decide as Hj.
      * rewrite decide_True by done. rewrite Hlook.
        assert (mirror W j < len * W) as Hm by (apply mirror_bound; [lia|done]).
        repeat case_decide; try lia; done.
      * rewrite decide_False by done. rewrite Hlook.
        repeat case_decide; try lia; done.
    + rewrite Hlook. repeat case_decide; try lia; done.
Qed.

Lemma load_ext (host : EndiannessT) (raw1 raw2 : list byte) (W n : nat) :
  (forall j, n * W <= j < n * W + W -> raw1 !! j = raw2 !! j) ->
  load host raw1 W n = load host raw2 W n.
Proof.
  intros Hext. unfold load.
  assert (take W (drop (n * W) raw1) = take W (drop (n * W) raw2)) as ->; [|done].
  apply list_eq. intros i.
  destruct (decide (i < W)).
  - rewrite !lookup_take_lt, !lookup_drop by done. apply Hext. lia.
  - by rewrite !lookup_take_ge by lia.
Qed.

(** A converted sample depends only on the bytes of its own group. *)
Lemma cast_sample_ext (host : EndiannessT) (fmt : FormatT) (raw1 raw2 : list byte) (n : nat) :
  (forall j, n * width fmt <= j < n * width fmt + width fmt -> raw1 !! j = raw2 !! j) ->
  cast_sample host fmt raw1 n = cast_sample host fmt raw2 n.
Proof.
  intros Hext. unfold cast_sample.
  destruct fmt; simpl in Hext; by rewrite (load_ext host raw1 raw2 _ n Hext).
Qed.

Lemma ToFloat_eq (elem : nat -> float) (out : list float) (len : nat) :
  length out = len -> ToFloat elem out len = elem <$> seq 0 len.
Proof.
  intros Hlen. unfold ToFloat. apply list_eq. intros j.
  pose proof (for_loop_store elem 0 len out j) as Hst. cbn [Nat.add] in Hst.
  rewrite Hst. clear Hst.
  rewrite list_lookup_fmap.
  destruct (decide (j < len)).
  - rewrite decide_True by lia. rewrite lookup_seq_lt by done. simpl.
    do 2 f_equal. lia.
  - rewrite decide_False by lia. rewrite lookup_seq_ge by lia.
    apply lookup_ge_None_2. lia.
Qed.

Lemma ToFloat_length (elem : nat -> float) (out : list float) (len : nat) :
  length (ToFloat elem out len) = length out.
Proof. unfold ToFloat. apply (for_loop_store_length elem 0). Qed.

End ReadFacts.

(** ** Integration of windows: [ReadSignal] *)

Import Reader SwapFacts ReaderFacts ReadFacts.

Section WhileLoops.
Context {S : Type}.

(** An invariant rule for [while_loop]: with an invariant and a measure
    that the body decreases and the fuel covers, the loop ends normally,
    in a state where the invariant holds and the condition fails. *)
Lemma while_loop_inv (Inv : S -> Prop) (meas : S -> nat) (fuel : nat)
    (cond : S -> bool) (body : S -> result S) (s : S) :
  Inv s -> meas s <= fuel ->
  (forall s, Inv s -> cond s = true ->
     exists s', body s = Ok s' /\ Inv s' /\ meas s' < meas s) ->
  exists s', while_loop fuel cond body s = Ok s' /\ Inv s' /\ cond s' = false.
Proof.
  intros HI Hm Hstep. revert s HI Hm.
  induction fuel as [|fuel IH]; intros s HI Hm; simpl.
  - destruct (cond s) eqn:Hc; [|by exists s].
    destruct (Hstep s HI Hc) as (s' & _ & _ & Hlt). lia.
  - destruct (cond s) eqn:Hc; [|by exists s].
    destruct (Hstep s HI Hc) as (s' & -> & HI' & Hlt). simpl.
    apply IH; [done|lia].
Qed.

End WhileLoops.

Lemma same_frame_refl (c : FormatClassifier) : same_frame c c.
Proof. by repeat split. Qed.

Lemma same_frame_trans (c0 c1 c2 : FormatClassifier) :
  same_frame c0 c1 -> same_frame c1 c2 -> same_frame c0 c2.
Proof.
  unfold same_frame, same_members. intros H1 H2.
  repeat match goal with H : _ /\ _ |- _ => destruct H end.
  repeat split; congruence.
Qed.

Lemma samples_before_S (k : nat) :
  samples_before (S k) = samples_before k + cSiglen + (if decide (k = 0) then 0 else k + 1).
Proof. done. Qed.

Lemma samples_before_mono (k : nat) : samples_before k + cSiglen <= samples_before (S k).
Proof. rewrite samples_before_S. lia. Qed.

Arguments cSiglen : simpl never.
Arguments cNumInts : simpl never.
Arguments samples_before : simpl never.

Lemma cSiglen_pos : 0 < cSiglen.
Proof. unfold cSiglen. lia. Qed.

(** A complete window further in the file implies a complete window
    before it. *)
Lemma window_full_S (c : FormatClassifier) (fmt : FormatClassT) (s k : nat) :
  1 <= s -> window_full c fmt s (S k) -> window_full c fmt s k.
Proof.
  unfold window_full, read_full, window_offset. intros Hs [H|H].
  - pose proof cSiglen_pos. lia.
  - right. pose proof (samples_before_mono k) as Hm.
    assert (samples_before k * (s * width (format fmt))
            <= samples_before (S k) * (s * width (format fmt))) as Hle
      by (apply Nat.mul_le_mono_r; lia).
    lia.
Qed.

Lemma bind_Ok {A B : Type} (a : A) (k : A -> result B) : (Ok a ≫= k) = k a.
Proof. reflexivity. Qed.

Ltac simpl_members :=
  cbn [mClasses mReader mMeter mSigBuffer mAuxBuffer mWinBuffer mEqBuffer mRawBuffer
       mSignalStart mPLo mPHiM mPHiS mMonoFeat mStereoFeat mResultFormat mResultChannels
       set_mReader set_mMeter set_mSigBuffer set_mAuxBuffer set_mRawBuffer set_mSignalStart
       set_mPLo set_mPHiM set_mPHiS set_mMonoFeat set_mStereoFeat set_mResultFormat
       set_mResultChannels mpFid mEnd with_fid fdata fpos fst snd] in *.

Ltac monad_simpl := repeat (rewrite bind_Ok; cbv beta iota); simpl_members.

Lemma window_offset_0 (c : FormatClassifier) (fmt : FormatClassT) (s : nat) :
  window_offset c fmt s 0 = mSignalStart c.
Proof. unfold window_offset. change (samples_before 0) with 0. lia. Qed.

Lemma window_offset_S (c : FormatClassifier) (fmt : FormatClassT) (s k : nat) :
  window_offset c fmt s (S k)
  = window_offset c fmt s k
    + (cSiglen + (if decide (k = 0) then 0 else k + 1)) * (s * width (format fmt)).
Proof. unfold window_offset. rewrite samples_before_S. nia. Qed.

Section ReadAt.
Variables (c0 : FormatClassifier) (fmt : FormatClassT) (s : nat).
Hypothesis Hs : 1 <= s.
Hypothesis Hraw : cSiglen * 8 <= length (mRawBuffer c0).

Let W := width (format fmt).
Let L := length (fdata (mpFid (mReader c0))).
Let host := mEnd (mReader c0).

(** Reading one window of [cSiglen] samples when the reader is at offset
    [o], or at or past the end of the file with [o] past the end: the
    read is complete exactly when the file holds the whole window at
    [o], and then the converted samples are those of [window_at], whatever
    the raw buffer held before. *)
Lemma read_at (o : nat) (c : FormatClassifier) :
  same_frame c0 c ->
  fpos (mpFid (mReader c)) = o \/ (L <= fpos (mpFid (mReader c)) /\ L < o) ->
  exists raw a rd,
    ReadSamples (mReader c) (mRawBuffer c) cSiglen s (format fmt) (endian fmt)
      = Ok (raw, a, rd)
    /\ length raw = length (mRawBuffer c0)
    /\ fdata (mpFid rd) = fdata (mpFid (mReader c0))
    /\ mEnd rd = host
    /\ (read_full L o W s cSiglen ->
        a = cSiglen
        /\ fpos (mpFid rd) = o + cSiglen * (s * W)
        /\ cast_sample host (format fmt) raw <$> seq 0 cSiglen
           = window_at c0 fmt s o)
    /\ (~ read_full L o W s cSiglen -> a <> cSiglen /\ L <= fpos (mpFid rd))
    /\ (forall j, cSiglen * W <= j -> raw !! j = mRawBuffer c !! j).
Proof.
  intros (_ & Hdata & Hend & Hlraw & _ & _) Hat.
  pose proof (width_pos (format fmt)) as HW. fold W in HW.
  pose proof cSiglen_pos as HS.
  destruct (ReadSamples_spec (mReader c) (mRawBuffer c) cSiglen s (format fmt) (endian fmt))
    as (b & a & f' & Heq & Hlb & Hfd & Hlook & Hfull & Hshort); [done| |].
  { fold W. rewrite Hlraw. nia. }
  fold W in Hlook, Hfull, Hshort. rewrite Hdata in Hlook, Hfull, Hshort, Hfd.
  fold L in Hlook, Hfull, Hshort.
  exists b, a, (with_fid (mReader c) f'). split; [done|].
  split; [congruence|]. split; [done|]. split; [done|]. split; [|split].
  - intros Hwf.
    assert (fpos (mpFid (mReader c)) = o) as Hpos.
    { destruct Hat as [?|[_ Hlt]]; [done|]. unfold read_full in Hwf. nia. }
    rewrite Hpos in *. destruct (Hfull Hwf) as [-> Hp]. split; [done|]. split; [done|].
    unfold window_at.
    destruct (ReadSamples_spec (ResetAt o (mReader c0)) (mRawBuffer c0) cSiglen s
                (format fmt) (endian fmt))
      as (b0 & a0 & f0 & Heq0 & Hlb0 & _ & Hlook0 & _); [done| |].
    { fold W. nia. }
    rewrite Heq0. fold host. simpl in Hlook0. fold W L in Hlook0.
    apply list_eq. intros n. rewrite !list_lookup_fmap.
    destruct (seq 0 cSiglen !! n) as [i|] eqn:Hn; [|done]. simpl. f_equal.
    apply lookup_seq in Hn as [-> Hi]. simpl.
    apply cast_sample_ext. fold W. intros j Hj.
    rewrite Hlook, Hlook0. rewrite Hend. fold host. cbv zeta.
    assert (j < cSiglen * W) as Hjl by nia.
    set (i := swap_index _ W cSiglen j).
    assert (i < cSiglen * W) as Hil by (by apply swap_index_bound; [lia|]).
    pose proof (file_index_full L o W s cSiglen i ltac:(lia) Hs Hwf Hil).
    by rewrite !decide_True by done.
  - intros Hnf.
    assert (~ read_full L (fpos (mpFid (mReader c))) W s cSiglen) as Hnf'.
    { destruct Hat as [->|[Hle Hlt]]; [done|]. unfold read_full. nia. }
    destruct (Hshort Hnf') as [Hlt Hle]. simpl. split; [lia|done].
  - intros j Hj. rewrite Hlook. cbv zeta. unfold swap_index.
    rewrite (bool_decide_eq_false_2 (j < cSiglen * W)) by lia.
    rewrite andb_false_r. by rewrite decide_False by lia.
Qed.

(** The file holds the whole window at [o] exactly when a read of one
    window at [o] returns [cSiglen]. *)
Lemma read_full_iff (o : nat) :
  read_full L o W s cSiglen
  <-> exists raw rd,
        ReadSamples (ResetAt o (mReader c0)) (mRawBuffer c0) cSiglen s
                    (format fmt) (endian fmt) = Ok (raw, cSiglen, rd).
Proof.
  destruct (read_at o (set_mReader (ResetAt o (mReader c0)) c0))
    as (raw & a & rd & Heq & _ & _ & _ & Hfull & Hshort & _);
    [by repeat split|by left|].
  change (mReader (set_mReader (ResetAt o (mReader c0)) c0))
    with (ResetAt o (mReader c0)) in Heq.
  change (mRawBuffer (set_mReader (ResetAt o (mReader c0)) c0))
    with (mRawBuffer c0) in Heq.
  split.
  - intros Hf. destruct (Hfull Hf) as (-> & _). eauto.
  - intros (raw' & rd' & Heq'). rewrite Heq in Heq'. injection Heq' as _ Ha _.
    destruct (decide (read_full L o W s cSiglen)) as [|Hnf]; [done|].
    by destruct (Hshort Hnf).
Qed.

(** The samples of a window that lie at or past the end of the file are
    conversions of what the raw buffer held before the read (swapped
    group-wise when the read swaps). *)
Lemma window_at_stale (o n : nat) :
  n < cSiglen -> L <= o + n * (s * W) ->
  let stale := if bool_decide (host <> endian fmt)
               then for_loop 0 cSiglen (SwapGroup W) (mRawBuffer c0)
               else mRawBuffer c0 in
  window_at c0 fmt s o !! n = Some (cast_sample host (format fmt) stale n).
Proof.
  intros Hn Hpast stale. unfold window_at.
  pose proof (width_pos (format fmt)) as HW. fold W in HW.
  destruct (ReadSamples_spec (ResetAt o (mReader c0)) (mRawBuffer c0) cSiglen s
              (format fmt) (endian fmt))
    as (b & a & f & Heq & Hlb & _ & Hlook & _); [done| |].
  { fold W. nia. }
  rewrite Heq. fold host. simpl in Hlook. fold W L host in Hlook.
  rewrite list_lookup_fmap, lookup_seq_lt by done. simpl. f_equal.
  apply cast_sample_ext. fold W. intros j Hj.
  rewrite Hlook. cbv zeta.
  pose proof (swap_index_group (bool_decide (host <> endian fmt)) W cSiglen n j Hj) as Hi.
  set (i := swap_index _ W cSiglen j) in *.
  destruct (div_mod_group W n i Hi) as [Hd Hm].
  rewrite decide_False by (unfold file_index; rewrite Hd; lia).
  subst stale i. unfold swap_index.
  destruct (bool_decide (host <> endian fmt)); simpl; [|done].
  assert (j < cSiglen * W) as Hjl by nia.
  rewrite bool_decide_eq_true_2 by done.
  rewrite swap_loop_lookup by (lia || nia). by rewrite decide_True.
Qed.

End ReadAt.

Section ReadSignalFacts.
Variables (c0 : FormatClassifier) (fmt : FormatClassT) (s : nat).
Hypothesis Hs : 1 <= s.
Hypothesis Hraw : cSiglen * 8 <= length (mRawBuffer c0).

Let W := width (format fmt).
Let L := length (fdata (mpFid (mReader c0))).
Let host := mEnd (mReader c0).
Let offset := window_offset c0 fmt s.
Let full := window_full c0 fmt s.
Let window (k : nat) := window_at c0 fmt s (offset k).
Hypothesis Hsig : length (mSigBuffer c0) = cSiglen.
Hypothesis Haux : length (mAuxBuffer c0) = cSiglen.

Lemma W_bounds : 0 < W <= 8.
Proof. apply width_pos. Qed.

Lemma offset_S (k : nat) :
  offset (S k) = offset k + (cSiglen + (if decide (k = 0) then 0 else k + 1)) * (s * W).
Proof. unfold offset, window_offset. rewrite samples_before_S. fold W. nia. Qed.

(** Reading one window. *)
Lemma read_window (k : nat) (c : FormatClassifier) :
  same_frame c0 c -> at_window c0 fmt s k c ->
  exists raw a rd,
    ReadSamples (mReader c) (mRawBuffer c) cSiglen s (format fmt) (endian fmt)
      = Ok (raw, a, rd)
    /\ length raw = length (mRawBuffer c0)
    /\ fdata (mpFid rd) = fdata (mpFid (mReader c0))
    /\ mEnd rd = host
    /\ (window_full c0 fmt s k ->
        a = cSiglen
        /\ fpos (mpFid rd) = offset k + cSiglen * (s * W)
        /\ cast_sample host (format fmt) raw <$> seq 0 cSiglen
           = window_at c0 fmt s (offset k))
    /\ (~ window_full c0 fmt s k -> a <> cSiglen).
Proof.
  intros Hframe Hat.
  destruct (read_at c0 fmt s Hs Hraw (offset k) c Hframe Hat)
    as (raw & a & rd & Heq & Hl & Hfd & Hend & Hfull & Hshort & _).
  exists raw, a, rd. repeat split; try done.
  - by apply Hfull.
  - by apply Hfull.
  - by apply Hfull.
  - intros Hnf. by apply Hshort.
Qed.

(** The dummy read after window [k]. *)
Lemma read_dummy (k : nat) (c : FormatClassifier) :
  1 <= k -> k + 1 <= cSiglen ->
  same_frame c0 c ->
  fpos (mpFid (mReader c)) = offset k + cSiglen * (s * W) ->
  exists raw a rd,
    ReadSamples (mReader c) (mRawBuffer c) (k + 1) s (format fmt) (endian fmt)
      = Ok (raw, a, rd)
    /\ same_frame c0 (set_mReader rd (set_mRawBuffer raw c))
    /\ at_window c0 fmt s (S k) (set_mReader rd (set_mRawBuffer raw c)).
Proof.
  intros Hk Hk2 Hframe Hpos.
  pose proof Hframe as (Hmem & Hdata & Hend & Hlraw & Hlsig & Hlaux).
  pose proof W_bounds as HW.
  destruct (ReadSamples_spec (mReader c) (mRawBuffer c) (k + 1) s (format fmt) (endian fmt))
    as (b & a & f' & Heq & Hlb & Hfd & Hlook & Hfull & Hshort); [done| |].
  { fold W. rewrite Hlraw. nia. }
  fold W in Hfull, Hshort. rewrite Hdata in Hfull, Hshort, Hfd. fold L in Hfull, Hshort.
  exists b, a, (with_fid (mReader c) f'). split; [done|]. split.
  - unfold same_frame, same_members in *. simpl. repeat split; try tauto; congruence.
  - unfold at_window. fold L offset. simpl. rewrite offset_S, decide_False by lia.
    destruct (decide (read_full L (fpos (mpFid (mReader c))) W s (k + 1))) as [Hf|Hf].
    + left. destruct (Hfull Hf) as [_ ->]. rewrite Hpos. nia.
    + right. destruct (Hshort Hf) as [_ Hle]. split; [done|].
      unfold read_full in Hf. rewrite Hpos in Hf.
      replace (k + 1 - 1) with k in Hf by lia.
      assert (W <= s * W) by nia. nia.
Qed.

Lemma offset_0 : offset 0 = mSignalStart c0.
Proof. unfold offset, window_offset. change (samples_before 0) with 0. lia. Qed.

Lemma integrate_1 : integrate c0 fmt s 1 = window 0.
Proof. done. Qed.

Lemma integrate_S (n : nat) :
  1 <= n -> integrate c0 fmt s (S n) = Add (integrate c0 fmt s n) (window n) cSiglen.
Proof.
  intros Hn. destruct n as [|n]; [lia|]. unfold integrate.
  replace (S (S n) - 1) with (S n) by lia. replace (S n - 1) with n by lia.
  rewrite seq_S, fold_left_app. reflexivity.
Qed.

Lemma ConvertSamples_window (raw : list byte) (out : list float) :
  length out = cSiglen ->
  ConvertSamples host raw out fmt = cast_sample host (format fmt) raw <$> seq 0 cSiglen.
Proof. intros Hl. unfold ConvertSamples. by apply ToFloat_eq. Qed.

Lemma ReadSignal_first :
  let c1 := set_mReader (ResetAt (mSignalStart c0) (mReader c0)) c0 in
  exists a c,
    ReadSignal_body fmt s (0, 0, c1) = Ok (1, a, c) /\ ReadSignal_inv c0 fmt s (1, a, c).
Proof.
  intros c1.
  assert (same_frame c0 c1) as Hf1 by (by repeat split).
  assert (at_window c0 fmt s 0 c1) as Hat.
  { left. fold offset. by rewrite offset_0. }
  destruct (read_window 0 c1 Hf1 Hat)
    as (raw & a & rd & Heq & Hlraw & Hfd & Hend & Hfull & Hshort).
  fold full in Hfull, Hshort.
  assert (cast_sample host (format fmt) raw <$> seq 0 cSiglen = window 0) as Hwin.
  { unfold window, window_at. rewrite offset_0.
    change (mReader c1) with (ResetAt (mSignalStart c0) (mReader c0)) in Heq.
    change (mRawBuffer c1) with (mRawBuffer c0) in Heq. by rewrite Heq. }
  unfold ReadSignal_body. rewrite Heq. monad_simpl.
  rewrite decide_True by done. monad_simpl.
  eexists a, _. split; [reflexivity|].
  unfold ReadSignal_inv. split; [unfold cNumInts; lia|]. split.
  { unfold same_frame, same_members, ConvertSamples. simpl_members.
    rewrite ToFloat_length. repeat split; try done. }
  split; [done|]. simpl_members. fold host.
  rewrite ConvertSamples_window by done. rewrite Hwin.
  split.
  - intros Ha. destruct (decide (full 0)) as [Hf|Hf]; [|by destruct (Hshort Hf)].
    destruct (Hfull Hf) as (_ & Hpos & _).
    split; [intros k Hk; by replace k with 0 by lia|]. split; [done|].
    left. simpl_members. rewrite Hpos.
    change (window_offset c0 fmt s 1) with (offset 1).
    rewrite (offset_S 0), decide_True by done. lia.
  - intros Ha. split; [intros k Hk; lia|]. split; [|done].
    intros Hf. by destruct (Hfull Hf).
Qed.

Lemma ReadSignal_step (st : nat * nat * FormatClassifier) :
  ReadSignal_inv c0 fmt s st -> ReadSignal_cond st = true ->
  exists st', ReadSignal_body fmt s st = Ok st' /\ ReadSignal_inv c0 fmt s st'
              /\ cNumInts - st'.1.1 < cNumInts - st.1.1.
Proof.
  destruct st as [[n a] c]. intros (Hn & Hframe & Hstart & Hfullcase & _) Hcond.
  unfold ReadSignal_cond in Hcond. apply andb_true_iff in Hcond as [Hn2 Ha].
  apply bool_decide_eq_true in Hn2, Ha.
  destruct (Hfullcase Ha) as (Hall & Hsigc & Hat). clear Hfullcase.
  pose proof Hframe as (Hmem & Hdata & Hend & Hlraw & Hlsig & Hlaux).
  destruct (read_window n c Hframe Hat)
    as (raw & a' & rd & Heq & Hlraw' & Hfd & Hend' & Hfull & Hshort).
  fold full in Hfull, Hshort.
  unfold ReadSignal_body. rewrite Heq. monad_simpl.
  rewrite decide_False by lia.
  destruct (decide (a' = cSiglen)) as [Ha'|Ha'].
  - (* a full window: convert, integrate, dummy read *)
    destruct (decide (full n)) as [Hf|Hf]; [|by destruct (Hshort Hf)].
    destruct (Hfull Hf) as (_ & Hpos & Hwin).
    set (c2 := set_mSigBuffer _ _).
    assert (same_frame c0 c2) as Hf2.
    { subst c2. unfold same_frame, same_members, ConvertSamples in *. simpl_members.
      rewrite Add_length, ToFloat_length. repeat split; try tauto; congruence. }
    assert (mSigBuffer c2 = integrate c0 fmt s (S n)) as Hsig2.
    { subst c2. simpl_members. rewrite Hend. fold host.
      rewrite ConvertSamples_window by congruence.
      rewrite Hwin, Hsigc. symmetry. apply integrate_S. lia. }
    destruct (read_dummy n c2) as (raw2 & a2 & rd2 & Heq2 & Hf3 & Hat3);
      [lia|unfold cNumInts, cSiglen in *; lia|done|by subst c2|].
    change (mReader c2) with rd in Heq2 |- *.
    change (mRawBuffer c2) with raw in Heq2 |- *.
    rewrite Heq2. monad_simpl.
    eexists (_, _, _). split; [reflexivity|]. split; [|simpl_members; lia].
    unfold ReadSignal_inv. split; [lia|]. split; [done|]. split; [done|]. split.
    + intros _. split.
      * intros k Hk. destruct (decide (k = n)) as [->|]; [done|]. apply Hall. lia.
      * split; [|by replace (n + 1) with (S n) by lia].
        simpl_members. replace (n + 1) with (S n) by lia. exact Hsig2.
    + done.
  - (* a short read *)
    monad_simpl.
    eexists (_, _, _). split; [reflexivity|]. split; [|simpl_members; lia].
    unfold ReadSignal_inv. split; [lia|]. split.
    { unfold same_frame, same_members in *. simpl_members. repeat split; try tauto; congruence. }
    split; [done|]. split; [done|].
    intros _. replace (n + 1 - 1) with n by lia. split; [done|]. split.
    + intros Hf. by destruct (Hfull Hf).
    + simpl_members. rewrite Hsigc. f_equal. lia.
Qed.

(** [ReadSignal] returns, keeps everything but the reader and the three
    working buffers, and leaves in [mSigBuffer] the sum of the first [m]
    windows, where [m] counts the complete windows up to the first
    incomplete one, at least 1 and at most [cNumInts]. *)
Lemma ReadSignal_spec :
  exists n c,
    ReadSignal fmt s c0 = Ok (n, c)
    /\ n <= cNumInts
    /\ same_frame c0 c
    /\ mSignalStart c = mSignalStart c0
    /\ exists m,
         1 <= m <= cNumInts
         /\ (forall k, 1 <= k < m -> full k)
         /\ (m < cNumInts -> ~ full m)
         /\ mSigBuffer c = integrate c0 fmt s m.
Proof.
  unfold ReadSignal, do_while.
  destruct ReadSignal_first as (a & c & -> & Hinv). monad_simpl.
  destruct (while_loop_inv (ReadSignal_inv c0 fmt s) (fun st => cNumInts - st.1.1) cNumInts
              ReadSignal_cond (ReadSignal_body fmt s) (1, a, c))
    as ([[n a'] c'] & -> & Hinv' & Hcond); [done|simpl_members; lia|apply ReadSignal_step|].
  monad_simpl. exists n, c'. split; [done|].
  destruct Hinv' as (Hn & Hframe & Hstart & Hfullcase & Hshortcase).
  split; [lia|]. split; [done|]. split; [done|].
  unfold ReadSignal_cond in Hcond. apply andb_false_iff in Hcond.
  destruct (decide (a' = cSiglen)) as [Ha|Ha].
  - destruct Hcond as [Hc|Hc]; apply bool_decide_eq_false in Hc; [|done].
    destruct (Hfullcase Ha) as (Hall & Hsigc & _).
    exists n. split; [lia|]. split; [intros k Hk; apply Hall; lia|]. split; [lia|done].
  - destruct (Hshortcase Ha) as (Hall & Hnf & Hsigc).
    exists (1 `max` (n - 1)). split; [lia|]. split; [intros k Hk; apply Hall; lia|].
    split; [|done]. intros _.
    destruct (decide (n = 1)) as [->|Hn1].
    + intros Hf. apply Hnf. apply window_full_S; [done|]. exact Hf.
    + by replace (1 `max` (n - 1)) with (n - 1) by lia.
Qed.

End ReadSignalFacts.

(** ** The search for the start of the signal *)

Arguments cRawSiglen : simpl never.
Arguments cHeaderSkip : simpl never.
Arguments cSigSearchGridSize : simpl never.

Section MonadicLoops.
Context {S : Type}.

Lemma for_loopM_S (lo hi : nat) (body : nat -> S -> result S) (s : S) :
  lo <= hi ->
  for_loopM lo (Datatypes.S hi) body s = (for_loopM lo hi body s ≫= body hi).
Proof.
  intros Hle. unfold for_loopM.
  replace (Datatypes.S hi - lo) with (Datatypes.S (hi - lo)) by lia.
  rewrite seq_S, fold_left_app. simpl.
  by replace (lo + (hi - lo)) with hi by lia.
Qed.

(** An invariant rule for a counted loop whose body may raise. *)
Lemma for_loopM_ind (P : nat -> S -> Prop) (hi : nat) (body : nat -> S -> result S) (s : S) :
  P 0 s ->
  (forall n s, n < hi -> P n s -> exists s', body n s = Ok s' /\ P (Datatypes.S n) s') ->
  exists s', for_loopM 0 hi body s = Ok s' /\ P hi s'.
Proof.
  intros H0 Hstep.
  assert (forall k, k <= hi -> exists s', for_loopM 0 k body s = Ok s' /\ P k s') as Hk;
    [|by apply Hk].
  induction k as [|k IH]; intros Hle.
  - exists s. split; [|done]. unfold for_loopM. by rewrite Nat.sub_diag.
  - destruct IH as (s1 & Heq & HP); [lia|].
    rewrite for_loopM_S by lia. rewrite Heq, bind_Ok.
    apply Hstep; [lia|done].
Qed.

End MonadicLoops.

Lemma probe_offset_S (k : nat) :
  probe_offset (S k) = probe_offset k + cSigSearchGridSize * cSiglen.
Proof. unfold probe_offset. lia. Qed.

Lemma probe_full_iff (c : FormatClassifier) (k : nat) :
  probe_full c k <-> probe_offset k + cSiglen <= length (fdata (mpFid (mReader c))).
Proof.
  unfold probe_full, read_full. pose proof cSiglen_pos. split.
  - intros [?|Hf]; [lia|]. lia.
  - intros Hf. right. lia.
Qed.

Section FindSignalStartFacts.
Variable c0 : FormatClassifier.
Hypothesis Hraw : length (mRawBuffer c0) = cRawSiglen.
Hypothesis Hsig : length (mSigBuffer c0) = cSiglen.

Let L := length (fdata (mpFid (mReader c0))).
Let host := mEnd (mReader c0).

Lemma raw_buffer_window : cSiglen * 8 <= length (mRawBuffer c0).
Proof using Hraw. rewrite Hraw. done. Qed.

(** One read of a window of [FindSignalStart]. *)
Lemma read_probe (o : nat) (c : FormatClassifier) :
  search_frame c0 c ->
  fpos (mpFid (mReader c)) = o \/ (L <= fpos (mpFid (mReader c)) /\ L < o) ->
  exists raw a rd,
    ReadSamples (mReader c) (mRawBuffer c) cSiglen 1 Uint8 Little = Ok (raw, a, rd)
    /\ search_frame c0 (set_mReader rd (set_mRawBuffer raw c))
    /\ (o + cSiglen <= L ->
        a = cSiglen /\ fpos (mpFid rd) = o + cSiglen
        /\ ConvertSamples host raw (mSigBuffer c) testFormat
           = window_at c0 testFormat 1 o)
    /\ (~ o + cSiglen <= L -> a <> cSiglen /\ L <= fpos (mpFid rd)).
Proof using Hraw Hsig.
  intros [Hframe Hzero] Hat.
  destruct (read_at c0 testFormat 1 ltac:(lia) raw_buffer_window o c Hframe Hat)
    as (raw & a & rd & Heq & Hl & Hfd & Hend & Hfull & Hshort & Htail).
  fold L host in Hfull, Hshort.
  change (format testFormat) with Uint8 in *. change (endian testFormat) with Little in *.
  change (width Uint8) with 1 in *.
  pose proof cSiglen_pos as HS.
  assert (read_full L o 1 1 cSiglen <-> o + cSiglen <= L) as Hrf.
  { unfold read_full. split; [intros [?|?]; lia|intros ?; right; lia]. }
  exists raw, a, rd. split; [done|]. split; [|split].
  - pose proof Hframe as (Hmem & Hdata & Hend0 & Hlraw & Hlsig & Hlaux).
    split.
    + unfold same_frame, same_members in *. simpl_members.
      repeat split; try tauto; congruence.
    + intros j Hj. simpl_members. rewrite Htail by lia. by apply Hzero.
  - intros Hf. destruct (Hfull (proj2 Hrf Hf)) as (-> & Hpos & Hwin).
    split; [done|]. split; [lia|].
    unfold ConvertSamples. rewrite ToFloat_eq; [done|].
    destruct Hframe as (_ & _ & _ & _ & Hlsig & _). congruence.
  - intros Hnf. apply Hshort. by rewrite Hrf.
Qed.

(** The [cSigSearchGridSize] reads between two probes, started right
    after a complete probe window at [o]. *)
Lemma search_reads (o : nat) (c : FormatClassifier) (a0 : nat) :
  search_frame c0 c ->
  fpos (mpFid (mReader c)) = o + cSiglen ->
  let o' := o + cSigSearchGridSize * cSiglen in
  exists c' a,
    for_loopM 0 cSigSearchGridSize
      (fun n '(c, _) =>
         '(raw, actRead, rd) ←
           ReadSamples (mReader c) (mRawBuffer c) cSiglen 1
                       (format testFormat) (endian testFormat);
         Ok (set_mReader rd (set_mRawBuffer raw c), actRead))
      (c, a0) = Ok (c', a)
    /\ search_frame c0 c'
    /\ mSigBuffer c' = mSigBuffer c
    /\ (o' + cSiglen <= L ->
        a = cSiglen /\ fpos (mpFid (mReader c')) = o' + cSiglen
        /\ ConvertSamples host (mRawBuffer c') (mSigBuffer c') testFormat
           = window_at c0 testFormat 1 o')
    /\ (~ o' + cSiglen <= L -> a <> cSiglen).
Proof using Hraw Hsig.
  intros Hframe Hpos o'.
  set (body := fun (n : nat) (st : FormatClassifier * nat) => _).
  pose proof cSiglen_pos as HS.
  destruct (for_loopM_ind
    (fun t (st : FormatClassifier * nat) =>
       search_frame c0 st.1
       /\ mSigBuffer st.1 = mSigBuffer c
       /\ (fpos (mpFid (mReader st.1)) = o + cSiglen + t * cSiglen
           \/ (L <= fpos (mpFid (mReader st.1)) /\ L < o + cSiglen + t * cSiglen))
       /\ (1 <= t ->
           (o + t * cSiglen + cSiglen <= L ->
            st.2 = cSiglen
            /\ fpos (mpFid (mReader st.1)) = o + t * cSiglen + cSiglen
            /\ ConvertSamples host (mRawBuffer st.1) (mSigBuffer st.1) testFormat
               = window_at c0 testFormat 1 (o + t * cSiglen))
           /\ (~ o + t * cSiglen + cSiglen <= L -> st.2 <> cSiglen)))
    cSigSearchGridSize body (c, a0)) as ([c' a] & Heq & HP).
  - cbn [fst snd]. split; [done|]. split; [done|]. split; [left; lia|]. intros ?. lia.
  - intros t [c1 a1] Ht (Hf1 & Hs1 & Hp1 & _). cbn [fst snd] in Hf1, Hs1, Hp1.
    destruct (read_probe (o + cSiglen + t * cSiglen) c1 Hf1 Hp1)
      as (raw & a & rd & Heq & Hf2 & Hfull & Hshort).
    unfold body. cbv beta iota.
    change (format testFormat) with Uint8. change (endian testFormat) with Little.
    rewrite Heq. rewrite bind_Ok. cbv beta iota.
    eexists. split; [reflexivity|]. cbn [fst snd]. simpl_members.
    split; [done|]. split; [done|].
    replace (o + S t * cSiglen + cSiglen) with (o + cSiglen + t * cSiglen + cSiglen) by lia.
    replace (o + cSiglen + S t * cSiglen) with (o + cSiglen + t * cSiglen + cSiglen) by lia.
    split.
    + destruct (decide (o + cSiglen + t * cSiglen + cSiglen <= L)) as [Hle|Hnle].
      * left. by destruct (Hfull Hle) as (_ & -> & _).
      * right. destruct (Hshort Hnle) as (_ & ?). lia.
    + intros _. split.
      * intros Hle. destruct (Hfull Hle) as (-> & -> & Hwin).
        split; [done|]. split; [done|].
        rewrite Hs1 in *. rewrite Hwin. f_equal. lia.
      * intros Hnle. by destruct (Hshort Hnle).
  - cbn [fst snd] in HP. destruct HP as (Hf & Hs' & _ & Hlast).
    exists c', a. split; [done|]. split; [done|]. split; [done|].
    destruct Hlast as [Hfull Hshort]; [unfold cSigSearchGridSize; lia|].
    subst o'.
    replace (o + cSigSearchGridSize * cSiglen + cSiglen)
      with (o + cSigSearchGridSize * cSiglen + cSiglen) in * by lia.
    split; [exact Hfull|exact Hshort].
Qed.

End FindSignalStartFacts.

Lemma is_nan_true (x : float) : F32.is_nan x = true -> x = S754_nan.
Proof.
  intros H. destruct (decide (x = S754_nan)) as [|Hne]; [done|].
  apply eqb_refl_not_nan in Hne. congruence.
Qed.

Lemma leb_nan (x y : float) : F32.is_nan y = true -> F32.leb x y = false.
Proof. intros H. apply is_nan_true in H as ->. by destruct x. Qed.

Lemma probe_rms_eq (c : FormatClassifier) (k : nat) :
  probe_rms c k = Rms (window_at c testFormat 1 (probe_offset k)) 64.
Proof. reflexivity. Qed.

#[local] Opaque probe_rms.

Section FindSignalStartLoop.
Variable c0 : FormatClassifier.
Hypothesis Hraw : length (mRawBuffer c0) = cRawSiglen.
Hypothesis Hsig : length (mSigBuffer c0) = cSiglen.

Let L := length (fdata (mpFid (mReader c0))).
Let host := mEnd (mReader c0).

Lemma FindSignalStart_step (s : search) :
  FindSignalStart_inv c0 s -> FindSignalStart_cond s = true ->
  exists s', FindSignalStart_body s = Ok s' /\ FindSignalStart_inv c0 s'
             /\ search_measure s' < search_measure s.
Proof using Hraw Hsig.
  destruct s as [c a rms found i]. intros [Hframe Hinv] Hcond.
  unfold FindSignalStart_cond in Hcond. cbn [s_c s_actRead s_rms s_signalFound s_i] in *.
  apply andb_true_iff in Hcond as [Hcond Hnf]. apply andb_true_iff in Hcond as [Ha Hnan].
  apply bool_decide_eq_true in Ha. apply negb_true_iff in Hnf, Hnan. subst found.
  destruct Hinv as (P & Hbefore & Hnans & Hrms & Hfull & _).
  destruct (Hfull Ha) as (-> & HfP & HsigP & Hpos). clear Hfull.
  pose proof Hframe as [(Hmem & Hdata & Hend & Hlraw & Hlsig & Hlaux) Hzero].
  unfold FindSignalStart_body. cbn [s_c s_actRead s_rms s_signalFound s_i].
  assert (Rms (mSigBuffer c) 64 = probe_rms c0 P) as Hr
    by (rewrite probe_rms_eq, HsigP; reflexivity).
  rewrite Hr.
  assert (forall k, k < P -> F32.is_nan (probe_rms c0 k) = false) as Hnans'.
  { intros k Hk. destruct (decide (S k < P)); [apply Hnans; assumption|].
    assert (P = S k) as -> by lia. rewrite <- Hrms. exact Hnan. }
  destruct (F32.leb cMinRms (probe_rms c0 P)) eqn:Hloud.
  - (* signal found *)
    eexists. split; [reflexivity|]. split.
    + split; [exact Hframe|]. cbn [s_c s_actRead s_rms s_signalFound s_i].
      split; [|split; [|exact Hloud]].
      * intros k Hk. destruct (decide (k = P)) as [->|]; [exact HfP|]. apply Hbefore. lia.
      * intros k Hk. split; [apply Hbefore; exact Hk|apply Hnans'; exact Hk].
    + unfold search_measure. cbn [s_c s_actRead s_rms s_signalFound s_i].
      rewrite decide_True by assumption. lia.
  - (* silence: skip ahead *)
    destruct (search_reads c0 Hraw Hsig (probe_offset P) c a Hframe Hpos)
      as (c' & a' & Heq & Hframe' & Hsig' & Hfull' & Hshort').
    rewrite Heq, bind_Ok. cbv beta iota. clear Heq.
    rewrite <- probe_offset_S in Hfull', Hshort'.
    fold L in Hfull', Hshort'.
    pose proof (probe_full_iff c0 (S P)) as HfS. fold L in HfS.
    assert (forall k, k < S P ->
              probe_full c0 k /\ F32.leb cMinRms (probe_rms c0 k) = false) as Hbefore'.
    { intros k Hk. destruct (decide (k = P)) as [->|]; [exact (conj HfP Hloud)|].
      apply Hbefore. lia. }
    assert (forall k, S k < S P -> F32.is_nan (probe_rms c0 k) = false) as Hnans''.
    { intros k Hk. apply Hnans'. lia. }
    destruct (decide (a' = cSiglen)) as [Ha'|Ha'].
    + destruct (decide (probe_offset (S P) + cSiglen <= L)) as [Hle|Hnle];
        [|exfalso; exact (Hshort' Hnle Ha')].
      destruct (Hfull' Hle) as (_ & Hpos' & Hwin).
      eexists. split; [reflexivity|]. split.
      * unfold FindSignalStart_inv. cbn [s_c s_actRead s_rms s_signalFound s_i]. split.
        { destruct Hframe' as [Hsf Hz]. split; [|exact Hz].
          unfold same_frame, same_members, ConvertSamples in *. simpl_members.
          rewrite ToFloat_length. repeat split; tauto. }
        cbn [s_c s_actRead s_rms s_signalFound s_i]. exists (S P).
        split; [exact Hbefore'|]. split; [exact Hnans''|]. split; [reflexivity|].
        split; [|intros Hc; exfalso; exact (Hc Ha')].
        intros _. split; [lia|]. split; [apply HfS; exact Hle|].
        simpl_members. rewrite Hend. fold host. split; [exact Hwin|exact Hpos'].
      * unfold search_measure. cbn [s_c s_actRead s_rms s_signalFound s_i].
        rewrite !decide_True by assumption. simpl_members.
        destruct Hframe' as [(_ & Hd' & _) _]. rewrite Hd', Hdata. fold L.
        rewrite Hpos', Hpos. rewrite probe_offset_S in *.
        pose proof cSiglen_pos. unfold cSigSearchGridSize in *. lia.
    + eexists. split; [reflexivity|]. split.
      * split; [exact Hframe'|].
        cbn [s_c s_actRead s_rms s_signalFound s_i]. exists (S P).
        split; [exact Hbefore'|]. split; [exact Hnans''|]. split; [reflexivity|].
        split; [intros Hc; exfalso; exact (Ha' Hc)|].
        intros _. rewrite HfS. intros Hle. destruct (Hfull' Hle) as (Hc & _).
        exact (Ha' Hc).
      * unfold search_measure. cbn [s_c s_actRead s_rms s_signalFound s_i].
        rewrite decide_False by assumption. rewrite decide_True by assumption. lia.
Qed.

End FindSignalStartLoop.

Section FindSignalStartSpec.
Variable c0 : FormatClassifier.
Hypothesis Hraw : length (mRawBuffer c0) = cRawSiglen.
Hypothesis Hsig : length (mSigBuffer c0) = cSiglen.

Let L := length (fdata (mpFid (mReader c0))).
Let host := mEnd (mReader c0).

(** [FindSignalStart] returns; either it found a loud probe window, the
    first one after complete, silent ones, or it stopped at an incomplete
    window or after a window whose [Rms] is NaN. *)
Lemma FindSignalStart_spec :
  exists c',
    FindSignalStart c0 = Ok c'
    /\ search_frame c0 c'
    /\ ((exists i,
           mSignalStart c' = cHeaderSkip + i * cSigSearchGridSize * cSiglen
           /\ (forall k, k <= i -> probe_full c0 k)
           /\ (forall k, k < i ->
                 F32.leb cMinRms (probe_rms c0 k) = false
                 /\ F32.is_nan (probe_rms c0 k) = false)
           /\ F32.leb cMinRms (probe_rms c0 i) = true)
        \/ (mSignalStart c' = cHeaderSkip
            /\ exists P,
                 (forall k, k < P ->
                    probe_full c0 k /\ F32.leb cMinRms (probe_rms c0 k) = false)
                 /\ (forall k, S k < P -> F32.is_nan (probe_rms c0 k) = false)
                 /\ (~ probe_full c0 P
                     \/ exists P', P = S P' /\ F32.is_nan (probe_rms c0 P') = true))).
Proof using Hraw Hsig.
  unfold FindSignalStart.
  set (c1 := set_mReader (Reset (mReader c0)) c0).
  pose proof cSiglen_pos as HS.
  (* the dummy read of the header *)
  destruct (ReadSamples_spec (mReader c1) (mRawBuffer c1) cHeaderSkip 1 Uint8 Little)
    as (raw1 & a1 & f1 & Heq1 & Hl1 & Hfd1 & _ & Hfull1 & Hshort1); [lia| |].
  { subst c1. simpl_members. rewrite Hraw. unfold cHeaderSkip, cRawSiglen, cSiglen.
    simpl. lia. }
  rewrite Heq1, bind_Ok. cbv beta iota. clear Heq1. subst c1.
  unfold Reset, fseek_set in *. simpl_members.
  change (width Uint8) with 1 in *. fold L in Hfull1, Hshort1.
  set (zeros := list_inserts 0 (replicate cRawSiglen 0%Z) raw1).
  assert (zeros = replicate cRawSiglen 0%Z) as Hzeros.
  { subst zeros. unfold byte in *. apply list_eq. intros j.
    destruct (decide (j < cRawSiglen)).
    - rewrite list_lookup_inserts by (rewrite ?length_replicate, ?Hl1, ?Hraw; lia).
      f_equal. lia.
    - rewrite !lookup_ge_None_2; [reflexivity|rewrite length_replicate; lia|].
      rewrite length_inserts, Hl1, Hraw. lia. }
  set (c3 := set_mRawBuffer zeros _).
  assert (search_frame c0 c3) as Hf3.
  { subst c3. split.
    - unfold same_frame, same_members. simpl_members.
      rewrite Hzeros, length_replicate. repeat split; try reflexivity; try assumption.
      symmetry; exact Hraw.
    - intros j _. simpl_members. rewrite Hzeros. reflexivity. }
  assert (fpos (mpFid (mReader c3)) = probe_offset 0
          \/ (L <= fpos (mpFid (mReader c3)) /\ L < probe_offset 0)) as Hat.
  { subst c3. simpl_members. unfold probe_offset.
    destruct (decide (read_full L 0 1 1 cHeaderSkip)) as [Hf|Hf].
    - left. destruct (Hfull1 Hf) as [_ ->]. lia.
    - right. destruct (Hshort1 Hf) as [_ Hle]. split; [exact Hle|].
      unfold read_full in Hf. unfold cHeaderSkip in *. lia. }
  (* the first read *)
  destruct (read_probe c0 Hraw Hsig (probe_offset 0) c3 Hf3 Hat)
    as (raw & a & rd & Heq & Hf4 & Hfull & Hshort).
  fold L in Hfull, Hshort.
  change (format testFormat) with Uint8. change (endian testFormat) with Little.
  
  change (ReadSamples _ zeros cSiglen 1 Uint8 Little)
    with (ReadSamples (mReader c3) (mRawBuffer c3) cSiglen 1 Uint8 Little).
  rewrite Heq, bind_Ok. cbv beta iota. clear Heq.
  set (c4 := set_mReader rd (set_mRawBuffer raw c3)) in *.
  change (mSigBuffer c3) with (mSigBuffer c0) in *.
  change (mSigBuffer c4) with (mSigBuffer c0).
  change (mRawBuffer c4) with raw.
  change (mEnd (mReader c0)) with host.
  set (c5 := set_mSigBuffer (ConvertSamples host raw (mSigBuffer c0) testFormat) c4).
  assert (search_frame c0 c5) as Hf5.
  { destruct Hf4 as [Hsf Hz]. split; [|exact Hz].
    subst c5. unfold same_frame, same_members, ConvertSamples in *. simpl_members.
    rewrite ToFloat_length. repeat split; tauto. }
  assert (fdata (mpFid (mReader c5)) = fdata (mpFid (mReader c0))) as Hd5.
  { destruct Hf5 as [(_ & Hd & _) _]. exact Hd. }
  pose proof (probe_full_iff c0 0) as Hpf0. fold L in Hpf0.
  destruct (while_loop_inv (FindSignalStart_inv c0) search_measure
              (S (length (fdata (mpFid (mReader c5)))))
              FindSignalStart_cond FindSignalStart_body
              (mkSearch c5 a F32.zero false 0))
    as (s' & Hloop & [Hframe Hinv] & Hcond).
  - split; [exact Hf5|]. cbn [s_c s_actRead s_rms s_signalFound s_i]. exists 0.
    split; [intros k Hk; lia|]. split; [intros k Hk; lia|]. split; [reflexivity|]. split.
    + intros Ha.
      destruct (decide (probe_offset 0 + cSiglen <= L)) as [Hle|Hnle];
        [|exfalso; exact (proj1 (Hshort Hnle) Ha)].
      destruct (Hfull Hle) as (_ & Hpos & Hwin).
      split; [reflexivity|]. split; [apply Hpf0; exact Hle|]. split; [exact Hwin|exact Hpos].
    + intros Ha. rewrite Hpf0. intros Hle. exact (Ha (proj1 (Hfull Hle))).
  - unfold search_measure. cbn [s_c s_actRead s_rms s_signalFound s_i].
    case_decide as Ha; [|lia]. rewrite Hd5. fold L.
    destruct (decide (probe_offset 0 + cSiglen <= L)) as [Hle|Hnle];
      [|exfalso; exact (proj1 (Hshort Hnle) Ha)].
    destruct (Hfull Hle) as (_ & Hpos & _).
    change (fpos (mpFid (mReader c5))) with (fpos (mpFid rd)). lia.
  - intros s Hi Hc. apply FindSignalStart_step; assumption.
  - change (while_loop _ _ _ _)
      with (while_loop (S (length (fdata (mpFid (mReader c5)))))
              FindSignalStart_cond FindSignalStart_body
              (mkSearch c5 a F32.zero false 0)).
    rewrite Hloop, bind_Ok. clear Hloop.
    destruct s' as [c' a' rms' found' i']. cbn [s_c s_actRead s_rms s_signalFound s_i] in *.
    destruct found'.
    + eexists. split; [reflexivity|]. split.
      { destruct Hframe as [Hsf Hz]. split; [|exact Hz].
        unfold same_frame, same_members in *. simpl_members. tauto. }
      left. exists i'. simpl_members. split; [reflexivity|]. exact Hinv.
    + eexists. split; [reflexivity|]. split.
      { destruct Hframe as [Hsf Hz]. split; [|exact Hz].
        unfold same_frame, same_members in *. simpl_members. tauto. }
      right. simpl_members. split; [reflexivity|].
      destruct Hinv as (P & Hbefore & Hnans & Hrms & Hfullc & Hshortc).
      exists P. split; [exact Hbefore|]. split; [exact Hnans|].
      unfold FindSignalStart_cond in Hcond.
      cbn [s_c s_actRead s_rms s_signalFound s_i] in Hcond.
      rewrite andb_true_r in Hcond. apply andb_false_iff in Hcond as [Hc|Hc].
      * left. apply Hshortc. apply bool_decide_eq_false in Hc. exact Hc.
      * right. apply negb_false_iff in Hc. destruct P as [|P'].
        { rewrite Hrms in Hc. discriminate Hc. }
        exists P'. split; [reflexivity|]. rewrite <- Hrms. exact Hc.
Qed.

End FindSignalStartSpec.

(** *** The threshold test on a window of bytes *)

Section Rounding.
Open Scope Z_scope.

Lemma digits2_pos_bounds (m : positive) :
  2 ^ (Zpos (digits2_pos m) - 1) <= Zpos m < 2 ^ Zpos (digits2_pos m).
Proof.
  induction m as [m IH|m IH|]; cbn [digits2_pos].
  - rewrite Pos2Z.inj_succ, Z.pow_succ_r by lia.
    replace (Z.succ (Zpos (digits2_pos m)) - 1) with (Z.succ (Zpos (digits2_pos m) - 1)) by lia.
    rewrite Z.pow_succ_r by lia. lia.
  - rewrite Pos2Z.inj_succ, Z.pow_succ_r by lia.
    replace (Z.succ (Zpos (digits2_pos m)) - 1) with (Z.succ (Zpos (digits2_pos m) - 1)) by lia.
    rewrite Z.pow_succ_r by lia. lia.
  - simpl. lia.
Qed.

Lemma digits2_pos_unique (m : positive) (k : Z) :
  2 ^ (k - 1) <= Zpos m < 2 ^ k -> Zpos (digits2_pos m) = k.
Proof.
  intros [Hlo Hhi]. pose proof (digits2_pos_bounds m) as [Dlo Dhi].
  set (d := Zpos (digits2_pos m)) in *.
  assert (0 < d) as Hd by (subst d; lia).
  destruct (Z.lt_trichotomy d k) as [Hlt|[Heq|Hgt]]; [|exact Heq|].
  - assert (2 ^ d <= 2 ^ (k - 1)) by (apply Z.pow_le_mono_r; lia). lia.
  - assert (k < 0 \/ 0 <= k) as [Hk|Hk] by lia.
    + rewrite (Z.pow_neg_r 2 k) in Hhi by lia. lia.
    + assert (2 ^ k <= 2 ^ (d - 1)) by (apply Z.pow_le_mono_r; lia). lia.
Qed.

Lemma shr_1_m (mrs : shr_record) :
  0 <= shr_m mrs -> shr_m (shr_1 mrs) = shr_m mrs / 2.
Proof.
  destruct mrs as [m r s]. cbn [shr_m]. intros Hm. unfold shr_1.
  destruct m as [|[p|p|]|p]; cbn [shr_m]; [reflexivity| | |reflexivity|lia].
  - apply (Z.div_unique _ _ _ 1); lia.
  - apply (Z.div_unique _ _ _ 0); lia.
Qed.

Lemma iter_shr_1_m (p : positive) (mrs : shr_record) :
  0 <= shr_m mrs -> shr_m (SpecFloat.iter_pos shr_1 p mrs) = shr_m mrs / 2 ^ Zpos p.
Proof.
  revert mrs. induction p as [p IH|p IH|]; intros mrs Hm; cbn [SpecFloat.iter_pos].
  - assert (0 <= shr_m (shr_1 mrs)) as H1.
    { rewrite shr_1_m by exact Hm. apply Z.div_pos; lia. }
    assert (0 <= shr_m (SpecFloat.iter_pos shr_1 p (shr_1 mrs))) as H2.
    { rewrite IH by exact H1. apply Z.div_pos; [exact H1|]. apply Z.pow_pos_nonneg; lia. }
    rewrite IH by exact H2. rewrite IH by exact H1. rewrite shr_1_m by exact Hm.
    assert (0 < 2 ^ Zpos p) by (apply Z.pow_pos_nonneg; lia).
    assert (2 ^ Zpos p~1 = 2 * 2 ^ Zpos p * 2 ^ Zpos p) as ->.
    { rewrite <- Z.mul_assoc, <- Z.pow_add_r, <- Z.pow_succ_r by lia. f_equal. lia. }
    rewrite !Z.div_div by lia. f_equal. lia.
  - assert (0 <= shr_m (SpecFloat.iter_pos shr_1 p mrs)) as H2.
    { rewrite IH by exact Hm. apply Z.div_pos; [exact Hm|]. apply Z.pow_pos_nonneg; lia. }
    rewrite IH by exact H2. rewrite IH by exact Hm.
    assert (0 < 2 ^ Zpos p) by (apply Z.pow_pos_nonneg; lia).
    assert (2 ^ Zpos p~0 = 2 ^ Zpos p * 2 ^ Zpos p) as ->.
    { rewrite <- Z.pow_add_r by lia. f_equal. lia. }
    rewrite Z.div_div by lia. reflexivity.
  - rewrite shr_1_m by exact Hm. reflexivity.
Qed.

(** [shr] divides the mantissa by [2 ^ n] and adds [n] to the exponent. *)
Lemma shr_spec (mrs : shr_record) (e n : Z) :
  0 <= n -> 0 <= shr_m mrs ->
  shr_m (shr mrs e n).1 = shr_m mrs / 2 ^ n /\ (shr mrs e n).2 = e + n.
Proof.
  intros Hn Hm. unfold shr. destruct n as [|p|p]; cbn [fst snd]; [| |lia].
  - rewrite Z.div_1_r. lia.
  - split; [apply iter_shr_1_m; exact Hm|reflexivity].
Qed.

Lemma shr_exponent (mrs : shr_record) (e n : Z) : e <= (shr mrs e n).2.
Proof. unfold shr. destruct n; cbn [snd]; lia. Qed.

Lemma shr_record_of_loc_m (m : Z) (l : location) : shr_m (shr_record_of_loc m l) = m.
Proof. destruct l as [|[]]; reflexivity. Qed.

Lemma round_nearest_even_bounds (m : Z) (l : location) :
  m <= round_nearest_even m l <= m + 1.
Proof.
  unfold round_nearest_even. destruct l as [|[]]; try lia. destruct (Z.even m); lia.
Qed.

(** Rounding a positive number with at least 24 significant bits and an
    exponent of at least -23 gives a normal number that is at least 1, or
    overflows. *)
Lemma binary_round_aux_ge_one (m : positive) (e : Z) (l : location) :
  24 <= Zpos (digits2_pos m) -> -23 <= e ->
  zero_or_ge_one (binary_round_aux 24 128 false (Zpos m) e l) = true.
Proof.
  intros Hd He. pose proof (digits2_pos_bounds m) as [Dlo Dhi].
  set (d := Zpos (digits2_pos m)) in *.
  unfold binary_round_aux, shr_fexp.
  assert (fexp 24 128 (Zdigits2 (Zpos m) + e) - e = d - 24) as ->.
  { unfold fexp, emin. cbn [Zdigits2]. fold d. lia. }
  pose proof (shr_spec (shr_record_of_loc (Zpos m) l) e (d - 24)) as [Hm1 He1];
    [lia|rewrite shr_record_of_loc_m; lia|].
  rewrite shr_record_of_loc_m in Hm1.
  destruct (shr (shr_record_of_loc (Zpos m) l) e (d - 24)) as [mrs1 e1].
  cbn [fst snd] in Hm1, He1.
  assert (2 ^ 23 <= shr_m mrs1 < 2 ^ 24) as Hb1.
  { rewrite Hm1. assert (0 < 2 ^ (d - 24)) by (apply Z.pow_pos_nonneg; lia).
    assert (2 ^ d = 2 ^ (d - 24) * 2 ^ 24) as Hp1.
    { rewrite <- Z.pow_add_r by lia. f_equal. lia. }
    assert (2 ^ (d - 1) = 2 ^ (d - 24) * 2 ^ 23) as Hp2.
    { rewrite <- Z.pow_add_r by lia. f_equal. lia. }
    split.
    - apply Z.div_le_lower_bound; lia.
    - apply Z.div_lt_upper_bound; lia. }
  pose proof (round_nearest_even_bounds (shr_m mrs1) (loc_of_shr_record mrs1)) as Hr.
  set (m2 := round_nearest_even (shr_m mrs1) (loc_of_shr_record mrs1)) in *.
  destruct m2 as [|p2|p2] eqn:Hm2; [lia| |lia].
  cbn [Zdigits2]. cbn [shr_record_of_loc].
  destruct (Z.eq_dec (Zpos p2) (2 ^ 24)) as [Htop|Htop].
  - assert (Zpos (digits2_pos p2) = 25) as Hd2.
    { apply digits2_pos_unique. rewrite Htop. change (25 - 1) with 24.
      split; [lia|]. apply Z.pow_lt_mono_r; lia. }
    rewrite Hd2.
    assert (fexp 24 128 (25 + e1) - e1 = 1) as ->.
    { unfold fexp, emin. lia. }
    cbn [shr SpecFloat.iter_pos]. rewrite shr_1_m by (cbn [shr_m]; lia). cbn [shr_m].
    rewrite Htop. change (2 ^ 24 / 2) with (Zpos (2 ^ 23)).
    destruct (e1 + 1 <=? 128 - 24); [|reflexivity].
    cbn [zero_or_ge_one negb andb Pos.pow]. 
    replace (-23 <=? e1 + 1) with true by (symmetry; apply Z.leb_le; lia).
    reflexivity.
  - assert (Zpos (digits2_pos p2) = 24) as Hd2.
    { apply digits2_pos_unique. change (24 - 1) with 23. lia. }
    rewrite Hd2.
    assert (fexp 24 128 (24 + e1) - e1 = 0) as ->.
    { unfold fexp, emin. lia. }
    cbn [shr shr_m].
    destruct (e1 <=? 128 - 24); [|reflexivity].
    cbn [zero_or_ge_one negb andb]. rewrite Hd2.
    replace (-23 <=? e1) with true by (symmetry; apply Z.leb_le; lia).
    reflexivity.
Qed.

End Rounding.

Section Threshold.
Open Scope Z_scope.

Lemma digits2_pos_ge (m : positive) (k : Z) :
  2 ^ (k - 1) <= Zpos m -> k <= Zpos (digits2_pos m).
Proof.
  intros Hlo. pose proof (digits2_pos_bounds m) as [_ Dhi].
  destruct (Z.le_gt_cases k (Zpos (digits2_pos m))) as [H|H]; [exact H|].
  assert (2 ^ Zpos (digits2_pos m) <= 2 ^ (k - 1)) by (apply Z.pow_le_mono_r; lia). lia.
Qed.

Lemma shl_align_ge (m : positive) (e e' : Z) : Zpos m <= Zpos (shl_align m e e').1.
Proof.
  unfold shl_align. destruct (e' - e) as [|d|d]; cbn [fst]; [lia|lia|].
  apply (Pos.iter_invariant d _ xO (fun y => Zpos m <= Zpos y)); [|lia].
  intros y Hy. lia.
Qed.

Lemma shl_align_exponent (m : positive) (e e' : Z) :
  0 <= e' - e -> shl_align m e e' = (m, e).
Proof. intros H. unfold shl_align. destruct (e' - e); [reflexivity|reflexivity|lia]. Qed.

(** Numbers that are zero or at least 1 add up to such a number. *)
Lemma add_ge_one (a b : float) :
  zero_or_ge_one a = true -> zero_or_ge_one b = true ->
  zero_or_ge_one (F32.add a b) = true.
Proof.
  destruct a as [[]|[]| |[] ma ea], b as [[]|[]| |[] mb eb]; try discriminate;
    try (intros _ _; reflexivity); try (intros _ Hb; exact Hb); try (intros Ha _; exact Ha).
  cbn [zero_or_ge_one negb andb]. intros Ha Hb.
  apply andb_true_iff in Ha as [Hda Hea]. apply andb_true_iff in Hb as [Hdb Heb].
  apply Z.eqb_eq in Hda, Hdb. apply Z.leb_le in Hea, Heb.
  unfold F32.add, SFadd. cbn [cond_Zopp]. set (ez := Z.min ea eb).
  pose proof (shl_align_ge ma ea ez) as Hga.
  set (ma' := (shl_align ma ea ez).1) in *. set (mb' := (shl_align mb eb ez).1).
  change (Zpos ma' + Zpos mb') with (Zpos (ma' + mb')).
  cbn [binary_normalize]. unfold binary_round.
  pose proof (digits2_pos_bounds ma) as [Dlo _]. rewrite Hda in Dlo. change (24 - 1) with 23 in Dlo.
  assert (24 <= Zpos (digits2_pos (ma' + mb'))) as Hd.
  { apply digits2_pos_ge. change (24 - 1) with 23.
    lia. }
  rewrite shl_align_exponent by (unfold fexp, emin, F32.prec, F32.emax; lia).
  apply binary_round_aux_ge_one; [exact Hd|lia].
Qed.

Lemma binary_round_aux_exponent (prec emax : Z) (s : bool) (mx ex : Z) (lx : location)
    (s' : bool) (m : positive) (e : Z) :
  binary_round_aux prec emax s mx ex lx = S754_finite s' m e -> ex <= e.
Proof.
  unfold binary_round_aux, shr_fexp.
  pose proof (shr_exponent (shr_record_of_loc mx lx) ex
                (fexp prec emax (Zdigits2 mx + ex) - ex)) as H1.
  destruct (shr (shr_record_of_loc mx lx) ex _) as [mrs1 e1]. cbn [snd] in H1.
  set (m2 := round_nearest_even _ _).
  pose proof (shr_exponent (shr_record_of_loc m2 loc_Exact) e1
                (fexp prec emax (Zdigits2 m2 + e1) - e1)) as H2.
  destruct (shr (shr_record_of_loc m2 loc_Exact) e1 _) as [mrs2 e2]. cbn [snd] in H2.
  destruct (shr_m mrs2); [discriminate| |discriminate].
  destruct (e2 <=? emax - prec); [|discriminate].
  intros Heq. injection Heq as _ _ <-. lia.
Qed.

Lemma cMinRms_eq : cMinRms = S754_finite false 9223372 (-63).
Proof. vm_compute. reflexivity. Qed.

(** The square root of a number that is zero or at least 1 is never
    [cMinRms]: the tests [>=] and [>] against [cMinRms] agree on it. *)
Lemma sqrt_threshold (x : float) :
  zero_or_ge_one x = true ->
  F32.leb cMinRms (F32.sqrt x) = F32.ltb cMinRms (F32.sqrt x).
Proof.
  rewrite cMinRms_eq.
  destruct x as [[]|[]| |[] m e]; try discriminate; try (intros _; reflexivity).
  cbn [zero_or_ge_one negb andb]. intros Hx.
  apply andb_true_iff in Hx as [Hd He]. apply Z.eqb_eq in Hd. apply Z.leb_le in He.
  unfold F32.sqrt, SFsqrt, SFsqrt_core_binary, F32.prec, F32.emax. cbn [Zdigits2]. rewrite Hd.
  set (ez := Z.min _ _).
  assert (-23 <= ez) as Hez.
  { subst ez. unfold fexp, emin. rewrite !Z.div2_div.
    assert (1 <= (24 + e + 1) / 2) by (apply Z.div_le_lower_bound; lia).
    assert (-12 <= e / 2) by (apply Z.div_le_lower_bound; lia).
    lia. }
  destruct (Z.sqrtrem _) as [q r].
  destruct (binary_round_aux _ _ _ _ _ _) as [s|s| |s m' e'] eqn:Hr;
    try reflexivity; try (destruct s; reflexivity).
  apply binary_round_aux_exponent in Hr.
  unfold F32.leb, F32.ltb, SFleb, SFltb, SFcompare. destruct s; [reflexivity|].
  replace (-63 ?= e') with Lt by (symmetry; apply Z.compare_lt_iff; lia).
  reflexivity.
Qed.

Lemma load_byte (host : EndiannessT) (raw : list byte) (n : nat) :
  0 <= load host raw 1 n < 256.
Proof.
  unfold load. destruct (take 1 (drop (n * 1) raw)) as [|b [|b' l]] eqn:Hg.
  - destruct host; simpl; lia.
  - assert (0 <= b mod 256 < 256) by (apply Z.mod_pos_bound; lia).
    destruct host; simpl; lia.
  - apply (f_equal length) in Hg. rewrite length_take in Hg. cbn [length] in Hg.
    pose proof (Nat.le_min_l 1 (length (drop (n * 1) raw))). lia.
Qed.

Lemma square_ge_one (z : Z) :
  0 <= z < 256 -> zero_or_ge_one (F32.mul (F32.of_Z z) (F32.of_Z z)) = true.
Proof.
  intros Hz.
  assert (forallb (fun i => zero_or_ge_one
                              (F32.mul (F32.of_Z (Z.of_nat i)) (F32.of_Z (Z.of_nat i))))
            (seq 0 256) = true) as Hall by (vm_compute; reflexivity).
  rewrite forallb_forall in Hall. specialize (Hall (Z.to_nat z)).
  rewrite Z2Nat.id in Hall by lia. apply Hall. apply in_seq. lia.
Qed.

End Threshold.

(** Every sample of a probe window is the conversion of one byte. *)
Lemma probe_sample (c : FormatClassifier) (o n : nat) :
  exists z, (0 <= z < 256)%Z /\ window_at c testFormat 1 o !!! n = F32.of_Z z.
Proof.
  unfold window_at.
  destruct (ReadSamples _ _ _ _ _ _) as [[[raw a] rd]| | |].
  2-4: exists 0%Z; split; [lia|reflexivity].
  destruct (decide (n < cSiglen)) as [Hn|Hn].
  - exists (load (mEnd (mReader c)) raw 1 n). split; [apply load_byte|].
    rewrite list_lookup_total_alt, list_lookup_fmap, lookup_seq_lt by exact Hn.
    reflexivity.
  - exists 0%Z. split; [lia|].
    rewrite list_lookup_total_alt, list_lookup_fmap, lookup_seq_ge by lia. reflexivity.
Qed.

(** The [Rms] of a probe window never equals [cMinRms]: it is 0 or at
    least 1, so it reaches [cMinRms] exactly when it exceeds it. *)
Lemma probe_rms_threshold (c : FormatClassifier) (k : nat) :
  F32.leb cMinRms (probe_rms c k) = F32.ltb cMinRms (probe_rms c k).
Proof.
  rewrite probe_rms_eq. unfold Rms. apply sqrt_threshold.
  apply (for_loop_ind (fun _ acc => zero_or_ge_one acc = true)); [reflexivity|].
  intros n acc _ Hacc.
  destruct (probe_sample c (probe_offset k) n) as (z & Hz & ->).
  apply add_ge_one; [exact Hacc|]. apply square_ge_one. exact Hz.
Qed.

Lemma first_loud_probe_unique (c : FormatClassifier) (i j : nat) :
  first_loud_probe c i -> first_loud_probe c j -> i = j.
Proof.
  intros (_ & Hi & Hli) (_ & Hj & Hlj).
  destruct (Nat.lt_trichotomy i j) as [Hlt|[Heq|Hlt]]; [|exact Heq|].
  - destruct (Hj i Hlt) as [Hs _]. rewrite Hs in Hli. discriminate Hli.
  - destruct (Hi j Hlt) as [Hs _]. rewrite Hs in Hlj. discriminate Hlj.
Qed.

Lemma first_loud_probe_excludes (c : FormatClassifier) (i P : nat) :
  first_loud_probe c i -> search_gives_up c P -> False.
Proof.
  intros (Hfull & Hquiet & Hloud) (Hbefore & Hnans & Hstop).
  assert (P <= i) as Hle.
  { destruct (Nat.le_gt_cases P i) as [H|H]; [exact H|].
    destruct (Hbefore i H) as [_ Hs]. rewrite Hs in Hloud. discriminate Hloud. }
  destruct Hstop as [Hnf|(P' & -> & Hnan)].
  - exact (Hnf (Hfull P Hle)).
  - destruct (Hquiet P') as [_ Hn]; [lia|]. rewrite Hn in Hnan. discriminate Hnan.
Qed.

(** C4.  [FindSignalStart] returns normally.  The probe windows are the
    [cSiglen = 1024] bytes at the offsets
    [cHeaderSkip + k * 32 * 1024], [k = 0, 1, ...], decoded as
    (Uint8, Little), and the [Rms] of a probe is taken over the first 64
    converted floats.  The [Rms] of such a window never equals [cMinRms],
    so the test [rms >= cMinRms] of the code holds exactly when the [Rms]
    exceeds [cMinRms].  When probe [i] is the first whose [Rms] exceeds
    [cMinRms] (after [i] complete windows that do not, and are not NaN),
    [mSignalStart] is [cHeaderSkip + i * 32 * 1024]; when the end of the
    file cuts a probe window short, or an [Rms] is NaN, before that,
    [mSignalStart] is [cHeaderSkip].  One of the two always happens, and
    [mSignalStart >= cHeaderSkip = 1024] in either case. *)
Theorem FindSignalStart_signal_start (c : FormatClassifier) :
  length (mRawBuffer c) = cRawSiglen ->
  length (mSigBuffer c) = cSiglen ->
  exists c',
    FindSignalStart c = Ok c'
    /\ (cHeaderSkip = 1024 /\ cSigSearchGridSize = 32 /\ cSiglen = 1024
        /\ cMinRms = F64.to_float (F64.lit 1 (10 ^ 12)))
    /\ (forall k,
          probe_offset k = cHeaderSkip + k * cSigSearchGridSize * cSiglen
          /\ probe_rms c k = Rms (window_at c (mkClass Uint8 Little) 1 (probe_offset k)) 64
          /\ F32.leb cMinRms (probe_rms c k) = F32.ltb cMinRms (probe_rms c k))
    /\ (forall i, first_loud_probe c i ->
          mSignalStart c' = cHeaderSkip + i * cSigSearchGridSize * cSiglen)
    /\ (forall P, search_gives_up c P -> mSignalStart c' = cHeaderSkip)
    /\ ((exists i, first_loud_probe c i) \/ (exists P, search_gives_up c P))
    /\ cHeaderSkip <= mSignalStart c'.
Proof.
  intros Hraw Hsig.
  destruct (FindSignalStart_spec c Hraw Hsig) as (c' & Heq & _ & Hcases).
  exists c'. split; [exact Heq|]. split; [repeat split|]. split.
  { intros k. split; [unfold probe_offset; lia|].
    split; [apply probe_rms_eq|apply probe_rms_threshold]. }
  destruct Hcases as [(i & Hstart & Hi)|(Hstart & P & HP)].
  - assert (first_loud_probe c i) as Hloud by exact Hi.
    split; [|split; [|split]].
    + intros j Hj. rewrite (first_loud_probe_unique c j i Hj Hloud). exact Hstart.
    + intros P HP. destruct (first_loud_probe_excludes c i P Hloud HP).
    + left. exists i. exact Hloud.
    + rewrite Hstart. lia.
  - assert (search_gives_up c P) as Hstop by exact HP.
    split; [|split; [|split]].
    + intros j Hj. destruct (first_loud_probe_excludes c j P Hj Hstop).
    + intros _ _. exact Hstart.
    + right. exists P. exact Hstop.
    + rewrite Hstart. lia.
Qed.

Lemma FindSignalStart_signal_start_witness :
  let c := mkClassifier classes
             (mkReader (mkFILE (replicate (33 * 1024) 0%Z ++ replicate 1024 1%Z) 0) Little)
             (mkMeter 256 (replicate 256 F32.zero) false (replicate 256 F32.one))
             (replicate cSiglen F32.zero) (replicate cSiglen F32.zero)
             (replicate cSiglen F32.one) (replicate 256 F32.one)
             (replicate cRawSiglen 9%Z) 0 [] [] []
             (replicate 10 F32.zero) (replicate 10 F32.zero)
             (mkClass Int8 Little) 0 in
  first_loud_probe c 1
  /\ exists c',
       FindSignalStart c = Ok c'
       /\ mSignalStart c' = cHeaderSkip + 1 * cSigSearchGridSize * cSiglen.
Proof.
  intros c.
  assert (first_loud_probe c 1) as Hloud.
  { split; [|split].
    - intros k Hk. apply probe_full_iff, Nat.leb_le.
      destruct k as [|[|k]]; [vm_compute; reflexivity|vm_compute; reflexivity|lia].
    - intros k Hk. assert (k = 0) as -> by lia. split; vm_compute; reflexivity.
    - vm_compute. reflexivity. }
  split; [exact Hloud|].
  destruct (FindSignalStart_signal_start c) as (c' & Heq & _ & _ & Hstart & _);
    [reflexivity|reflexivity|].
  exists c'. split; [exact Heq|]. exact (Hstart 1 Hloud).
Defined.

(** ** The band power *)

Lemma elem_of_bin_range (lo hi n : Z) :
  n ∈ bin_range lo hi <-> (lo <= n < hi)%Z.
Proof.
  unfold bin_range. rewrite list_elem_of_fmap. split.
  - intros (k & -> & Hk). apply elem_of_seq in Hk. lia.
  - intros Hn. exists (Z.to_nat (n - lo)). split; [lia|]. apply elem_of_seq. lia.
Qed.

Lemma bin_range_nil (lo hi : Z) : (hi <= lo)%Z -> bin_range lo hi = [].
Proof. intros H. unfold bin_range. by replace (Z.to_nat (hi - lo)) with 0 by lia. Qed.

Lemma bin_range_cons (lo hi : Z) :
  (lo < hi)%Z -> bin_range lo hi = lo :: bin_range (lo + 1) hi.
Proof.
  intros H. unfold bin_range.
  replace (Z.to_nat (hi - lo)) with (S (Z.to_nat (hi - (lo + 1)))) by lia.
  cbn [seq fmap list_fmap]. f_equal; [lia|].
  rewrite <- fmap_S_seq, <- list_fmap_compose. apply list_fmap_ext.
  intros _ k _. cbn. lia.
Qed.

Lemma bin_range_app (lo k hi : Z) :
  (lo <= k <= hi)%Z -> bin_range lo hi = bin_range lo k ++ bin_range k hi.
Proof.
  intros H. unfold bin_range.
  replace (Z.to_nat (hi - lo)) with (Z.to_nat (k - lo) + Z.to_nat (hi - k)) by lia.
  rewrite seq_app, fmap_app. f_equal. cbn [Nat.add].
  assert (seq (Z.to_nat (k - lo)) (Z.to_nat (hi - k))
          = Nat.add (Z.to_nat (k - lo)) <$> seq 0 (Z.to_nat (hi - k))) as ->
    by (rewrite fmap_add_seq; f_equal; lia).
  rewrite <- list_fmap_compose.
  apply list_fmap_ext. intros _ j _. cbn. lia.
Qed.

Lemma for_int_bin_range {S : Type} (lo hi : Z) (body : Z -> S -> result S) (s : S) :
  for_int lo hi body s = fold_left (fun r n => s ← r; body n s) (bin_range lo hi) (Ok s).
Proof.
  unfold for_int, bin_range. generalize (seq 0 (Z.to_nat (hi - lo))). intros l.
  generalize (Ok s). induction l as [|k l IH]; intros r; [reflexivity|]. simpl. apply IH.
Qed.

Lemma fold_bind_Undef {S : Type} (body : Z -> S -> result S) (l : list Z) :
  fold_left (fun r n => s ← r; body n s) l Undef = Undef.
Proof. induction l as [|n l IH]; [reflexivity|exact IH]. Qed.

Lemma at_int_inside (len : Z) (buf : list float) (n : Z) :
  (0 <= n < len)%Z -> at_int len buf n = Ok (buf !!! Z.to_nat n).
Proof.
  intros H. unfold at_int.
  replace (0 <=? n)%Z with true by (symmetry; apply Z.leb_le; lia).
  replace (n <? len)%Z with true by (symmetry; apply Z.ltb_lt; lia).
  reflexivity.
Qed.

Lemma at_int_outside (len : Z) (buf : list float) (n : Z) :
  (n < 0 \/ len <= n)%Z -> at_int len buf n = Undef.
Proof.
  intros H. unfold at_int.
  destruct (0 <=? n)%Z eqn:E1; [|reflexivity].
  destruct (n <? len)%Z eqn:E2; [|reflexivity].
  apply Z.leb_le in E1. apply Z.ltb_lt in E2. lia.
Qed.

Lemma CalcBinPower_fold (m : SpecPowerMeter) (sig_f_r sig_f_i : list float) (lo hi : Z) :
  CalcBinPower m sig_f_r sig_f_i lo hi
  = fold_left (fun r n => pwr ← r; CalcBinPower_body m sig_f_r sig_f_i n pwr)
              (bin_range lo hi) (Ok F32.zero).
Proof.
  unfold CalcBinPower, CalcBinPower_body. rewrite <- for_int_bin_range.
  destruct (mEqEnabled m); reflexivity.
Qed.

Lemma CalcBinPower_body_inside (m : SpecPowerMeter) (sig_f_r sig_f_i : list float)
    (n : Z) (pwr : float) :
  (0 <= n < mSigLen m)%Z ->
  CalcBinPower_body m sig_f_r sig_f_i n pwr
  = Ok (F32.add pwr (bin_power m sig_f_r sig_f_i n)).
Proof.
  intros H. unfold CalcBinPower_body, bin_power.
  rewrite !at_int_inside by exact H. by destruct (mEqEnabled m).
Qed.

Lemma CalcBinPower_body_outside (m : SpecPowerMeter) (sig_f_r sig_f_i : list float)
    (n : Z) (pwr : float) :
  (n < 0 \/ mSigLen m <= n)%Z -> CalcBinPower_body m sig_f_r sig_f_i n pwr = Undef.
Proof.
  intros H. unfold CalcBinPower_body.
  rewrite (at_int_outside _ sig_f_r) by exact H. by destruct (mEqEnabled m).
Qed.

Lemma CalcBinPower_inside_from (m : SpecPowerMeter) (sig_f_r sig_f_i : list float)
    (l : list Z) (acc : float) :
  (forall n, n ∈ l -> (0 <= n < mSigLen m)%Z) ->
  fold_left (fun r n => pwr ← r; CalcBinPower_body m sig_f_r sig_f_i n pwr) l (Ok acc)
  = Ok (fold_left (fun pwr n => F32.add pwr (bin_power m sig_f_r sig_f_i n)) l acc).
Proof.
  revert acc. induction l as [|n l IH]; intros acc Hin; [reflexivity|].
  cbn [fold_left]. rewrite bind_Ok, CalcBinPower_body_inside by (apply Hin; left).
  apply IH. intros k Hk. apply Hin. by right.
Qed.

(** Inside the arrays the loop adds up the bin powers in increasing
    order. *)
Lemma CalcBinPower_eq (m : SpecPowerMeter) (sig_f_r sig_f_i : list float) (lo hi : Z) :
  (0 <= lo)%Z -> (hi <= mSigLen m)%Z ->
  CalcBinPower m sig_f_r sig_f_i lo hi
  = Ok (fold_left (fun pwr n => F32.add pwr (bin_power m sig_f_r sig_f_i n))
                  (bin_range lo hi) F32.zero).
Proof.
  intros Hlo Hhi. rewrite CalcBinPower_fold. apply CalcBinPower_inside_from.
  intros n Hn. apply elem_of_bin_range in Hn. lia.
Qed.

(** An empty range of bins reads nothing. *)
Lemma CalcBinPower_empty (m : SpecPowerMeter) (sig_f_r sig_f_i : list float) (lo hi : Z) :
  (hi <= lo)%Z -> CalcBinPower m sig_f_r sig_f_i lo hi = Ok F32.zero.
Proof. intros H. by rewrite CalcBinPower_fold, bin_range_nil. Qed.

(** A range that is not empty and leaves [0, N) reads outside the
    arrays. *)
Lemma CalcBinPower_outside (m : SpecPowerMeter) (sig_f_r sig_f_i : list float) (lo hi : Z) :
  (lo < hi)%Z -> (lo < 0 \/ mSigLen m < hi)%Z ->
  CalcBinPower m sig_f_r sig_f_i lo hi = Undef.
Proof.
  intros Hlt Hout. rewrite CalcBinPower_fold.
  set (k := if decide (0 <= lo < mSigLen m)%Z then mSigLen m else lo).
  assert (lo <= k < hi)%Z as Hk by (subst k; case_decide; lia).
  assert (k < 0 \/ mSigLen m <= k)%Z as Hbad by (subst k; case_decide; lia).
  rewrite (bin_range_app lo k hi) by lia. rewrite fold_left_app.
  rewrite CalcBinPower_inside_from.
  - rewrite (bin_range_cons k hi) by lia. cbn [fold_left].
    rewrite bind_Ok, CalcBinPower_body_outside by exact Hbad.
    apply fold_bind_Undef.
  - intros n Hn. apply elem_of_bin_range in Hn. subst k. case_decide; lia.
Qed.

Lemma CalcBins_requests (m : SpecPowerMeter) :
  mSigLen m = 256%Z ->
  CalcBins m (F32.lit 25 100) (F32.lit 5 10) = Ok (0, 128)%Z
  /\ CalcBins m (F32.lit 45 100) (F32.lit 1 10) = Ok (102, 128)%Z
  /\ CalcBins m (F32.lit 40 100) (F32.lit 2 10) = Ok (76, 128)%Z.
Proof.
  intros HN. unfold CalcBins, Freq2Bin. rewrite HN.
  split; [|split]; vm_compute; reflexivity.
Qed.

Section MeterFacts.
Variable FFT : Z -> bool -> list float -> list float -> list float * list float.

(** C3, as amended.  [Freq2Bin] maps a frequency [f] to
    [floor((double) f * N) % N], where [%] is the remainder of C, which
    has the sign of the dividend: the residue modulo [N] when the product
    is not negative, and minus the residue of the negated product, zero
    or negative, when it is negative.  [CalcPower] takes [loBin] and
    [hiBin] from the two band edges [fc - bw / 2] and [fc + bw / 2],
    replaces [hiBin] by [loBin + 1] when, and only when, the two are
    equal, and, when [0 <= loBin] and [hiBin <= N], returns the squared
    magnitudes of the spectrum, added up over the bins [n] with
    [loBin <= n < hiBin] in increasing order; a range of bins that is not
    empty and leaves [0, N) makes it read outside the arrays of the meter.
    For [N = 256] the three band requests of the classifier give the bins
    [0, 128), [102, 128) and [76, 128), so [0 <= loBin < hiBin <= N] for
    each.  The arrays of the meter hold [N] elements each. *)
Theorem CalcPower_band (m : SpecPowerMeter) (sig : list float) (fc bw : float) :
  let N := mSigLen m in
  let half := F32.div bw (F32.of_Z 2) in
  (forall f z,
     F64.floor_to_int (F64.mul (F64.of_float f) (F64.of_Z N)) = Ok z ->
     Freq2Bin m f = Ok (Z.rem z N)
     /\ ((0 < N)%Z ->
         Z.rem z N = if (0 <=? z)%Z then (z mod N)%Z else (- ((- z) mod N))%Z))
  /\ (forall loBin hiBin,
        Freq2Bin m (F32.sub fc half) = Ok loBin ->
        Freq2Bin m (F32.add fc half) = Ok hiBin ->
        exists hiBin',
          CalcBins m fc bw = Ok (loBin, hiBin')
          /\ (loBin = hiBin -> hiBin' = (loBin + 1)%Z)
          /\ (loBin <> hiBin -> hiBin' = hiBin)
          /\ (forall n, n ∈ bin_range loBin hiBin' <-> (loBin <= n < hiBin')%Z)
          /\ (length (FFT N false sig (mSigI m)).1 = Z.to_nat N ->
              length (FFT N false sig (mSigI m)).2 = Z.to_nat N ->
              length (mEqMask m) = Z.to_nat N ->
              (0 <= loBin)%Z -> (hiBin' <= N)%Z ->
              CalcPower FFT m sig fc bw
              = Ok (let '(mSigFR, mSigFI) := FFT N false sig (mSigI m) in
                    fold_left (fun pwr n => F32.add pwr (bin_power m mSigFR mSigFI n))
                              (bin_range loBin hiBin') F32.zero))
          /\ ((loBin < hiBin')%Z -> (loBin < 0 \/ N < hiBin')%Z ->
              CalcPower FFT m sig fc bw = Undef))
  /\ (N = 256%Z ->
      CalcBins m (F32.lit 25 100) (F32.lit 5 10) = Ok (0, 128)%Z
      /\ CalcBins m (F32.lit 45 100) (F32.lit 1 10) = Ok (102, 128)%Z
      /\ CalcBins m (F32.lit 40 100) (F32.lit 2 10) = Ok (76, 128)%Z
      /\ forall fc' bw', (fc', bw') ∈ band_requests ->
           exists loBin hiBin,
             CalcBins m fc' bw' = Ok (loBin, hiBin)
             /\ (0 <= loBin < hiBin)%Z /\ (hiBin <= N)%Z).
Proof.
  intros N half. split; [|split].
  - intros f z Hz. split.
    + unfold Freq2Bin. fold N. rewrite Hz. reflexivity.
    + intros HN. destruct (0 <=? z)%Z eqn:E; [apply Z.leb_le in E|apply Z.leb_gt in E].
      * apply Z.rem_mod_nonneg; lia.
      * replace z with (- - z)%Z at 1 by lia.
        rewrite Z.rem_opp_l by lia. f_equal. apply Z.rem_mod_nonneg; lia.
  - intros loBin hiBin Hlo Hhi.
    exists (if decide (loBin = hiBin) then (loBin + 1)%Z else hiBin).
    assert (CalcBins m fc bw
            = Ok (loBin, if decide (loBin = hiBin) then (loBin + 1)%Z else hiBin)) as Hbins.
    { unfold CalcBins. fold half. rewrite Hlo, Hhi. reflexivity. }
    split; [exact Hbins|]. split; [|split; [|split; [|split]]].
    + intros Heq. rewrite decide_True by exact Heq. reflexivity.
    + intros Hne. rewrite decide_False by exact Hne. reflexivity.
    + intros n. apply elem_of_bin_range.
    + intros _ _ _ H0 HN. unfold CalcPower. rewrite Hbins, bind_Ok. fold N.
      destruct (FFT N false sig (mSigI m)) as [mSigFR mSigFI].
      apply CalcBinPower_eq; assumption.
    + intros Hlt Hout. unfold CalcPower. rewrite Hbins, bind_Ok. fold N.
      destruct (FFT N false sig (mSigI m)) as [mSigFR mSigFI].
      apply CalcBinPower_outside; assumption.
  - intros HN.
    destruct (CalcBins_requests m HN) as (H1 & H2 & H3).
    split; [exact H1|]. split; [exact H2|]. split; [exact H3|].
    intros fc' bw' Hin. unfold band_requests in Hin.
    rewrite !elem_of_cons, elem_of_nil in Hin.
    destruct Hin as [Heq|[Heq|[Heq|[]]]]; injection Heq as -> ->.
    + exists 0%Z, 128%Z. split; [exact H1|]. rewrite HN. lia.
    + exists 102%Z, 128%Z. split; [exact H2|]. rewrite HN. lia.
    + exists 76%Z, 128%Z. split; [exact H3|]. rewrite HN. lia.
Qed.

End MeterFacts.

Lemma CalcPower_band_witness :
  let m := mkMeter 256 (replicate 256 F32.zero) true (replicate 256 F32.one) in
  let FFT (_ : Z) (_ : bool) (re im : list float) := (re, im) in
  CalcBins m (F32.lit 45 100) (F32.lit 1 10) = Ok (102, 128)%Z
  /\ CalcPower FFT m (replicate 256 F32.one) (F32.lit 45 100) (F32.lit 1 10)
     = Ok (F32.of_Z 26).
Proof.
  intros m FFT.
  destruct (CalcPower_band FFT m (replicate 256 F32.one) (F32.lit 45 100) (F32.lit 1 10))
    as (_ & Hsum & Hbins).
  destruct (Hbins eq_refl) as (_ & H2 & _).
  split; [exact H2|].
  destruct (Hsum 102%Z 128%Z) as (hi & Hb & _ & Hne & _ & Hp & _);
    [vm_compute; reflexivity|vm_compute; reflexivity|].
  rewrite (Hne ltac:(lia)) in Hp.
  rewrite Hp by (reflexivity || (cbn; lia)). vm_compute. reflexivity.
Defined.

(** C3 as stated fails for a band whose lower edge is negative: for
    [(fc, bw) = (0, 0.2)] and [N = 256] the lower edge is [-0.1], the
    floor of [-0.1 * 256] is [-26], and [Freq2Bin] returns [-26], not the
    residue [230].  [CalcPower] then runs over the bins from [-26] to
    [24] and reads outside the arrays. *)
Lemma Freq2Bin_negative_edge :
  let m := mkMeter 256 (replicate 256 F32.zero) false (replicate 256 F32.one) in
  let FFT (_ : Z) (_ : bool) (re im : list float) := (re, im) in
  let fc := F32.zero in
  let bw := F32.lit 2 10 in
  let edge := F32.sub fc (F32.div bw (F32.of_Z 2)) in
  F64.floor_to_int (F64.mul (F64.of_float edge) (F64.of_Z (mSigLen m))) = Ok (-26)%Z
  /\ ((-26) mod mSigLen m = 230)%Z
  /\ Freq2Bin m edge = Ok (-26)%Z
  /\ CalcBins m fc bw = Ok (-26, 25)%Z
  /\ CalcPower FFT m (replicate 256 F32.one) fc bw = Undef.
Proof.
  intros m FFT fc bw edge.
  split; [vm_compute; reflexivity|]. split; [reflexivity|].
  split; [vm_compute; reflexivity|]. split; vm_compute; reflexivity.
Qed.

(** ** The run over the ten classes *)

Lemma Preprocess_length {F : Type} `{Arith F} (sig aux win : list F) :
  length (Preprocess sig aux win).1 = length sig
  /\ length (Preprocess sig aux win).2 = length aux.
Proof.
  unfold Preprocess.
  pose proof (FilterPolyphase_length sig aux win cPolyTaps cSiglen) as [H1 H2].
  destruct (FilterPolyphase sig aux win cPolyTaps cSiglen) as [sig' aux'].
  cbn [fst snd] in *. split; [exact H1|].
  rewrite Div_length, Sub_length. exact H2.
Qed.

Section RunFacts.
Variable FFT : Z -> bool -> list float -> list float -> list float * list float.

Lemma CalcPower_requests (m : SpecPowerMeter) (sig : list float) :
  mSigLen m = 256%Z ->
  is_Ok (CalcPower FFT m sig (F32.lit 25 100) (F32.lit 5 10))
  /\ is_Ok (CalcPower FFT m sig (F32.lit 45 100) (F32.lit 1 10))
  /\ is_Ok (CalcPower FFT m sig (F32.lit 40 100) (F32.lit 2 10)).
Proof.
  intros HN. destruct (CalcBins_requests m HN) as (H1 & H2 & H3).
  unfold CalcPower. rewrite H1, H2, H3, !bind_Ok.
  destruct (FFT (mSigLen m) false sig (mSigI m)) as [re im].
  split; [|split]; eexists; apply CalcBinPower_eq; lia.
Qed.

Lemma Run_mono_ready (n : nat) (c : FormatClassifier) :
  Run_ready c -> exists c', Run_mono FFT n c = Ok c' /\ Run_ready c'.
Proof.
  intros (Hcls & Hraw & Hsig & Haux & Hlen). unfold Run_mono.
  destruct (ReadSignal_spec c (mClasses c !!! n) 1) as (k & c1 & Heq & _ & Hframe & _);
    [lia|rewrite Hraw; unfold cRawSiglen; lia|exact Hsig|exact Haux|].
  rewrite Heq, bind_Ok. cbv beta iota. clear Heq.
  destruct Hframe as (Hmem & _ & _ & Hlraw & Hlsig & Hlaux).
  destruct Hmem as (Hc1 & Hm1 & _).
  pose proof (Preprocess_length (mSigBuffer c1) (mAuxBuffer c1) (mWinBuffer c1)) as [Hp1 Hp2].
  destruct (Preprocess (mSigBuffer c1) (mAuxBuffer c1) (mWinBuffer c1)) as [sig aux].
  cbn [fst snd] in Hp1, Hp2. simpl_members.
  assert (mSigLen (mMeter c1) = 256%Z) as HN by (rewrite Hm1, Hlen; reflexivity).
  destruct (CalcPower_requests (mMeter c1) aux HN) as ([pLo ->] & [pHiM ->] & _).
  rewrite !bind_Ok. simpl_members. eexists. split; [reflexivity|].
  unfold Run_ready. simpl_members.
  split; [congruence|]. split; [congruence|]. split; [congruence|]. split; congruence.
Qed.

Lemma Run_stereo_ready (n : nat) (c : FormatClassifier) :
  Run_ready c -> exists c', Run_stereo FFT n c = Ok c' /\ Run_ready c'.
Proof.
  intros (Hcls & Hraw & Hsig & Haux & Hlen). unfold Run_stereo.
  destruct (ReadSignal_spec c (mClasses c !!! n) 2) as (k & c1 & Heq & _ & Hframe & _);
    [lia|rewrite Hraw; unfold cRawSiglen; lia|exact Hsig|exact Haux|].
  rewrite Heq, bind_Ok. cbv beta iota. clear Heq.
  destruct Hframe as (Hmem & _ & _ & Hlraw & Hlsig & Hlaux).
  destruct Hmem as (Hc1 & Hm1 & _).
  pose proof (Preprocess_length (mSigBuffer c1) (mAuxBuffer c1) (mWinBuffer c1)) as [Hp1 Hp2].
  destruct (Preprocess (mSigBuffer c1) (mAuxBuffer c1) (mWinBuffer c1)) as [sig aux].
  cbn [fst snd] in Hp1, Hp2. simpl_members.
  assert (mSigLen (mMeter c1) = 256%Z) as HN by (rewrite Hm1, Hlen; reflexivity).
  destruct (CalcPower_requests (mMeter c1) aux HN) as (_ & _ & [pHiS ->]).
  rewrite !bind_Ok. simpl_members. eexists. split; [reflexivity|].
  unfold Run_ready. simpl_members.
  split; [congruence|]. split; [congruence|]. split; [congruence|]. split; congruence.
Qed.

(** [Run] returns: its result is [Run_result] of the state that the two
    loops over the ten classes leave. *)
Lemma Run_returns (c : FormatClassifier) :
  Run_ready c -> exists c1, Run FFT c = Ok (Run_result c1) /\ mClasses c1 = classes.
Proof.
  intros (Hcls & Hraw & Hsig & Haux & Hlen). unfold Run. simpl_members.
  set (c0 := set_mMeter _ _).
  assert (Run_ready c0) as H0.
  { subst c0. unfold Run_ready, EnableEqualizer. simpl_members. cbn [mSigLen]. tauto. }
  destruct (for_loopM_ind (fun _ c => Run_ready c) (length (mClasses c)) (Run_mono FFT) c0 H0)
    as (c1 & -> & H1).
  { intros n s _ Hs. apply Run_mono_ready. exact Hs. }
  rewrite bind_Ok. cbv beta.
  set (c2 := set_mMeter _ c1).
  assert (Run_ready c2) as H2.
  { subst c2. destruct H1 as (? & ? & ? & ? & ?).
    unfold Run_ready, DisableEqualizer. simpl_members. cbn [mSigLen]. tauto. }
  change (mClasses c2) with (mClasses c1).
  destruct (for_loopM_ind (fun _ c => Run_ready c) (length (mClasses c1)) (Run_stereo FFT) c2 H2)
    as (c3 & -> & H3).
  { intros n s _ Hs. apply Run_stereo_ready. exact Hs. }
  rewrite bind_Ok. exists c3. split; [reflexivity|]. exact (proj1 H3).
Qed.

End RunFacts.

Lemma Max_returns_Max (in_ : list float) (len : nat) :
  Max_returns in_ len (Max in_ len).1 (Max in_ len).2.
Proof.
  split; [apply Max_spec|]. split.
  - intros (j & Hj & Hlt). destruct (Max_attained in_ len j Hj Hlt) as (H1 & H2 & _).
    exact (conj H1 H2).
  - intros Hall. rewrite (Max_degenerate in_ len Hall). split; reflexivity.
Qed.

Lemma Run_result_members (c : FormatClassifier) :
  mMonoFeat (Run_result c) = mMonoFeat c /\ mStereoFeat (Run_result c) = mStereoFeat c.
Proof.
  unfold Run_result.
  destruct (Max (mMonoFeat c) _) as [monoMax midx].
  destruct (Max (mStereoFeat c) _) as [stereoMax sidx].
  destruct (F32.ltb stereoMax monoMax); split; reflexivity.
Qed.

(** A state in which the claim as stated fails: the first mono feature is
    1, every stereo feature is NaN.  [monoFeat[midx] > stereoFeat[sidx]]
    is false, and the result is mono. *)
Lemma Run_result_stereo_all_nan :
  let c := mkClassifier classes (mkReader (mkFILE [] 0) Little)
             (mkMeter 256 (replicate 256 F32.zero) false (replicate 256 F32.one))
             (replicate cSiglen F32.zero) (replicate cSiglen F32.zero)
             (replicate cSiglen F32.one) (replicate 256 F32.one)
             (replicate cRawSiglen 0%Z) cHeaderSkip [] [] []
             (F32.one :: replicate 9 F32.zero) (replicate 10 S754_nan)
             (mkClass Int8 Little) 0 in
  let midx := (Max (mMonoFeat c) 10).2 in
  let sidx := (Max (mStereoFeat c) 10).2 in
  F32.ltb (mStereoFeat c !!! sidx) (mMonoFeat c !!! midx) = false
  /\ mResultChannels (Run_result c) = 1%Z
  /\ mResultFormat (Run_result c) = classes !!! midx
  /\ mResultChannels (Run_result c) <> 2%Z.
Proof.
  vm_compute. split; [reflexivity|]. split; [reflexivity|]. split; [reflexivity|].
  discriminate.
Qed.

Section Decision.
Variable FFT : Z -> bool -> list float -> list float -> list float * list float.

(** C2, as amended.  [Run] returns.  With [(monoMax, midx)] and
    [(stereoMax, sidx)] what [Max] returns for the ten mono and the ten
    stereo features: when [monoMax > stereoMax] the result is class [midx]
    with 1 channel, and otherwise class [sidx] with 2 channels, so that
    equal maxima give stereo.  The test is [monoFeat[midx] >
    stereoFeat[sidx]] whenever some stereo feature exceeds [-FLT_MAX].
    Whatever the features are, the result is one of the ten classes, with
    1 or 2 channels. *)
Theorem Run_decision (c : FormatClassifier) :
  Run_ready c ->
  exists c',
    Run FFT c = Ok c'
    /\ let mono := mMonoFeat c' in
       let stereo := mStereoFeat c' in
       let monoMax := (Max mono 10).1 in
       let midx := (Max mono 10).2 in
       let stereoMax := (Max stereo 10).1 in
       let sidx := (Max stereo 10).2 in
       Max_returns mono 10 monoMax midx
       /\ Max_returns stereo 10 stereoMax sidx
       /\ (midx < 10 /\ sidx < 10)
       /\ (F32.ltb stereoMax monoMax = true ->
           mResultFormat c' = classes !!! midx /\ mResultChannels c' = 1%Z)
       /\ (F32.ltb stereoMax monoMax = false ->
           mResultFormat c' = classes !!! sidx /\ mResultChannels c' = 2%Z)
       /\ (F32.eqb monoMax stereoMax = true -> mResultChannels c' = 2%Z)
       /\ ((exists j, j < 10 /\ F32.ltb (F32.opp F32.FLT_MAX) (stereo !!! j) = true) ->
           F32.ltb stereoMax monoMax = F32.ltb (stereo !!! sidx) (mono !!! midx))
       /\ mResultFormat c' ∈ classes
       /\ (mResultChannels c' = 1%Z \/ mResultChannels c' = 2%Z).
Proof.
  intros Hready. destruct (Run_returns FFT c Hready) as (c1 & Heq & Hcls).
  exists (Run_result c1). split; [exact Heq|].
  destruct (Run_result_members c1) as [-> ->].
  pose proof (Run_result_spec c1 Hcls) as (Hidx & Hmono & Hstereo & Htie & Hsame & Hin & Hch).
  cbv zeta.
  split; [apply Max_returns_Max|]. split; [apply Max_returns_Max|]. split; [exact Hidx|].
  split; [intros Hlt; destruct (Hmono Hlt) as [H1 H2]; exact (conj H2 H1)|].
  split; [intros Hlt; destruct (Hstereo Hlt) as [H1 H2]; exact (conj H2 H1)|].
  split; [exact Htie|]. split; [exact Hsame|]. split; [exact Hin|exact Hch].
Qed.

End Decision.

Lemma Run_decision_witness :
  let c := mkClassifier classes (mkReader (mkFILE (replicate 3000 7%Z) 0) Little)
             (mkMeter 256 (replicate 256 F32.zero) false (replicate 256 F32.one))
             (replicate cSiglen F32.zero) (replicate cSiglen F32.zero)
             (replicate cSiglen F32.one) (replicate 256 F32.one)
             (replicate cRawSiglen 0%Z) cHeaderSkip [] [] []
             (replicate 10 F32.zero) (replicate 10 F32.zero)
             (mkClass Int8 Little) 0 in
  let FFT (_ : Z) (_ : bool) (re im : list float) := (re, im) in
  exists c',
    Run FFT c = Ok c'
    /\ mResultFormat c' ∈ classes
    /\ (mResultChannels c' = 1%Z \/ mResultChannels c' = 2%Z).
Proof.
  intros c FFT.
  destruct (Run_decision FFT c) as (c' & Heq & _ & _ & _ & _ & _ & _ & _ & Hin & Hch).
  { split; [reflexivity|]. split; [reflexivity|]. split; [reflexivity|].
    split; reflexivity. }
  exists c'. exact (conj Heq (conj Hin Hch)).
Defined.

(** * Further properties *)

(** ** What a read returns and stores *)

Module CountFacts.

Lemma div_lt_iff (x W m : nat) : 0 < W -> m < x / W <-> (m + 1) * W <= x.
Proof.
  intros HW. split.
  - intros Hm. pose proof (Nat.Div0.mul_div_le x W). nia.
  - intros Hm. assert (m + 1 <= x / W); [|lia].
    apply Nat.div_le_lower_bound; lia.
Qed.

Lemma samples_available_lt (L p W s len n : nat) :
  0 < W -> 1 <= s ->
  n < samples_available L p W s len <-> n < len /\ p + n * (s * W) + W <= L.
Proof.
  intros HW Hs. unfold samples_available.
  assert (0 < s * W) as HsW by nia.
  destruct (decide (p + W <= L)) as [Hp|Hp]; [|nia].
  assert (n < (L - p - W) / (s * W) + 1 <-> n * (s * W) <= L - p - W) as Hq.
  { split.
    - intros Hn. pose proof (Nat.Div0.mul_div_le (L - p - W) (s * W)). nia.
    - intros Hn. assert (n <= (L - p - W) / (s * W)); [|lia].
      apply Nat.div_le_lower_bound; lia. }
  lia.
Qed.

Lemma samples_available_le (L p W s len : nat) : samples_available L p W s len <= len.
Proof. unfold samples_available. case_decide; lia. Qed.

Lemma lt_ext (a b : nat) : (forall m, m < a <-> m < b) -> a = b.
Proof. intros H. pose proof (H a). pose proof (H b). lia. Qed.

Lemma samples_available_full (L p W s len : nat) :
  0 < W -> 1 <= s ->
  read_full L p W s len <-> samples_available L p W s len = len.
Proof.
  intros HW Hs. unfold read_full. split.
  - intros Hfull. apply lt_ext. intros m. rewrite samples_available_lt by done.
    split; [tauto|]. intros Hm. split; [done|].
    destruct Hfull as [->|Hfull]; [lia|].
    assert (m * (s * W) <= (len - 1) * (s * W)) by (apply Nat.mul_le_mono_r; lia). lia.
  - intros Heq. destruct len as [|len]; [by left|]. right.
    assert (len < samples_available L p W s (S len)) as Hlt by lia.
    apply samples_available_lt in Hlt; [|done..].
    replace (S len - 1) with len by lia. lia.
Qed.

Lemma samples_available_S (L p W s n : nat) :
  0 < W -> 1 <= s ->
  samples_available L p W s (S n)
  = samples_available L p W s n
    + (if decide (read_full L p W s n /\ p + n * (s * W) + W <= L) then 1 else 0).
Proof.
  intros HW Hs. case_decide as Hc.
  - destruct Hc as [Hfull Hn]. apply samples_available_full in Hfull as ->; [|done..].
    pose proof (samples_available_le L p W s (S n)).
    assert (n < samples_available L p W s (S n)); [|lia].
    apply samples_available_lt; [done..|]. lia.
  - rewrite Nat.add_0_r. apply lt_ext. intros m.
    rewrite !samples_available_lt by done. split; [|lia].
    intros [Hm Hc']. split; [|done].
    destruct (decide (m = n)) as [->|]; [|lia]. exfalso. apply Hc. split; [|done].
    unfold read_full. destruct n as [|n]; [by left|]. right.
    replace (S n - 1) with n by lia. nia.
Qed.

Lemma Read_S (buf : list byte) (W n s : nat) (f : FILE) :
  1 < s ->
  Read buf W (S n) s f
  = let r := Read buf W n s f in
    let r' := fread r.1.1 (n * W) W 1 r.2 in
    (r'.1.1, r.1.2 + r'.1.2, fseek_cur ((s - 1) * W) r'.2).
Proof.
  intros Hs. unfold Read. rewrite !decide_True by done.
  rewrite for_loop_S by lia.
  destruct (for_loop 0 n _ (buf, 0, f)) as [[b a] g]. cbn [fst snd].
  by destruct (fread b (n * W) W 1 g) as [[b' k] g'].
Qed.

(** [Read] returns the number of complete samples. *)
Lemma Read_count (buf : list byte) (W len s : nat) (f : FILE) :
  0 < W -> 1 <= s ->
  (Read buf W len s f).1.2 = samples_available (length (fdata f)) (fpos f) W s len.
Proof.
  intros HW Hs. destruct (decide (1 < s)) as [Hstride|Hstride].
  - induction len as [|n IH].
    + unfold Read. rewrite decide_True, for_loop_nil by done. cbn [fst snd].
      pose proof (samples_available_le (length (fdata f)) (fpos f) W s 0). lia.
    + rewrite Read_S by done. cbv zeta. cbn [fst snd]. rewrite IH.
      rewrite samples_available_S by done. f_equal.
      destruct (Read_spec buf W n s f HW Hs) as (_ & Hdata & _ & Hfull & Hshort).
      destruct (fread_rest (Read buf W n s f).1.1 (n * W) W 1 (Read buf W n s f).2)
        as (_ & -> & _).
      rewrite Hdata, Nat.mul_1_r.
      destruct (decide (read_full (length (fdata f)) (fpos f) W s n)) as [Hf|Hf].
      * destruct (Hfull Hf) as [_ ->]. case_decide as Hc.
        -- rewrite Nat.min_l by lia. apply Nat.div_same. lia.
        -- apply Nat.div_small.
           assert (~ fpos f + n * (s * W) + W <= length (fdata f)) by tauto. lia.
      * destruct (Hshort Hf) as [_ Hpos]. rewrite decide_False by tauto.
        apply Nat.div_small. lia.
  - assert (s = 1) as -> by lia. unfold Read. rewrite decide_False by done.
    destruct (fread_rest buf 0 W len f) as (_ & -> & _).
    apply lt_ext. intros m. rewrite div_lt_iff, samples_available_lt by done. nia.
Qed.

Lemma ReadSamples_count (rd : MultiFormatReader) (buf : list byte) (len s : nat)
    (fmt : FormatT) (end_ : EndiannessT) (b : list byte) (a : nat)
    (rd' : MultiFormatReader) :
  1 <= s ->
  ReadSamples rd buf len s fmt end_ = Ok (b, a, rd') ->
  a = samples_available (length (fdata (mpFid rd))) (fpos (mpFid rd)) (width fmt) s len.
Proof.
  intros Hs. rewrite ReadSamples_eq.
  pose proof (Read_count buf (width fmt) len s (mpFid rd) (proj1 (width_pos fmt)) Hs) as Hc.
  destruct (Read buf (width fmt) len s (mpFid rd)) as [[b0 a0] f0]. cbn [fst snd] in Hc.
  intros [= _ <- _]. exact Hc.
Qed.

End CountFacts.

Module ValueFacts.
Import CountFacts.

Lemma rev_reverse {A : Type} (l : list A) : rev l = reverse l.
Proof. apply rev_alt. Qed.

(** The group of sample [n] in the buffer that [ReadSamples] returns: the
    bytes of the sample in the file, reversed when the read swaps. *)
Lemma ReadSamples_group (rd : MultiFormatReader) (buf : list byte) (len s : nat)
    (fmt : FormatT) (end_ : EndiannessT) (b : list byte) (a : nat)
    (rd' : MultiFormatReader) (n : nat) :
  1 <= s -> len * width fmt <= length buf ->
  ReadSamples rd buf len s fmt end_ = Ok (b, a, rd') ->
  n < a ->
  let W := width fmt in
  let h := take W (drop (fpos (mpFid rd) + n * (s * W)) (fdata (mpFid rd))) in
  length h = W
  /\ take W (drop (n * W) b) = if bool_decide (mEnd rd <> end_) then rev h else h.
Proof.
  intros Hs Hbuf Heq Hn W h.
  pose proof (ReadSamples_count rd buf len s fmt end_ b a rd' Hs Heq) as Ha.
  destruct (width_pos fmt) as [HW _]. fold W in HW, Hbuf.
  rewrite Ha in Hn. apply samples_available_lt in Hn as [Hlen Hcomplete]; [|done..].
  fold W in Hcomplete.
  destruct (ReadSamples_spec rd buf len s fmt end_ Hs Hbuf)
    as (b0 & a0 & f0 & Heq0 & Hl & _ & Hlook & _).
  rewrite Heq in Heq0. injection Heq0 as <- _ _. fold W in Hlook.
  set (p := fpos (mpFid rd)) in *. set (L := length (fdata (mpFid rd))) in *.
  assert (length h = W) as Hh.
  { subst h. rewrite length_take, length_drop. fold L. lia. }
  split; [exact Hh|].
  assert (forall k, k < W ->
            file_index p W s (n * W + k) = p + n * (s * W) + k) as Hidx.
  { intros k Hk. unfold file_index.
    destruct (div_mod_group W n (n * W + k)) as [-> ->]; lia. }
  assert (n * W + W <= len * W) as Hgroup by nia.
  apply list_eq. intros k. rewrite lookup_take, lookup_drop, Hlook.
  destruct (decide (k < W)) as [Hk|Hk].
  - unfold swap_index. destruct (bool_decide (mEnd rd <> end_)); cbn [andb].
    + rewrite bool_decide_eq_true_2 by lia.
      rewrite mirror_group by done. rewrite Hidx by lia.
      rewrite decide_True by (fold L; lia).
      rewrite rev_reverse, reverse_lookup by lia. rewrite Hh.
      subst h. rewrite lookup_take, decide_True, lookup_drop by lia. f_equal. lia.
    + rewrite Hidx by lia. rewrite decide_True by (fold L; lia).
      subst h. rewrite lookup_take, decide_True, lookup_drop by lia. reflexivity.
  - symmetry. apply lookup_ge_None_2.
    destruct (bool_decide (mEnd rd <> end_)); rewrite ?length_rev, Hh; lia.
Qed.

Lemma ReadSamples_load (rd : MultiFormatReader) (buf : list byte) (len s : nat)
    (fmt : FormatT) (end_ : EndiannessT) (b : list byte) (a : nat)
    (rd' : MultiFormatReader) (n : nat) :
  1 <= s -> len * width fmt <= length buf ->
  ReadSamples rd buf len s fmt end_ = Ok (b, a, rd') ->
  n < a ->
  load (mEnd rd) b (width fmt) n
  = load_at end_ (fdata (mpFid rd)) (fpos (mpFid rd) + n * (s * width fmt)) (width fmt).
Proof.
  intros Hs Hbuf Heq Hn.
  destruct (ReadSamples_group rd buf len s fmt end_ b a rd' n Hs Hbuf Heq Hn) as [_ Hg].
  unfold load, load_at. rewrite Hg.
  destruct (mEnd rd), end_; try rewrite bool_decide_eq_true_2 by done;
    try rewrite bool_decide_eq_false_2 by (intros H; by apply H);
    rewrite ?rev_involutive; reflexivity.
Qed.

End ValueFacts.

Import CountFacts ValueFacts.

(** X1.  [ReadSamples] never fails for a buffer that holds [len] samples.
    It returns the number of complete samples that the file holds at the
    positions [p, p + stride * W, ...] from the current position [p], at
    most [len]: sample [n] counts exactly when [n < len] and its [W]
    bytes end at or before the end of the file.  The buffer keeps its
    length, and the reader its file and byte order. *)
Theorem ReadSamples_returns_complete_samples (rd : MultiFormatReader) (buf : list byte)
    (len stride : nat) (fmt : FormatT) (end_ : EndiannessT) :
  1 <= stride -> len * width fmt <= length buf ->
  let W := width fmt in
  let L := length (fdata (mpFid rd)) in
  let p := fpos (mpFid rd) in
  exists b a rd',
    ReadSamples rd buf len stride fmt end_ = Ok (b, a, rd')
    /\ a = samples_available L p W stride len
    /\ a <= len
    /\ (forall n, n < a <-> n < len /\ p + n * (stride * W) + W <= L)
    /\ length b = length buf
    /\ fdata (mpFid rd') = fdata (mpFid rd)
    /\ mEnd rd' = mEnd rd.
Proof.
  intros Hs Hbuf W L p.
  destruct (ReadSamples_spec rd buf len stride fmt end_ Hs Hbuf)
    as (b & a & f & Heq & Hl & Hdata & _).
  pose proof (ReadSamples_count rd buf len stride fmt end_ b a _ Hs Heq) as Ha.
  fold W L p in Ha.
  exists b, a, (with_fid rd f). split; [exact Heq|]. split; [exact Ha|].
  split; [rewrite Ha; apply samples_available_le|]. split.
  { intros n. rewrite Ha. apply samples_available_lt; [apply width_pos|exact Hs]. }
  split; [exact Hl|]. split; [exact Hdata|reflexivity].
Qed.

Lemma ReadSamples_returns_complete_samples_witness :
  let rd := mkReader (mkFILE [1; 2; 3; 4; 5; 6; 7; 8; 9]%Z 1) Little in
  exists b rd',
    ReadSamples rd (replicate 8 0%Z) 3 2 Int16 Big = Ok (b, 2, rd').
Proof.
  intros rd.
  destruct (ReadSamples_returns_complete_samples rd (replicate 8 0%Z) 3 2 Int16 Big)
    as (b & a & rd' & Heq & Ha & _); [lia|simpl; lia|].
  exists b, rd'. rewrite Heq, Ha. reflexivity.
Defined.

(** X2.  [ReadSamples] delivers the samples in the byte order of the host:
    for every complete sample [n], the [W] bytes at index [n] of the
    returned buffer, read as the host reads them, have the value of the
    [W] file bytes of that sample read in the byte order [end_] that the
    caller names. *)
Theorem ReadSamples_host_order (rd : MultiFormatReader) (buf : list byte)
    (len stride : nat) (fmt : FormatT) (end_ : EndiannessT) :
  1 <= stride -> len * width fmt <= length buf ->
  let W := width fmt in
  let p := fpos (mpFid rd) in
  exists b a rd',
    ReadSamples rd buf len stride fmt end_ = Ok (b, a, rd')
    /\ forall n, n < a ->
         load (mEnd rd) b W n = load_at end_ (fdata (mpFid rd)) (p + n * (stride * W)) W.
Proof.
  intros Hs Hbuf W p.
  destruct (ReadSamples_is_Ok rd buf len stride fmt end_) as [[[b a] rd'] Heq].
  exists b, a, rd'. split; [exact Heq|]. intros n Hn.
  by apply (ReadSamples_load rd buf len stride fmt end_ b a rd').
Qed.

Lemma ReadSamples_host_order_witness :
  let rd := mkReader (mkFILE [1; 2; 3; 4; 5; 6; 7; 8; 9]%Z 1) Little in
  exists b a rd',
    ReadSamples rd (replicate 8 0%Z) 3 2 Int16 Big = Ok (b, a, rd')
    /\ load Little b 2 1 = (6 * 256 + 7)%Z.
Proof.
  intros rd.
  destruct (ReadSamples_host_order rd (replicate 8 0%Z) 3 2 Int16 Big)
    as (b & a & rd' & Heq & Hval); [lia|simpl; lia|].
  exists b, a, rd'. split; [exact Heq|].
  assert (a = 2) as -> by (vm_compute in Heq; congruence).
  etransitivity; [apply (Hval 1); lia|reflexivity].
Defined.

(** X3.  [SwapBytes] on [len] groups of [size <= 8] bytes inside the
    buffer returns normally, keeps the length of the buffer, replaces
    each of the first [len] groups by its reverse, and leaves the bytes
    after them as they were. *)
Theorem SwapBytes_reverses_groups (buffer : list byte) (size len : nat) :
  size <= 8 -> len * size <= length buffer ->
  exists b,
    SwapBytes buffer size len = Ok b
    /\ length b = length buffer
    /\ (forall i, i < len ->
          take size (drop (i * size) b) = rev (take size (drop (i * size) buffer)))
    /\ drop (len * size) b = drop (len * size) buffer.
Proof.
  intros Hsize Hlen. exists (for_loop 0 len (SwapGroup size) buffer).
  split; [by apply SwapBytes_Ok|]. split; [apply swap_loop_length|].
  destruct (decide (size = 0)) as [->|Hpos].
  { split; [intros i _; reflexivity|].
    f_equal. apply (for_loop_ind (fun _ b => b = buffer)); [done|].
    intros n b _ ->. unfold SwapGroup. by rewrite for_loop_nil. }
  split.
  - intros i Hi. assert (i * size + size <= len * size) as Hgroup by nia.
    assert (length (take size (drop (i * size) buffer)) = size) as Hh.
    { rewrite length_take, length_drop. lia. }
    apply list_eq. intros k. rewrite lookup_take, lookup_drop.
    destruct (decide (k < size)) as [Hk|Hk].
    + rewrite swap_loop_lookup, decide_True by lia.
      rewrite mirror_group by done.
      rewrite ValueFacts.rev_reverse, reverse_lookup by lia. rewrite Hh.
      rewrite lookup_take, decide_True, lookup_drop by lia. f_equal. lia.
    + symmetry. apply lookup_ge_None_2. rewrite length_rev, Hh. lia.
  - apply list_eq. intros k. rewrite !lookup_drop.
    rewrite swap_loop_lookup, decide_False by lia. reflexivity.
Qed.

Lemma SwapBytes_reverses_groups_witness :
  SwapBytes [1; 2; 3; 4; 5; 6; 7]%Z 3 2 = Ok [3; 2; 1; 6; 5; 4; 7]%Z.
Proof.
  destruct (SwapBytes_reverses_groups [1; 2; 3; 4; 5; 6; 7]%Z 3 2)
    as (b & Heq & _); [lia|simpl; lia|].
  assert (b = [3; 2; 1; 6; 5; 4; 7]%Z) as <-; [|exact Heq].
  vm_compute in Heq. injection Heq as <-. reflexivity.
Defined.

(** ** The polyphase filter *)

Section PolyphaseFacts.
Context {F : Type} `{Arith F}.

(** The windowed samples. *)
Lemma FilterPolyphase_window (x y win : list F) (p len j : nat) :
  (FilterPolyphase x y win p len).1 !! j
  = if decide (j < len) then (fun v => f_mul v (win !!! j)) <$> x !! j else x !! j.
Proof.
  unfold FilterPolyphase. cbn [fst].
  apply (for_loop_update (fun n v => f_mul v (win !!! n))).
Qed.

(** The folded samples: the loop over the [p] branches adds one windowed
    sample per branch to each entry that the loop before it cleared. *)
Lemma FilterPolyphase_branches (x y win : list F) (p len : nat) :
  len / p <= length y ->
  let outlen := len / p in
  let xw := (FilterPolyphase x y win p len).1 in
  let yf := (FilterPolyphase x y win p len).2 in
  (forall j, j < outlen ->
     yf !! j = Some (fold_left (fun acc k => f_add acc (xw !!! (k * outlen + j)))
                               (seq 0 p) f_zero))
  /\ (forall j, outlen <= j -> yf !! j = y !! j).
Proof.
  intros Hy outlen xw yf.
  subst yf. unfold FilterPolyphase. cbn [snd]. fold outlen.
  change (for_loop 0 len (fun n x0 => <[n:=f_mul (x0 !!! n) (win !!! n)]> x0) x) with xw.
  set (y0 := for_loop 0 outlen (fun n y1 => <[n:=f_zero]> y1) y).
  assert (forall j, y0 !! j = if decide (j < outlen) then Some f_zero else y !! j) as Hy0.
  { intros j. subst y0.
    rewrite (for_loop_update (fun _ _ => f_zero)).
    case_decide; [|done].
    destruct (lookup_lt_is_Some_2 y j) as [v ->]; [lia|done]. }
  assert (length y0 = length y) as Hly0.
  { subst y0. apply (for_loop_update_length (fun _ _ => f_zero)). }
  apply (for_loop_ind (fun n (b : list F) =>
    (forall j, j < outlen ->
       b !! j = Some (fold_left (fun acc k => f_add acc (xw !!! (k * outlen + j)))
                                (seq 0 n) f_zero))
    /\ (forall j, outlen <= j -> b !! j = y !! j))).
  - split.
    + intros j Hj. rewrite Hy0, decide_True by done. reflexivity.
    + intros j Hj. rewrite Hy0, decide_False by lia. reflexivity.
  - intros n b Hn (Hfold & Hrest). split.
    + intros j Hj. rewrite Add_lookup, decide_True by done.
      rewrite Hfold by done. cbn [fmap option_fmap option_map].
      rewrite seq_S, fold_left_app. cbn [fold_left Nat.add]. do 2 f_equal.
      rewrite lookup_total_drop. reflexivity.
    + intros j Hj. rewrite Add_lookup, decide_False by lia. by apply Hrest.
Qed.

(** X4.  [FilterPolyphase] multiplies the first [len] samples of [x] by
    the window, in place, and stores in each of the first [len / p]
    entries of [y] the sum of the [p] windowed samples that lie [len / p]
    apart, added in increasing order starting from 0; what [y] held there
    before does not matter.  The other entries of [x] and [y], and the
    lengths, are unchanged. *)
Theorem FilterPolyphase_folds (x y win : list F) (p len : nat) :
  0 < p -> len <= length x -> len <= length win -> len / p <= length y ->
  let outlen := len / p in
  let xw := (FilterPolyphase x y win p len).1 in
  let yf := (FilterPolyphase x y win p len).2 in
  length xw = length x /\ length yf = length y
  /\ (forall j, j < len -> xw !! j = Some (f_mul (x !!! j) (win !!! j)))
  /\ (forall j, len <= j -> xw !! j = x !! j)
  /\ (forall j, j < outlen ->
        yf !! j = Some (fold_left (fun acc k => f_add acc (xw !!! (k * outlen + j)))
                                  (seq 0 p) f_zero))
  /\ (forall j, outlen <= j -> yf !! j = y !! j).
Proof.
  intros Hp Hx _ Hy outlen xw yf.
  destruct (FilterPolyphase_length x y win p len) as [Hlx Hly].
  fold xw in Hlx. fold yf in Hly.
  split; [exact Hlx|]. split; [exact Hly|].
  split.
  { intros j Hj. subst xw. rewrite FilterPolyphase_window, decide_True by done.
    rewrite (list_lookup_lookup_total_lt x j) by lia. done. }
  split.
  { intros j Hj. subst xw. rewrite FilterPolyphase_window, decide_False by lia. done. }
  exact (FilterPolyphase_branches x y win p len Hy).
Qed.

End PolyphaseFacts.

Lemma FilterPolyphase_folds_witness :
  let v (n : nat) := F32.of_Z (Z.of_nat n) in
  (FilterPolyphase [v 1; v 2; v 3; v 4; v 5] [v 9; v 9; v 9]
                   [v 1; v 2; v 1; v 2] 2 4).2 !! 1
  = Some (v 12).
Proof.
  intros v.
  destruct (FilterPolyphase_folds [v 1; v 2; v 3; v 4; v 5] [v 9; v 9; v 9]
              [v 1; v 2; v 1; v 2] 2 4) as (_ & _ & _ & _ & Hfold & _);
    [lia|simpl; lia|simpl; lia|simpl; lia|].
  rewrite (Hfold 1) by (simpl; lia). vm_compute. reflexivity.
Defined.

(** ** Signs of the powers and of [Abs] *)

Section Signs.

Lemma binary_round_aux_sign (prec emax : Z) (s : bool) (mx ex : Z) (lx : location) :
  nan_or_sign_clear (binary_round_aux prec emax s mx ex lx) = true \/ s = true.
Proof.
  unfold binary_round_aux.
  destruct (shr_fexp prec emax mx ex lx) as [mrs1 e1].
  destruct (shr_fexp prec emax _ e1 loc_Exact) as [mrs2 e2].
  destruct s; [by right|left].
  destruct (shr_m mrs2); [reflexivity| |reflexivity].
  destruct (e2 <=? emax - prec)%Z; reflexivity.
Qed.

Lemma binary_round_aux_sign_clear (prec emax : Z) (mx ex : Z) (lx : location) :
  nan_or_sign_clear (binary_round_aux prec emax false mx ex lx) = true.
Proof. destruct (binary_round_aux_sign prec emax false mx ex lx); [done|discriminate]. Qed.

Lemma mul_self_sign_clear (x : float) : nan_or_sign_clear (F32.mul x x) = true.
Proof.
  destruct x as [s|s| |s m e]; [by destruct s|by destruct s|reflexivity|].
  unfold F32.mul. cbn [SFmul]. rewrite xorb_nilpotent. apply binary_round_aux_sign_clear.
Qed.

Lemma add_sign_clear (a b : float) :
  nan_or_sign_clear a = true -> nan_or_sign_clear b = true ->
  nan_or_sign_clear (F32.add a b) = true.
Proof.
  destruct a as [[]|[]| |[] ma ea], b as [[]|[]| |[] mb eb]; try discriminate;
    try (intros _ _; reflexivity).
  intros _ _. unfold F32.add. cbn [SFadd cond_Zopp].
  change (Zpos ?a + Zpos ?b)%Z with (Zpos (a + b)). cbn [binary_normalize].
  unfold binary_round.
  destruct (shl_align _ _ _) as [mz ez]. apply binary_round_aux_sign_clear.
Qed.

Lemma sqrt_sign_clear (x : float) :
  nan_or_sign_clear x = true -> nan_or_sign_clear (F32.sqrt x) = true.
Proof.
  destruct x as [[]|[]| |[] m e]; try discriminate; try (intros _; reflexivity).
  intros _. unfold F32.sqrt. cbn [SFsqrt].
  destruct (SFsqrt_core_binary _ _ _ _) as [[mz ez] lz].
  apply binary_round_aux_sign_clear.
Qed.

Lemma sign_clear_not_below_zero (x : float) :
  nan_or_sign_clear x = true ->
  F32.ltb x F32.zero = false /\ x <> S754_zero true.
Proof. destruct x as [[]|[]| |[] m e]; try discriminate; done. Qed.

End Signs.

(** X5.  [Rms] never returns a negative number, whatever the array
    holds: the result is NaN, or a number with a clear sign bit ([+0], a
    positive number or [+infinity]); it does not compare below zero and
    is not [-0]. *)
Theorem Rms_never_negative (in_ : list float) (len : nat) :
  nan_or_sign_clear (Rms in_ len) = true
  /\ F32.ltb (Rms in_ len) F32.zero = false
  /\ Rms in_ len <> S754_zero true.
Proof.
  assert (nan_or_sign_clear (Rms in_ len) = true) as Hs.
  { unfold Rms. apply sqrt_sign_clear.
    apply (for_loop_ind (fun _ acc => nan_or_sign_clear acc = true)); [reflexivity|].
    intros n acc _ Hacc. apply add_sign_clear; [exact Hacc|apply mul_self_sign_clear]. }
  split; [exact Hs|]. by apply sign_clear_not_below_zero.
Qed.

(** X6.  For bins inside the arrays of the meter, which hold [N]
    elements each, [0 <= loBin] and [hiBin <= N], [CalcBinPower] returns,
    and never a negative power, with the equalizer enabled or not, for
    every spectrum and mask: the result is NaN or a number with a clear
    sign bit. *)
Theorem CalcBinPower_never_negative (m : SpecPowerMeter) (sig_f_r sig_f_i : list float)
    (loBin hiBin : Z) :
  length sig_f_r = Z.to_nat (mSigLen m) ->
  length sig_f_i = Z.to_nat (mSigLen m) ->
  length (mEqMask m) = Z.to_nat (mSigLen m) ->
  (0 <= loBin)%Z -> (hiBin <= mSigLen m)%Z ->
  exists pwr,
    CalcBinPower m sig_f_r sig_f_i loBin hiBin = Ok pwr
    /\ nan_or_sign_clear pwr = true
    /\ F32.ltb pwr F32.zero = false.
Proof.
  intros _ _ _ Hlo Hhi. eexists. split; [apply CalcBinPower_eq; assumption|].
  set (pwr := fold_left _ _ _).
  assert (nan_or_sign_clear pwr = true) as Hs.
  { subst pwr. generalize (bin_range loBin hiBin). intros l.
    assert (nan_or_sign_clear F32.zero = true) as H0 by reflexivity.
    revert H0. generalize F32.zero.
    induction l as [|k l IH]; intros acc Hacc; [exact Hacc|].
    cbn [fold_left]. apply IH. apply add_sign_clear; [exact Hacc|].
    unfold bin_power. apply add_sign_clear; apply mul_self_sign_clear. }
  split; [exact Hs|]. by apply sign_clear_not_below_zero.
Qed.

Lemma CalcBinPower_never_negative_witness :
  let m := mkMeter 4 (replicate 4 F32.zero) true
                   [F32.one; F32.opp F32.one; F32.of_Z 2; F32.one] in
  let re := [F32.one; F32.opp (F32.of_Z 3); F32.of_Z 2; F32.zero] in
  let im := [F32.zero; F32.one; F32.opp F32.one; F32.of_Z 5] in
  CalcBinPower m re im 1 3 = Ok (F32.of_Z 30)
  /\ F32.ltb (F32.of_Z 30) F32.zero = false.
Proof.
  intros m re im.
  destruct (CalcBinPower_never_negative m re im 1 3) as (pwr & Heq & _ & Hlt);
    [reflexivity|reflexivity|reflexivity|lia|cbn; lia|].
  assert (CalcBinPower m re im 1 3 = Ok (F32.of_Z 30)) as Hv by (vm_compute; reflexivity).
  split; [exact Hv|]. rewrite Hv in Heq. injection Heq as <-. exact Hlt.
Defined.

Section AbsFacts.

Lemma opp_of_negative (x : float) :
  F32.ltb x F32.zero = true -> F32.ltb (F32.opp x) F32.zero = false.
Proof. destruct x as [[]|[]| |[] m e]; try discriminate; reflexivity. Qed.

Lemma Abs_lookup (in_ out : list float) (len : nat) (j : nat) :
  len <= length out ->
  Abs in_ out len !! j
  = if decide (j < len)
    then Some (if F32.ltb (in_ !!! j) F32.zero then F32.opp (in_ !!! j) else in_ !!! j)
    else out !! j.
Proof.
  intros Hlen. unfold Abs.
  set (g := fun j => if F32.ltb (in_ !!! j) F32.zero then F32.opp (in_ !!! j) else in_ !!! j).
  assert (forall n, n <= len ->
            let b := for_loop 0 n
                       (fun n out => if F32.ltb (in_ !!! n) F32.zero
                                     then <[n := F32.opp (in_ !!! n)]> out
                                     else <[n := in_ !!! n]> out) out in
            length b = length out
            /\ forall j, b !! j = if decide (j < n) then Some (g j) else out !! j) as Hinv.
  { induction n as [|n IH]; intros Hn; cbv zeta.
    - rewrite for_loop_nil. split; [done|]. intros i. by rewrite decide_False by lia.
    - rewrite for_loop_S by lia. destruct IH as [Hl Hlook]; [lia|].
      set (b := for_loop 0 n _ out) in *.
      assert ((if F32.ltb (in_ !!! n) F32.zero then <[n := F32.opp (in_ !!! n)]> b
               else <[n := in_ !!! n]> b) = <[n := g n]> b) as ->.
      { unfold g. by destruct (F32.ltb (in_ !!! n) F32.zero). }
      split; [by rewrite length_insert|]. intros i.
      destruct (decide (i = n)) as [->|Hne].
      + rewrite list_lookup_insert_eq by lia. by rewrite decide_True by lia.
      + rewrite list_lookup_insert_ne by done. rewrite Hlook.
        repeat case_decide; try lia; done. }
  apply (Hinv len). lia.
Qed.

Lemma Abs_length (in_ out : list float) (len : nat) : length (Abs in_ out len) = length out.
Proof.
  unfold Abs. apply (for_loop_ind (fun _ b => length b = length out)); [done|].
  intros n b _ Hb. destruct (F32.ltb (in_ !!! n) F32.zero); by rewrite length_insert.
Qed.

End AbsFacts.

(** X7.  [Abs] stores, at each of the first [len] indices, the element
    of [in] with its sign flipped when it compares below zero, and the
    element itself otherwise.  No stored value compares below zero; NaN
    stays NaN, and [-0] stays [-0] (it does not compare below zero).  The
    entries from [len] on are unchanged, and applying [Abs] to its own
    result changes nothing. *)
Theorem Abs_not_below_zero (in_ out : list float) (len : nat) :
  len <= length in_ -> len <= length out ->
  let r := Abs in_ out len in
  length r = length out
  /\ (forall n, n < len ->
        r !! n = Some (if F32.ltb (in_ !!! n) F32.zero then F32.opp (in_ !!! n)
                       else in_ !!! n))
  /\ (forall n, n < len -> F32.ltb (r !!! n) F32.zero = false)
  /\ (forall n, n < len -> in_ !!! n = S754_nan -> r !!! n = S754_nan)
  /\ (forall n, n < len -> in_ !!! n = S754_zero true -> r !!! n = S754_zero true)
  /\ (forall n, len <= n -> r !! n = out !! n)
  /\ Abs r r len = r.
Proof.
  intros _ Hout r.
  assert (forall n, n < len ->
            r !! n = Some (if F32.ltb (in_ !!! n) F32.zero then F32.opp (in_ !!! n)
                           else in_ !!! n)) as Hlook.
  { intros n Hn. subst r. by rewrite Abs_lookup, decide_True by done. }
  assert (forall n, n < len ->
            r !!! n = if F32.ltb (in_ !!! n) F32.zero then F32.opp (in_ !!! n)
                      else in_ !!! n) as Htotal.
  { intros n Hn. apply list_lookup_total_correct. by apply Hlook. }
  assert (forall n, n < len -> F32.ltb (r !!! n) F32.zero = false) as Hsign.
  { intros n Hn. rewrite Htotal by done.
    destruct (F32.ltb (in_ !!! n) F32.zero) eqn:E; [by apply opp_of_negative|exact E]. }
  split; [apply Abs_length|]. split; [exact Hlook|]. split; [exact Hsign|].
  split; [intros n Hn Hnan; rewrite Htotal by done; unfold float in *; rewrite Hnan; reflexivity|].
  split; [intros n Hn Hz; rewrite Htotal by done; unfold float in *; rewrite Hz; reflexivity|].
  split; [intros n Hn; subst r; by rewrite Abs_lookup, decide_False by lia|].
  apply list_eq. intros j.
  rewrite Abs_lookup by (subst r; rewrite Abs_length; exact Hout).
  case_decide as Hj; [|done].
  rewrite (Hsign j Hj). rewrite (list_lookup_lookup_total_lt r j); [done|].
  subst r. rewrite Abs_length. lia.
Qed.

Lemma Abs_not_below_zero_witness :
  Abs [F32.of_Z (-3); S754_zero true; S754_nan; F32.of_Z 5] (replicate 4 F32.zero) 3 !! 0
  = Some (F32.of_Z 3).
Proof.
  destruct (Abs_not_below_zero [F32.of_Z (-3); S754_zero true; S754_nan; F32.of_Z 5]
              (replicate 4 F32.zero) 3) as (_ & Hlook & _);
    [simpl; lia|simpl; lia|].
  etransitivity; [apply (Hlook 0); lia|reflexivity].
Defined.

Section Order.

Lemma SFcompare_antisym (a b : float) :
  SFcompare a b = CompOpp <$> SFcompare b a.
Proof.
  destruct a as [sa|sa| |sa ma ea], b as [sb|sb| |sb mb eb];
    try (simpl; repeat match goal with s : bool |- _ => destruct s end; reflexivity).
  simpl. rewrite !Pos.compare_cont_spec. simpl.
  rewrite (Z.compare_antisym eb ea), (Pos.compare_antisym mb ma).
  destruct sa, sb, (eb ?= ea)%Z, (mb ?= ma)%positive; reflexivity.
Qed.

Lemma SFcompare_eq_l (a b c : float) :
  SFcompare a b = Some Eq -> SFcompare a c = SFcompare b c.
Proof.
  destruct a as [sa|sa| |sa ma ea], b as [sb|sb| |sb mb eb];
    try (simpl; repeat match goal with s : bool |- _ => destruct s end; discriminate).
  - intros _. by destruct c.
  - destruct sa, sb; try discriminate; reflexivity.
  - simpl. rewrite Pos.compare_cont_spec. simpl.
    destruct sa, sb; try discriminate;
      destruct (Z.compare_spec ea eb); try discriminate;
      destruct (Pos.compare_spec ma mb); try discriminate; subst; reflexivity.
Qed.

Lemma ltb_not_nan (a b : float) :
  F32.ltb a b = true -> F32.is_nan a = false /\ F32.is_nan b = false.
Proof.
  intros Hlt. split; apply eqb_refl_not_nan; intros ->.
  - discriminate.
  - by destruct a.
Qed.

(** Among numbers, what is not above is below or equal. *)
Lemma not_ltb_leb (a m : float) :
  F32.is_nan a = false -> F32.is_nan m = false ->
  F32.ltb m a = false -> F32.leb a m = true.
Proof.
  rewrite !eqb_refl_not_nan. intros Ha Hm. unfold F32.ltb, F32.leb, SFltb, SFleb.
  rewrite (SFcompare_antisym a m).
  destruct (SFcompare m a) as [[]|] eqn:E; simpl; try done.
  exfalso. destruct a as [sa|sa| |sa ma ea], m as [sm|sm| |sm mm em]; try done;
    simpl in E; repeat match goal with s : bool |- _ => destruct s end; discriminate.
Qed.

Lemma leb_ltb_trans (a m M : float) :
  F32.leb a m = true -> F32.ltb m M = true -> F32.ltb a M = true.
Proof.
  unfold F32.leb, SFleb. destruct (SFcompare a m) as [[]|] eqn:E; try discriminate; intros _.
  - unfold F32.ltb, SFltb. by rewrite (SFcompare_eq_l a m M E).
  - apply ltb_trans. unfold F32.ltb, SFltb. by rewrite E.
Qed.

End Order.

(** X8.  [Max] returns the first index at which the maximum stands:
    every element before the returned index is smaller than the returned
    maximum, or is NaN.  The returned maximum is never NaN, and no
    element among the first [len] exceeds it. *)
Theorem Max_first_index (in_ : list float) (len : nat) :
  let max := (Max in_ len).1 in
  let maxidx := (Max in_ len).2 in
  F32.is_nan max = false
  /\ (forall j, j < len -> F32.ltb max (in_ !!! j) = false)
  /\ (forall j, j < maxidx ->
        F32.ltb (in_ !!! j) max = true \/ F32.is_nan (in_ !!! j) = true)
  /\ (maxidx = 0 \/ maxidx < len)
  /\ (max = in_ !!! maxidx \/ (max = F32.opp F32.FLT_MAX /\ maxidx = 0)).
Proof.
  unfold Max.
  apply (for_loop_ind (fun n (s : float * nat) =>
    F32.is_nan s.1 = false
    /\ (forall j, j < n -> F32.ltb s.1 (in_ !!! j) = false)
    /\ (forall j, j < s.2 ->
          F32.ltb (in_ !!! j) s.1 = true \/ F32.is_nan (in_ !!! j) = true)
    /\ (s.2 = 0 \/ s.2 < n)
    /\ (s.1 = in_ !!! s.2 \/ (s.1 = F32.opp F32.FLT_MAX /\ s.2 = 0)))).
  - cbn [fst snd]. split; [reflexivity|]. split; [intros j Hj; lia|].
    split; [intros j Hj; lia|]. split; [by left|]. right. done.
  - intros n [max idx] Hn (Hnan & Hall & Hfirst & Hidx & Hmax). cbn [fst snd] in *.
    destruct (F32.ltb max (in_ !!! n)) eqn:Hlt; cbn [fst snd].
    + destruct (ltb_not_nan _ _ Hlt) as [_ Hn'].
      assert (forall j, j < n ->
                F32.ltb (in_ !!! j) (in_ !!! n) = true \/ F32.is_nan (in_ !!! j) = true)
        as Hbelow.
      { intros j Hj. destruct (F32.is_nan (in_ !!! j)) eqn:Ej; [by right|left].
        apply (leb_ltb_trans _ max); [|exact Hlt].
        apply not_ltb_leb; [exact Ej|exact Hnan|]. apply Hall. exact Hj. }
      split; [exact Hn'|]. split.
      { intros j Hj. destruct (decide (j = n)) as [->|Hne]; [apply ltb_irrefl|].
        destruct (Hbelow j) as [Hb|Hb]; [lia|by apply ltb_asym|].
        apply eqb_refl_not_nan in Hn'.
        destruct (F32.ltb (in_ !!! n) (in_ !!! j)) eqn:E; [|done].
        destruct (ltb_not_nan _ _ E) as [_ Hj']. congruence. }
      split; [exact Hbelow|]. split; [right; lia|by left].
    + split; [exact Hnan|]. split.
      { intros j Hj. destruct (decide (j = n)) as [->|Hne]; [exact Hlt|]. apply Hall. lia. }
      split; [exact Hfirst|]. split; [lia|exact Hmax].
Qed.

(** ** Exact conversion of the narrow integer formats *)

Section ConversionFacts.
Open Scope Z_scope.

Lemma le_val_bound (bs : list byte) : 0 <= le_val bs < 256 ^ Z.of_nat (length bs).
Proof.
  induction bs as [|b bs IH]; [simpl; lia|].
  cbn [le_val fold_right length]. fold (le_val bs).
  rewrite Nat2Z.inj_succ, Z.pow_succ_r by lia.
  pose proof (Z.mod_pos_bound b 256). lia.
Qed.

Lemma load_bound (host : EndiannessT) (raw : list byte) (size n : nat) :
  0 <= load host raw size n < 256 ^ Z.of_nat size.
Proof.
  unfold load. set (g := take size (drop (n * size) raw)).
  assert (length g <= size)%nat as Hg by (subst g; rewrite length_take; lia).
  assert (0 <= le_val (match host with Little => g | Big => rev g end)
          < 256 ^ Z.of_nat (length g)) as Hb.
  { destruct host; [apply le_val_bound|].
    pose proof (le_val_bound (rev g)) as H. by rewrite length_rev in H. }
  assert (256 ^ Z.of_nat (length g) <= 256 ^ Z.of_nat size)
    by (apply Z.pow_le_mono_r; lia).
  lia.
Qed.

Lemma signed_bound (w z : Z) :
  0 < w -> 0 <= z < 2 ^ w -> - 2 ^ (w - 1) <= signed w z < 2 ^ (w - 1).
Proof.
  intros Hw Hz. unfold signed.
  assert (2 ^ w = 2 * 2 ^ (w - 1)) as Hp.
  { rewrite <- Z.pow_succ_r by lia. f_equal. lia. }
  destruct (z <? 2 ^ (w - 1)) eqn:E; [apply Z.ltb_lt in E|apply Z.ltb_ge in E]; lia.
Qed.

Lemma iter_xO (d m : positive) : Zpos (Pos.iter xO m d) = Zpos m * 2 ^ Zpos d.
Proof.
  change (Pos.iter xO m d) with (shift_pos d m).
  rewrite shift_pos_correct, Z.pow_pos_fold. lia.
Qed.

(** A mantissa of exactly 24 bits is not shifted. *)
Lemma shr_fexp_24 (m : positive) (e : Z) :
  Zpos (digits2_pos m) = 24 -> -149 <= e ->
  shr_fexp 24 128 (Zpos m) e loc_Exact = (Build_shr_record (Zpos m) false false, e).
Proof.
  intros Hd He. unfold shr_fexp. cbn [Zdigits2 shr_record_of_loc]. rewrite Hd.
  replace (fexp 24 128 (24 + e) - e) with 0 by (unfold fexp, emin; lia).
  reflexivity.
Qed.

(** The binary32 number of an integer of at most 24 bits is that integer. *)
Lemma binary_round_exact (s : bool) (p : positive) :
  Zpos p < 2 ^ 24 ->
  int_value (binary_round 24 128 s p 0) = Some (if s then - Zpos p else Zpos p).
Proof.
  intros Hp. pose proof (digits2_pos_bounds p) as [Dlo Dhi].
  set (d := Zpos (digits2_pos p)) in *.
  assert (0 < d <= 24) as Hd.
  { split; [subst d; lia|].
    destruct (Z.le_gt_cases d 24) as [H|H]; [exact H|].
    assert (2 ^ 24 <= 2 ^ (d - 1)) by (apply Z.pow_le_mono_r; lia). lia. }
  unfold binary_round. fold d.
  replace (fexp 24 128 (d + 0)) with (d - 24) by (unfold fexp, emin; lia).
  assert (exists mz, shl_align p 0 (d - 24) = (mz, d - 24)
                     /\ Zpos mz = Zpos p * 2 ^ (24 - d)) as (mz & -> & Hmz).
  { unfold shl_align. destruct (d - 24 - 0) as [|k|k] eqn:Hk; [|lia|].
    - exists p. replace (d - 24) with 0 by lia. replace (24 - d) with 0 by lia.
      split; [reflexivity|]. lia.
    - exists (Pos.iter xO p k). split; [reflexivity|].
      rewrite iter_xO. do 2 f_equal. lia. }
  assert (2 ^ 24 = 2 ^ d * 2 ^ (24 - d)) as Hpow.
  { rewrite <- Z.pow_add_r by lia. f_equal. lia. }
  assert (2 ^ 23 = 2 ^ (d - 1) * 2 ^ (24 - d)) as Hpow'.
  { rewrite <- Z.pow_add_r by lia. f_equal. lia. }
  assert (0 < 2 ^ (24 - d)) as Hpos by (apply Z.pow_pos_nonneg; lia).
  assert (Zpos (digits2_pos mz) = 24) as Hdz.
  { apply digits2_pos_unique. change (24 - 1) with 23. rewrite Hmz, Hpow, Hpow'. nia. }
  unfold binary_round_aux.
  rewrite (shr_fexp_24 mz (d - 24) Hdz) by lia.
  cbn [shr_m loc_of_shr_record round_nearest_even].
  rewrite (shr_fexp_24 mz (d - 24) Hdz) by lia.
  cbn [shr_m].
  replace (d - 24 <=? 128 - 24) with true by (symmetry; apply Z.leb_le; lia).
  cbn [int_value].
  destruct (0 <=? d - 24) eqn:E; [apply Z.leb_le in E|apply Z.leb_gt in E].
  - replace (d - 24) with 0 by lia. replace (24 - d) with 0 in Hmz by lia.
    cbn [fmap option_fmap option_map]. f_equal. destruct s; lia.
  - replace (- (d - 24)) with (24 - d) by lia.
    rewrite Hmz, Z.mod_mul, Z.eqb_refl, Z.div_mul by lia.
    reflexivity.
Qed.

(** Every integer of at most 24 bits, signed or not, is a binary32
    number. *)
Lemma of_Z_exact (z : Z) :
  - 2 ^ 24 < z < 2 ^ 24 -> int_value (F32.of_Z z) = Some z.
Proof.
  intros Hz. unfold F32.of_Z, binary_normalize.
  destruct z as [|p|p]; [reflexivity| |].
  - apply (binary_round_exact false). lia.
  - apply (binary_round_exact true). lia.
Qed.

End ConversionFacts.

Lemma ConvertSamples_lookup (host : EndiannessT) (in_ : list byte) (out : list float)
    (fmt : FormatClassT) (n : nat) :
  cSiglen <= length out -> n < cSiglen ->
  ConvertSamples host in_ out fmt !! n = Some (cast_sample host (format fmt) in_ n).
Proof.
  intros Hout Hn. unfold ConvertSamples, ToFloat.
  pose proof (for_loop_store (cast_sample host (format fmt) in_) 0 cSiglen out n) as Hst.
  cbn [Nat.add] in Hst. rewrite Hst.
  case_decide as Hc; [do 2 f_equal; lia|]. exfalso. apply Hc. unfold float in *. lia.
Qed.

(** X9.  [ConvertSamples] converts 8-bit and 16-bit integer samples
    without rounding: for the formats Int8, Uint8, Int16 and Uint16,
    every one of the [cSiglen] floats it stores equals the integer that
    the raw buffer holds at that index (read in the byte order of the
    host, two's complement for the signed formats). *)
Theorem ConvertSamples_exact_16 (host : EndiannessT) (in_ : list byte) (out : list float)
    (fmt : FormatClassT) (n : nat) :
  format fmt ∈ [Int8; Uint8; Int16; Uint16] ->
  cSiglen * width (format fmt) <= length in_ ->
  cSiglen <= length out -> n < cSiglen ->
  exists x z,
    ConvertSamples host in_ out fmt !! n = Some x
    /\ int_sample host (format fmt) in_ n = Some z
    /\ int_value x = Some z.
Proof.
  intros Hfmt _ Hout Hn.
  exists (cast_sample host (format fmt) in_ n).
  rewrite ConvertSamples_lookup by done.
  pose proof (load_bound host in_ 1 n) as H1.
  pose proof (load_bound host in_ 2 n) as H2.
  change (256 ^ Z.of_nat 1)%Z with (2 ^ 8)%Z in H1.
  change (256 ^ Z.of_nat 2)%Z with (2 ^ 16)%Z in H2.
  pose proof (signed_bound 8 (load host in_ 1 n) ltac:(lia) H1) as S1.
  pose proof (signed_bound 16 (load host in_ 2 n) ltac:(lia) H2) as S2.
  change (2 ^ (8 - 1))%Z with 128%Z in S1. change (2 ^ (16 - 1))%Z with (2 ^ 15)%Z in S2.
  rewrite !elem_of_cons, elem_of_nil in Hfmt.
  destruct Hfmt as [->|[->|[->|[->|[]]]]]; cbn [cast_sample int_sample];
    eexists; (split; [reflexivity|]); (split; [reflexivity|]);
    apply of_Z_exact; lia.
Qed.

Lemma ConvertSamples_exact_16_witness :
  exists x,
    ConvertSamples Little ([0; 128]%Z ++ replicate (2 * cSiglen) 0%Z)
                   (replicate cSiglen F32.zero) (mkClass Int16 Little) !! 0 = Some x
    /\ int_value x = Some (-32768)%Z.
Proof.
  destruct (ConvertSamples_exact_16 Little ([0; 128]%Z ++ replicate (2 * cSiglen) 0%Z)
              (replicate cSiglen F32.zero) (mkClass Int16 Little) 0)
    as (x & z & Hx & Hz & Hv).
  - rewrite !elem_of_cons. auto.
  - rewrite length_app, length_replicate. simpl. lia.
  - rewrite length_replicate. lia.
  - unfold cSiglen. lia.
  - exists x. split; [exact Hx|]. rewrite Hv. rewrite <- Hz. reflexivity.
Defined.

(** ** Bins of the power meter *)

Section BinFacts.
Open Scope Z_scope.

Lemma binary_round_sign_clear (prec emax : Z) (m : positive) (e : Z) :
  nan_or_sign_clear (binary_round prec emax false m e) = true.
Proof.
  unfold binary_round. destruct (shl_align _ _ _) as [mz ez].
  apply binary_round_aux_sign_clear.
Qed.

Lemma SFmul_sign_clear (prec emax : Z) (a b : spec_float) :
  nan_or_sign_clear a = true -> nan_or_sign_clear b = true ->
  nan_or_sign_clear (SFmul prec emax a b) = true.
Proof.
  destruct a as [[]|[]| |[] ma ea], b as [[]|[]| |[] mb eb]; try discriminate;
    try (intros _ _; reflexivity).
  intros _ _. cbn [SFmul xorb]. apply binary_round_aux_sign_clear.
Qed.

Lemma floor_to_int_nonneg (x : double) (z : Z) :
  nan_or_sign_clear x = true -> F64.floor_to_int x = Ok z -> 0 <= z.
Proof.
  destruct x as [[]|[]| |[] m e]; try discriminate.
  - intros _ [= <-]. lia.
  - intros _. unfold F64.floor_to_int.
    destruct (_ && _); [|discriminate]. intros [= <-].
    apply Z.shiftl_nonneg. lia.
Qed.

Lemma Freq2Bin_finite (m : SpecPowerMeter) (fc : float) (b : Z) :
  Freq2Bin m fc = Ok b -> fc <> S754_nan /\ forall s, fc <> S754_infinity s.
Proof.
  unfold Freq2Bin. intros Hb. split.
  - intros ->. discriminate Hb.
  - intros s ->. cbn [F64.of_float] in Hb. unfold F64.mul in Hb.
    destruct (F64.of_Z (mSigLen m)) as [sz|sz| |sz mz ez]; discriminate Hb.
Qed.

End BinFacts.

(** X10.  For a meter of positive signal length [N], [Freq2Bin] returns
    a bin only for a finite frequency, and the bin lies strictly between
    [-N] and [N]; it is not negative when the sign bit of the frequency
    is clear.  A negative frequency can give a negative bin. *)
Theorem Freq2Bin_range (m : SpecPowerMeter) (fc : float) (bin : Z) :
  (0 < mSigLen m)%Z ->
  Freq2Bin m fc = Ok bin ->
  (- mSigLen m < bin < mSigLen m)%Z
  /\ (nan_or_sign_clear fc = true -> (0 <= bin)%Z)
  /\ fc <> S754_nan /\ (forall s, fc <> S754_infinity s).
Proof.
  intros HN Hb. split; [|split; [|by apply (Freq2Bin_finite m fc bin)]].
  - unfold Freq2Bin in Hb.
    destruct (F64.floor_to_int _) as [z| | |]; try discriminate Hb.
    injection Hb as <-.
    pose proof (Z.rem_bound_abs z (mSigLen m) ltac:(lia)). lia.
  - intros Hs. unfold Freq2Bin in Hb.
    destruct (F64.floor_to_int _) as [z| | |] eqn:Hz; try discriminate Hb.
    injection Hb as <-.
    apply floor_to_int_nonneg in Hz.
    + pose proof (Z.rem_bound_pos z (mSigLen m) Hz HN). lia.
    + apply SFmul_sign_clear.
      * destruct fc as [[]|[]| |[] mf ef]; try discriminate; try reflexivity.
        apply binary_round_sign_clear.
      * unfold F64.of_Z. destruct (mSigLen m) as [|p|p]; try lia.
        apply binary_round_sign_clear.
Qed.

Lemma Freq2Bin_range_witness :
  let m := mkMeter 256 (replicate 256 F32.zero) false (replicate 256 F32.one) in
  Freq2Bin m (F32.opp (F32.lit 1 10)) = Ok (-26)%Z
  /\ (- mSigLen m < -26 < mSigLen m)%Z.
Proof.
  intros m.
  assert (Freq2Bin m (F32.opp (F32.lit 1 10)) = Ok (-26)%Z) as Hb
    by (vm_compute; reflexivity).
  split; [exact Hb|].
  apply (Freq2Bin_range m (F32.opp (F32.lit 1 10)) (-26) eq_refl Hb).
Defined.

Section BandFacts.
Variable FFT : Z -> bool -> list float -> list float -> list float * list float.

(** X11.  When the high bin lies below the low bin, [CalcPower] returns
    [+0], whatever the signal is: the loop over the bins runs upwards
    from the low bin and does not wrap around. *)
Theorem CalcPower_inverted_band (m : SpecPowerMeter) (sig : list float) (fc bw : float)
    (loBin hiBin : Z) :
  CalcBins m fc bw = Ok (loBin, hiBin) ->
  (hiBin <= loBin)%Z ->
  (hiBin < loBin)%Z /\ CalcPower FFT m sig fc bw = Ok F32.zero.
Proof.
  intros Hbins Hle. split.
  - unfold CalcBins in Hbins.
    destruct (Freq2Bin m (F32.sub fc _)) as [lo| | |]; try discriminate Hbins.
    destruct (Freq2Bin m (F32.add fc _)) as [hi| | |]; try discriminate Hbins.
    cbn in Hbins. injection Hbins as <- <-. case_decide; lia.
  - unfold CalcPower. rewrite Hbins, bind_Ok.
    destruct (FFT (mSigLen m) false sig (mSigI m)) as [re im].
    apply CalcBinPower_empty. exact Hle.
Qed.

End BandFacts.

Lemma CalcPower_inverted_band_witness :
  let m := mkMeter 256 (replicate 256 F32.zero) false (replicate 256 F32.one) in
  let FFT (_ : Z) (_ : bool) (re im : list float) := (re, im) in
  CalcBins m (F32.lit 9 10) (F32.lit 4 10) = Ok (179, 25)%Z
  /\ CalcPower FFT m (replicate 256 F32.one) (F32.lit 9 10) (F32.lit 4 10) = Ok F32.zero.
Proof.
  intros m FFT.
  assert (CalcBins m (F32.lit 9 10) (F32.lit 4 10) = Ok (179, 25)%Z) as Hb
    by (vm_compute; reflexivity).
  split; [exact Hb|].
  apply (CalcPower_inverted_band FFT m (replicate 256 F32.one) _ _ 179 25 Hb). lia.
Defined.

(** ** The features of a run *)

Section FeatureFacts.
Variable FFT : Z -> bool -> list float -> list float -> list float * list float.

(** One pass of the first loop of [Run]: what it appends and stores. *)
Lemma Run_mono_step (n : nat) (c : FormatClassifier) :
  Run_ready c ->
  exists c' pLo pHiM,
    Run_mono FFT n c = Ok c' /\ Run_ready c'
    /\ mPLo c' = mPLo c ++ [pLo] /\ mPHiM c' = mPHiM c ++ [pHiM] /\ mPHiS c' = mPHiS c
    /\ mMonoFeat c'
       = <[n := F32.div ((mPLo c ++ [pLo]) !!! n) ((mPHiM c ++ [pHiM]) !!! n)]> (mMonoFeat c)
    /\ mStereoFeat c' = mStereoFeat c
    /\ mMeter c' = mMeter c
    /\ mSignalStart c' = mSignalStart c
    /\ fdata (mpFid (mReader c')) = fdata (mpFid (mReader c)).
Proof.
  intros (Hcls & Hraw & Hsig & Haux & Hlen). unfold Run_mono.
  destruct (ReadSignal_spec c (mClasses c !!! n) 1)
    as (k & c1 & Heq & _ & Hframe & Hstart & _);
    [lia|rewrite Hraw; unfold cRawSiglen; lia|exact Hsig|exact Haux|].
  rewrite Heq, bind_Ok. cbv beta iota. clear Heq.
  destruct Hframe as (Hmem & Hdata & _ & Hlraw & Hlsig & Hlaux).
  destruct Hmem as (Hc1 & Hm1 & _ & _ & HpLo & HpHiM & HpHiS & Hmono & Hstereo & _).
  pose proof (Preprocess_length (mSigBuffer c1) (mAuxBuffer c1) (mWinBuffer c1)) as [Hp1 Hp2].
  destruct (Preprocess (mSigBuffer c1) (mAuxBuffer c1) (mWinBuffer c1)) as [sig aux].
  cbn [fst snd] in Hp1, Hp2. simpl_members.
  assert (mSigLen (mMeter c1) = 256%Z) as HN by (rewrite Hm1, Hlen; reflexivity).
  destruct (CalcPower_requests FFT (mMeter c1) aux HN) as ([pLo ->] & [pHiM ->] & _).
  rewrite !bind_Ok. simpl_members. eexists _, pLo, pHiM. split; [reflexivity|].
  unfold Run_ready. simpl_members. rewrite HpLo, HpHiM, Hmono.
  split; [repeat split; congruence|]. repeat split; congruence.
Qed.

Lemma Run_stereo_step (n : nat) (c : FormatClassifier) :
  Run_ready c ->
  exists c' pHiS,
    Run_stereo FFT n c = Ok c' /\ Run_ready c'
    /\ mPLo c' = mPLo c /\ mPHiM c' = mPHiM c /\ mPHiS c' = mPHiS c ++ [pHiS]
    /\ mMonoFeat c' = mMonoFeat c
    /\ mStereoFeat c'
       = <[n := F32.div (mPLo c !!! n) ((mPHiS c ++ [pHiS]) !!! n)]> (mStereoFeat c)
    /\ mMeter c' = mMeter c
    /\ mSignalStart c' = mSignalStart c
    /\ fdata (mpFid (mReader c')) = fdata (mpFid (mReader c)).
Proof.
  intros (Hcls & Hraw & Hsig & Haux & Hlen). unfold Run_stereo.
  destruct (ReadSignal_spec c (mClasses c !!! n) 2)
    as (k & c1 & Heq & _ & Hframe & Hstart & _);
    [lia|rewrite Hraw; unfold cRawSiglen; lia|exact Hsig|exact Haux|].
  rewrite Heq, bind_Ok. cbv beta iota. clear Heq.
  destruct Hframe as (Hmem & Hdata & _ & Hlraw & Hlsig & Hlaux).
  destruct Hmem as (Hc1 & Hm1 & _ & _ & HpLo & HpHiM & HpHiS & Hmono & Hstereo & _).
  pose proof (Preprocess_length (mSigBuffer c1) (mAuxBuffer c1) (mWinBuffer c1)) as [Hp1 Hp2].
  destruct (Preprocess (mSigBuffer c1) (mAuxBuffer c1) (mWinBuffer c1)) as [sig aux].
  cbn [fst snd] in Hp1, Hp2. simpl_members.
  assert (mSigLen (mMeter c1) = 256%Z) as HN by (rewrite Hm1, Hlen; reflexivity).
  destruct (CalcPower_requests FFT (mMeter c1) aux HN) as (_ & _ & [pHiS ->]).
  rewrite !bind_Ok. simpl_members. eexists _, pHiS. split; [reflexivity|].
  unfold Run_ready. simpl_members. rewrite HpLo, HpHiS, Hstereo.
  split; [repeat split; congruence|]. repeat split; congruence.
Qed.

Lemma snoc_lookup_total (l : list float) (x : float) (n j : nat) :
  length l = n -> j <= n ->
  (l ++ [x]) !!! j = if decide (j = n) then x else l !!! j.
Proof.
  intros Hl Hj. case_decide as Hc.
  - subst j. rewrite lookup_total_app_r by lia. by rewrite Hl, Nat.sub_diag.
  - rewrite lookup_total_app_l by lia. reflexivity.
Qed.

(** The state after the first loop of [Run]. *)
Lemma Run_mono_loop (c : FormatClassifier) :
  Run_ready c -> mPLo c = [] -> mPHiM c = [] -> length (mMonoFeat c) = 10 ->
  exists c',
    for_loopM 0 10 (Run_mono FFT) c = Ok c' /\ Run_ready c'
    /\ length (mPLo c') = 10 /\ length (mPHiM c') = 10 /\ mPHiS c' = mPHiS c
    /\ length (mMonoFeat c') = 10
    /\ (forall j, j < 10 ->
          mMonoFeat c' !! j = Some (F32.div (mPLo c' !!! j) (mPHiM c' !!! j)))
    /\ mStereoFeat c' = mStereoFeat c
    /\ mMeter c' = mMeter c
    /\ mSignalStart c' = mSignalStart c
    /\ fdata (mpFid (mReader c')) = fdata (mpFid (mReader c)).
Proof.
  intros Hready HpLo HpHiM Hmono.
  destruct (for_loopM_ind (fun n c' =>
      Run_ready c'
      /\ length (mPLo c') = n /\ length (mPHiM c') = n /\ mPHiS c' = mPHiS c
      /\ length (mMonoFeat c') = 10
      /\ (forall j, j < n ->
            mMonoFeat c' !! j = Some (F32.div (mPLo c' !!! j) (mPHiM c' !!! j)))
      /\ mStereoFeat c' = mStereoFeat c
      /\ mMeter c' = mMeter c
      /\ mSignalStart c' = mSignalStart c
      /\ fdata (mpFid (mReader c')) = fdata (mpFid (mReader c)))
    10 (Run_mono FFT) c) as (c' & Heq & Hinv).
  - rewrite HpLo, HpHiM. split; [exact Hready|].
    repeat split; try done; intros j Hj; lia.
  - intros n s Hn (Hr & Hl1 & Hl2 & H3 & Hlm & Hfeat & Hst & Hmeter & Hstart & Hdata).
    destruct (Run_mono_step n s Hr)
      as (s' & pLo & pHiM & Heq & Hr' & E1 & E2 & E3 & E4 & E5 & E6 & E7 & E8).
    exists s'. split; [exact Heq|]. split; [exact Hr'|].
    rewrite E1, E2, E3, E4, E5, E6, E7, E8.
    rewrite !length_app, length_insert. cbn [length].
    split; [lia|]. split; [lia|]. split; [exact H3|]. split; [exact Hlm|].
    split; [|repeat split; assumption].
    intros j Hj. destruct (decide (j = n)) as [->|Hne].
    + rewrite list_lookup_insert_eq by lia. reflexivity.
    + rewrite list_lookup_insert_ne by done. rewrite Hfeat by lia.
      rewrite !lookup_total_app_l by lia. reflexivity.
  - exists c'. split; [exact Heq|]. exact Hinv.
Qed.

(** The state after the second loop of [Run]. *)
Lemma Run_stereo_loop (c : FormatClassifier) :
  Run_ready c -> length (mPLo c) = 10 -> mPHiS c = [] -> length (mStereoFeat c) = 10 ->
  exists c',
    for_loopM 0 10 (Run_stereo FFT) c = Ok c' /\ Run_ready c'
    /\ mPLo c' = mPLo c /\ mPHiM c' = mPHiM c /\ length (mPHiS c') = 10
    /\ mMonoFeat c' = mMonoFeat c
    /\ length (mStereoFeat c') = 10
    /\ (forall j, j < 10 ->
          mStereoFeat c' !! j = Some (F32.div (mPLo c' !!! j) (mPHiS c' !!! j)))
    /\ mMeter c' = mMeter c
    /\ mSignalStart c' = mSignalStart c
    /\ fdata (mpFid (mReader c')) = fdata (mpFid (mReader c)).
Proof.
  intros Hready HpLo HpHiS Hstereo.
  destruct (for_loopM_ind (fun n c' =>
      Run_ready c'
      /\ mPLo c' = mPLo c /\ mPHiM c' = mPHiM c /\ length (mPHiS c') = n
      /\ mMonoFeat c' = mMonoFeat c
      /\ length (mStereoFeat c') = 10
      /\ (forall j, j < n ->
            mStereoFeat c' !! j = Some (F32.div (mPLo c' !!! j) (mPHiS c' !!! j)))
      /\ mMeter c' = mMeter c
      /\ mSignalStart c' = mSignalStart c
      /\ fdata (mpFid (mReader c')) = fdata (mpFid (mReader c)))
    10 (Run_stereo FFT) c) as (c' & Heq & Hinv).
  - rewrite HpHiS. split; [exact Hready|].
    repeat split; try done; intros j Hj; lia.
  - intros n s Hn (Hr & H1 & H2 & Hl3 & Hm & Hls & Hfeat & Hmeter & Hstart & Hdata).
    destruct (Run_stereo_step n s Hr)
      as (s' & pHiS & Heq & Hr' & E1 & E2 & E3 & E4 & E5 & E6 & E7 & E8).
    exists s'. split; [exact Heq|]. split; [exact Hr'|].
    rewrite E1, E2, E3, E4, E5, E6, E7, E8.
    rewrite !length_app, length_insert. cbn [length].
    split; [exact H1|]. split; [exact H2|]. split; [lia|]. split; [exact Hm|].
    split; [exact Hls|]. split; [|repeat split; assumption].
    intros j Hj. destruct (decide (j = n)) as [->|Hne].
    + rewrite list_lookup_insert_eq by lia. reflexivity.
    + rewrite list_lookup_insert_ne by done. rewrite Hfeat by lia.
      rewrite !lookup_total_app_l by lia. reflexivity.
  - exists c'. split; [exact Heq|]. exact Hinv.
Qed.

(** The state that the two loops of [Run] leave, before the decision. *)
Lemma Run_loops (c : FormatClassifier) :
  Run_ready c ->
  length (mMonoFeat c) = 10 -> length (mStereoFeat c) = 10 ->
  exists c3,
    Run FFT c = Ok (Run_result c3)
    /\ mClasses c3 = classes
    /\ length (mPLo c3) = 10 /\ length (mPHiM c3) = 10 /\ length (mPHiS c3) = 10
    /\ (forall n, n < 10 ->
          mMonoFeat c3 !! n = Some (F32.div (mPLo c3 !!! n) (mPHiM c3 !!! n))
          /\ mStereoFeat c3 !! n = Some (F32.div (mPLo c3 !!! n) (mPHiS c3 !!! n)))
    /\ mEqEnabled (mMeter c3) = false
    /\ mEqMask (mMeter c3) = mEqMask (mMeter c)
    /\ mSignalStart c3 = mSignalStart c
    /\ fdata (mpFid (mReader c3)) = fdata (mpFid (mReader c)).
Proof.
  intros Hready Hmono Hstereo. unfold Run.
  pose proof Hready as (Hcls & Hraw & Hsig & Haux & Hlen).
  simpl_members. rewrite Hcls. change (length classes) with 10.
  set (c0 := set_mMeter _ _).
  assert (Run_ready c0) as H0.
  { subst c0. unfold Run_ready, EnableEqualizer. simpl_members. cbn [mSigLen]. tauto. }
  destruct (Run_mono_loop c0 H0)
    as (c1 & -> & H1 & L1 & L2 & E3 & Lm & Fm & Es & Em & Est & Ed); [done..|].
  rewrite bind_Ok. cbv beta.
  set (c2 := set_mMeter _ c1).
  assert (Run_ready c2) as H2.
  { subst c2. destruct H1 as (? & ? & ? & ? & ?).
    unfold Run_ready, DisableEqualizer. simpl_members. cbn [mSigLen]. tauto. }
  change (mClasses c2) with (mClasses c1). rewrite (proj1 H1).
  change (length classes) with 10.
  destruct (Run_stereo_loop c2 H2)
    as (c3 & -> & H3 & E1 & E2 & L3 & Emono & Ls & Fs & Em3 & Est3 & Ed3).
  { exact L1. } { exact E3. } { subst c2. simpl_members. rewrite Es. exact Hstereo. }
  rewrite bind_Ok. exists c3. split; [reflexivity|]. split; [exact (proj1 H3)|].
  rewrite E1, E2, Emono. change (mPLo c2) with (mPLo c1). change (mPHiM c2) with (mPHiM c1).
  change (mMonoFeat c2) with (mMonoFeat c1).
  split; [exact L1|]. split; [exact L2|]. split; [exact L3|]. split.
  { intros n Hn. split; [by apply Fm|].
    rewrite Fs by done. rewrite E1. reflexivity. }
  rewrite Em3, Est3, Ed3. subst c2. simpl_members.
  split; [reflexivity|]. rewrite Est, Ed, Em. subst c0. simpl_members.
  repeat split; reflexivity.
Qed.

Lemma Run_result_frame (c : FormatClassifier) :
  mClasses (Run_result c) = mClasses c /\ mReader (Run_result c) = mReader c
  /\ mMeter (Run_result c) = mMeter c /\ mSignalStart (Run_result c) = mSignalStart c
  /\ mPLo (Run_result c) = mPLo c /\ mPHiM (Run_result c) = mPHiM c
  /\ mPHiS (Run_result c) = mPHiS c
  /\ mMonoFeat (Run_result c) = mMonoFeat c /\ mStereoFeat (Run_result c) = mStereoFeat c
  /\ mEqBuffer (Run_result c) = mEqBuffer c /\ mWinBuffer (Run_result c) = mWinBuffer c.
Proof.
  unfold Run_result.
  destruct (Max (mMonoFeat c) _) as [monoMax midx].
  destruct (Max (mStereoFeat c) _) as [stereoMax sidx].
  destruct (F32.ltb stereoMax monoMax); repeat split.
Qed.

(** X12.  [Run] starts from empty power vectors whatever they held, and
    ends with ten entries in each of [mPLo], [mPHiM] and [mPHiS]; the
    features are their quotients, [mMonoFeat[n] = mPLo[n] / mPHiM[n]] and
    [mStereoFeat[n] = mPLo[n] / mPHiS[n]] for each of the ten classes, so
    both features of a class share the low-band power of the mono pass.
    [Run] leaves the equalizer disabled and keeps [mSignalStart] and the
    contents of the file. *)
Theorem Run_features (c : FormatClassifier) :
  Run_ready c ->
  length (mMonoFeat c) = 10 -> length (mStereoFeat c) = 10 ->
  exists c',
    Run FFT c = Ok c'
    /\ length (mPLo c') = 10 /\ length (mPHiM c') = 10 /\ length (mPHiS c') = 10
    /\ (forall n, n < 10 ->
          mMonoFeat c' !! n = Some (F32.div (mPLo c' !!! n) (mPHiM c' !!! n))
          /\ mStereoFeat c' !! n = Some (F32.div (mPLo c' !!! n) (mPHiS c' !!! n)))
    /\ mEqEnabled (mMeter c') = false
    /\ mSignalStart c' = mSignalStart c
    /\ fdata (mpFid (mReader c')) = fdata (mpFid (mReader c)).
Proof.
  intros Hready Hmono Hstereo.
  destruct (Run_loops c Hready Hmono Hstereo)
    as (c3 & Heq & _ & L1 & L2 & L3 & Hfeat & Heq3 & _ & Hstart & Hdata).
  exists (Run_result c3). split; [exact Heq|].
  destruct (Run_result_frame c3) as (_ & R1 & R2 & R3 & R4 & R5 & R6 & R7 & R8 & _).
  rewrite R1, R2, R3, R4, R5, R6, R7, R8.
  repeat split; try assumption; by apply Hfeat.
Qed.

End FeatureFacts.

Lemma Run_features_witness :
  let c := mkClassifier classes (mkReader (mkFILE (replicate 3000 7%Z) 0) Little)
             (mkMeter 256 (replicate 256 F32.zero) false (replicate 256 F32.one))
             (replicate cSiglen F32.zero) (replicate cSiglen F32.zero)
             (replicate cSiglen F32.one) (replicate 256 F32.one)
             (replicate cRawSiglen 0%Z) cHeaderSkip [F32.one] [] [F32.one; F32.one]
             (replicate 10 F32.zero) (replicate 10 F32.zero)
             (mkClass Int8 Little) 0 in
  let FFT (_ : Z) (_ : bool) (re im : list float) := (re, im) in
  exists c', Run FFT c = Ok c' /\ length (mPLo c') = 10 /\ length (mPHiS c') = 10.
Proof.
  intros c FFT.
  destruct (Run_features FFT c) as (c' & Heq & L1 & _ & L3 & _).
  { split; [reflexivity|]. split; [reflexivity|]. split; [reflexivity|].
    split; reflexivity. }
  { reflexivity. } { reflexivity. }
  exists c'. exact (conj Heq (conj L1 L3)).
Defined.

(** ** What the search reads *)

Section ProbeFacts.

(** A complete probe window holds the bytes of the file, whatever the raw
    buffer held and whatever the byte order of the host is. *)
Lemma probe_window (c : FormatClassifier) (k : nat) :
  length (mRawBuffer c) = cRawSiglen ->
  probe_full c k ->
  window_at c testFormat 1 (probe_offset k)
  = (fun n => F32.of_Z (fdata (mpFid (mReader c)) !!! (probe_offset k + n) mod 256))
      <$> seq 0 cSiglen.
Proof.
  intros Hraw Hfull. unfold window_at.
  change (format testFormat) with Uint8. change (endian testFormat) with Little.
  destruct (ReadSamples_spec (ResetAt (probe_offset k) (mReader c)) (mRawBuffer c)
              cSiglen 1 Uint8 Little)
    as (b & a & f & -> & Hl & _ & Hlook & _); [lia| |].
  { rewrite Hraw. unfold cRawSiglen. change (width Uint8) with 1. lia. }
  apply probe_full_iff in Hfull.
  unfold ResetAt, fseek_set in Hlook. cbn [mpFid with_fid fdata fpos mEnd] in Hlook.
  change (width Uint8) with 1 in Hlook.
  apply list_fmap_ext. intros i n Hi. apply lookup_seq in Hi as [Heq Hn].
  cbn [Nat.add] in Heq. subst i.
  unfold cast_sample, load. f_equal.
  assert (b !! n = Some (fdata (mpFid (mReader c)) !!! (probe_offset k + n))) as Hb.
  { rewrite Hlook. cbv zeta. unfold swap_index. rewrite mirror_1.
    assert (forall b : bool, (if b then n else n) = n) as Hif by (by intros []).
    rewrite Hif.
    assert (file_index (probe_offset k) 1 1 n = probe_offset k + n) as ->.
    { unfold file_index. rewrite Nat.div_1_r, Nat.mod_1_r. lia. }
    rewrite decide_True by lia. apply list_lookup_lookup_total_lt. lia. }
  rewrite Nat.mul_1_r. rewrite (drop_S _ _ _ Hb). cbn [take].
  rewrite take_0. unfold le_val, byte in *.
  destruct (mEnd (mReader c)); cbn [rev app fold_right]; lia.
Qed.

Lemma same_probes_full (c1 c2 : FormatClassifier) (k : nat) :
  same_probes c1 c2 -> probe_full c1 k <-> probe_full c2 k.
Proof. intros [Hlen _]. unfold probe_full. by rewrite Hlen. Qed.

Lemma same_probes_rms (c1 c2 : FormatClassifier) (k : nat) :
  length (mRawBuffer c1) = cRawSiglen -> length (mRawBuffer c2) = cRawSiglen ->
  same_probes c1 c2 -> probe_full c1 k ->
  probe_rms c1 k = probe_rms c2 k.
Proof.
  intros Hraw1 Hraw2 Hsame Hfull. rewrite !probe_rms_eq.
  rewrite (probe_window c1 k Hraw1 Hfull).
  rewrite (probe_window c2 k Hraw2) by (by apply (same_probes_full c1 c2)).
  f_equal. apply list_fmap_ext. intros i n Hi. apply lookup_seq in Hi as [Heq Hn].
  cbn [Nat.add] in Heq. subst i. do 2 f_equal. rewrite !list_lookup_total_alt.
  destruct Hsame as [_ Hbytes]. pose proof (Hbytes k n Hfull Hn) as Hkn.
  unfold byte in *. by rewrite Hkn.
Qed.

Lemma same_probes_sym (c1 c2 : FormatClassifier) : same_probes c1 c2 -> same_probes c2 c1.
Proof.
  intros Hsame. pose proof Hsame as [Hlen Hbytes]. split; [done|].
  intros k j Hfull Hj. symmetry. apply Hbytes; [|done].
  by apply (same_probes_full c1 c2).
Qed.

Lemma same_probes_loud (c1 c2 : FormatClassifier) (i : nat) :
  length (mRawBuffer c1) = cRawSiglen -> length (mRawBuffer c2) = cRawSiglen ->
  same_probes c1 c2 -> first_loud_probe c1 i -> first_loud_probe c2 i.
Proof.
  intros Hraw1 Hraw2 Hsame (Hfull & Hquiet & Hloud).
  assert (forall k, k <= i -> probe_rms c2 k = probe_rms c1 k) as Hrms.
  { intros k Hk. symmetry. apply same_probes_rms; auto. }
  split; [|split].
  - intros k Hk. apply (same_probes_full c1 c2); auto.
  - intros k Hk. rewrite Hrms by lia. by apply Hquiet.
  - by rewrite Hrms.
Qed.

Lemma same_probes_gives_up (c1 c2 : FormatClassifier) (P : nat) :
  length (mRawBuffer c1) = cRawSiglen -> length (mRawBuffer c2) = cRawSiglen ->
  same_probes c1 c2 -> search_gives_up c1 P -> search_gives_up c2 P.
Proof.
  intros Hraw1 Hraw2 Hsame (Hbefore & Hnans & Hstop).
  assert (forall k, k < P -> probe_rms c2 k = probe_rms c1 k) as Hrms.
  { intros k Hk. symmetry. apply same_probes_rms; auto. by apply Hbefore. }
  split; [|split].
  - intros k Hk. rewrite Hrms by done. destruct (Hbefore k Hk) as [Hf Hq].
    split; [by apply (same_probes_full c1 c2)|done].
  - intros k Hk. rewrite Hrms by lia. by apply Hnans.
  - destruct Hstop as [Hnf|(P' & -> & Hnan)].
    + left. by rewrite <- (same_probes_full c1 c2).
    + right. exists P'. split; [done|]. by rewrite Hrms by lia.
Qed.

(** What [FindSignalStart] leaves in [mSignalStart], in the two cases. *)
Lemma FindSignalStart_cases (c : FormatClassifier) :
  length (mRawBuffer c) = cRawSiglen -> length (mSigBuffer c) = cSiglen ->
  exists c',
    FindSignalStart c = Ok c'
    /\ ((exists i, first_loud_probe c i
                   /\ mSignalStart c' = cHeaderSkip + i * cSigSearchGridSize * cSiglen)
        \/ (exists P, search_gives_up c P /\ mSignalStart c' = cHeaderSkip)).
Proof.
  intros Hraw Hsig.
  destruct (FindSignalStart_spec c Hraw Hsig) as (c' & Heq & _ & Hcases).
  exists c'. split; [exact Heq|].
  destruct Hcases as [(i & Hstart & Hi)|(Hstart & P & HP)].
  - left. exists i. split; [exact Hi|exact Hstart].
  - right. exists P. split; [exact HP|exact Hstart].
Qed.

End ProbeFacts.

(** X13.  [FindSignalStart] decides on the probe windows alone: two
    files of the same length that hold the same bytes in every complete
    probe window (the 1024 bytes at the offsets [1024 + k * 32 * 1024])
    get the same [mSignalStart], whatever the header and the bytes
    between the probe windows are, and whatever the buffers held and the
    byte order of the host is. *)
Theorem FindSignalStart_reads_probes_only (c1 c2 : FormatClassifier) :
  length (mRawBuffer c1) = cRawSiglen -> length (mSigBuffer c1) = cSiglen ->
  length (mRawBuffer c2) = cRawSiglen -> length (mSigBuffer c2) = cSiglen ->
  same_probes c1 c2 ->
  exists c1' c2',
    FindSignalStart c1 = Ok c1' /\ FindSignalStart c2 = Ok c2'
    /\ mSignalStart c1' = mSignalStart c2'.
Proof.
  intros Hraw1 Hsig1 Hraw2 Hsig2 Hsame.
  destruct (FindSignalStart_cases c1 Hraw1 Hsig1) as (c1' & Heq1 & Hcase1).
  destruct (FindSignalStart_cases c2 Hraw2 Hsig2) as (c2' & Heq2 & Hcase2).
  exists c1', c2'. split; [exact Heq1|]. split; [exact Heq2|].
  pose proof (same_probes_sym c1 c2 Hsame) as Hsame'.
  destruct Hcase1 as [(i1 & Hl1 & ->)|(P1 & Hg1 & ->)],
           Hcase2 as [(i2 & Hl2 & ->)|(P2 & Hg2 & ->)].
  - rewrite (first_loud_probe_unique c1 i1 i2 Hl1); [done|].
    by apply (same_probes_loud c2 c1).
  - exfalso. apply (first_loud_probe_excludes c1 i1 P2 Hl1).
    by apply (same_probes_gives_up c2 c1).
  - exfalso. apply (first_loud_probe_excludes c2 i2 P1 Hl2).
    by apply (same_probes_gives_up c1 c2).
  - reflexivity.
Qed.

Lemma FindSignalStart_reads_probes_only_witness :
  let c (header : Z) (host : EndiannessT) :=
    mkClassifier classes
      (mkReader (mkFILE (replicate 1024 header ++ replicate 1024 5%Z) 0) host)
      (mkMeter 256 (replicate 256 F32.zero) false (replicate 256 F32.one))
      (replicate cSiglen F32.zero) (replicate cSiglen F32.zero)
      (replicate cSiglen F32.one) (replicate 256 F32.one)
      (replicate cRawSiglen header) 0 [] [] []
      (replicate 10 F32.zero) (replicate 10 F32.zero)
      (mkClass Int8 Little) 0 in
  exists c1' c2',
    FindSignalStart (c 0%Z Little) = Ok c1'
    /\ FindSignalStart (c 77%Z Big) = Ok c2'
    /\ mSignalStart c1' = mSignalStart c2'.
Proof.
  intros c.
  apply (FindSignalStart_reads_probes_only (c 0%Z Little) (c 77%Z Big));
    try reflexivity.
  split.
  - cbn [c mReader mpFid fdata]. rewrite !length_app, !length_replicate. reflexivity.
  - intros k j _ _. cbn [c mReader mpFid fdata].
    unfold probe_offset, cHeaderSkip.
    rewrite !lookup_app_r by (rewrite length_replicate; lia).
    rewrite !length_replicate. reflexivity.
Defined.

(** ** What the search leaves untouched *)

Section Preservation.
Context {S : Type}.

Lemma fold_bind_Ok_inv (body : nat -> S -> result S) (l : list nat) (r : result S) (s' : S) :
  fold_left (fun m n => s ← m; body n s) l r = Ok s' -> exists s, r = Ok s.
Proof.
  revert r. induction l as [|n l IH]; intros r H; [by exists s'|].
  cbn [fold_left] in H. apply IH in H as [s H].
  destruct r as [s0| | |]; try discriminate H. by exists s0.
Qed.

(** A property that every pass through the body keeps holds when the
    loop is left. *)
Lemma for_loopM_keeps (P : S -> Prop) (lo hi : nat) (body : nat -> S -> result S)
    (s s' : S) :
  (forall n s s', P s -> body n s = Ok s' -> P s') ->
  P s -> for_loopM lo hi body s = Ok s' -> P s'.
Proof.
  intros Hbody. unfold for_loopM. generalize (seq lo (hi - lo)). intros l.
  revert s. induction l as [|n l IH]; intros s HP H.
  - injection H as <-. exact HP.
  - cbn [fold_left] in H. rewrite bind_Ok in H.
    destruct (fold_bind_Ok_inv _ _ _ _ H) as [s1 Hs1]. rewrite Hs1 in H.
    exact (IH s1 (Hbody n s s1 HP Hs1) H).
Qed.

Lemma while_loop_keeps (P : S -> Prop) (fuel : nat) (cond : S -> bool)
    (body : S -> result S) (s s' : S) :
  (forall s s', P s -> body s = Ok s' -> P s') ->
  P s -> while_loop fuel cond body s = Ok s' -> P s'.
Proof.
  intros Hbody. revert s. induction fuel as [|fuel IH]; intros s HP H; cbn [while_loop] in H.
  - destruct (cond s); [discriminate H|]. injection H as <-. exact HP.
  - destruct (cond s); [|injection H as <-; exact HP].
    destruct (body s) as [s1| | |] eqn:E; try discriminate H.
    rewrite bind_Ok in H. exact (IH s1 (Hbody s s1 HP E) H).
Qed.

End Preservation.

Lemma bind_Ok_inv {A B : Type} (m : result A) (k : A -> result B) (b : B) :
  (m ≫= k) = Ok b -> exists a, m = Ok a /\ k a = Ok b.
Proof. destruct m as [a| | |]; try discriminate. intros H. by exists a. Qed.

Lemma Ok_inj {A : Type} (a b : A) : Ok a = Ok b -> a = b.
Proof. by intros [= ->]. Qed.

Lemma FindSignalStart_body_keeps_aux (c : FormatClassifier) (s s' : search) :
  mAuxBuffer (s_c s) = mAuxBuffer c -> FindSignalStart_body s = Ok s' ->
  mAuxBuffer (s_c s') = mAuxBuffer c.
Proof.
  intros HP. unfold FindSignalStart_body.
  destruct (F32.leb cMinRms _).
  { intros H. apply Ok_inj in H. rewrite <- H. exact HP. }
  intros H. apply bind_Ok_inv in H as ([c1 a1] & E & H).
  assert (mAuxBuffer c1 = mAuxBuffer c) as H1.
  { apply (for_loopM_keeps (fun p => mAuxBuffer p.1 = mAuxBuffer c) _ _ _ _ _) in E;
      [exact E| |exact HP].
    clear. intros n [c0 a0] [c1 a1] HP H. cbn [fst] in *.
    apply bind_Ok_inv in H as ([[raw a] rd] & _ & H).
    apply Ok_inj in H. injection H as <- _. exact HP. }
  destruct (decide (a1 = cSiglen)); apply Ok_inj in H; rewrite <- H; exact H1.
Qed.

(** [FindSignalStart] never writes to [mAuxBuffer]. *)
Lemma FindSignalStart_keeps_aux (c c' : FormatClassifier) :
  FindSignalStart c = Ok c' -> mAuxBuffer c' = mAuxBuffer c.
Proof.
  unfold FindSignalStart. intros H.
  apply bind_Ok_inv in H as ([[raw0 a0] rd0] & _ & H). cbv beta iota zeta in H.
  apply bind_Ok_inv in H as ([[raw1 a1] rd1] & _ & H). cbv beta iota zeta in H.
  apply bind_Ok_inv in H as (s & E & H).
  assert (mAuxBuffer (s_c s) = mAuxBuffer c) as Hs.
  { apply (while_loop_keeps (fun s => mAuxBuffer (s_c s) = mAuxBuffer c) _ _ _ _ _) in E;
      [exact E|apply FindSignalStart_body_keeps_aux|reflexivity]. }
  destruct (s_signalFound s); apply Ok_inj in H; rewrite <- H; exact Hs.
Qed.

(** X14.  [FindSignalStart] leaves in [mSignalStart] the offset
    [1024 + i * 32 * 1024] of a probe window.  When that offset is not
    1024, the file holds the whole window of 1024 bytes that starts
    there; 1024 itself is also the answer when nothing was found, so for
    a file shorter than 2048 bytes [mSignalStart] is 1024 even when the
    file ends before that offset.  The search changes the position of
    the reader, the raw buffer and the signal buffer only: the file, the
    byte order, the lengths of the buffers, the contents of [mAuxBuffer]
    and all other members are as before. *)
Theorem FindSignalStart_start_in_file (c : FormatClassifier) :
  length (mRawBuffer c) = cRawSiglen -> length (mSigBuffer c) = cSiglen ->
  let L := length (fdata (mpFid (mReader c))) in
  exists c',
    FindSignalStart c = Ok c'
    /\ (exists i, mSignalStart c' = cHeaderSkip + i * cSigSearchGridSize * cSiglen)
    /\ (mSignalStart c' = cHeaderSkip \/ mSignalStart c' + cSiglen <= L)
    /\ (L < cHeaderSkip + cSiglen -> mSignalStart c' = cHeaderSkip)
    /\ same_frame c c'
    /\ mAuxBuffer c' = mAuxBuffer c.
Proof.
  intros Hraw Hsig L.
  destruct (FindSignalStart_spec c Hraw Hsig) as (c' & Heq & [Hframe _] & Hcases).
  exists c'. split; [exact Heq|].
  assert ((exists i, mSignalStart c' = cHeaderSkip + i * cSigSearchGridSize * cSiglen)
          /\ (mSignalStart c' = cHeaderSkip \/ mSignalStart c' + cSiglen <= L)
          /\ (L < cHeaderSkip + cSiglen -> mSignalStart c' = cHeaderSkip)) as (H1 & H2 & H3).
  { destruct Hcases as [(i & Hstart & Hfull & _)|(Hstart & _)].
    - pose proof (Hfull i (le_n i)) as Hi. apply probe_full_iff in Hi.
      fold L in Hi. unfold probe_offset in Hi.
      split; [by exists i|]. split; [right; rewrite Hstart; lia|].
      intros Hshort. rewrite Hstart. nia.
    - split; [exists 0; rewrite Hstart; lia|]. split; [by left|done]. }
  split; [exact H1|]. split; [exact H2|]. split; [exact H3|].
  split; [exact Hframe|]. exact (FindSignalStart_keeps_aux c c' Heq).
Qed.

Lemma FindSignalStart_start_in_file_witness :
  let c := mkClassifier classes (mkReader (mkFILE (replicate 1500 9%Z) 0) Little)
             (mkMeter 256 (replicate 256 F32.zero) false (replicate 256 F32.one))
             (replicate cSiglen F32.zero) (replicate cSiglen F32.zero)
             (replicate cSiglen F32.one) (replicate 256 F32.one)
             (replicate cRawSiglen 0%Z) 0 [] [] []
             (replicate 10 F32.zero) (replicate 10 F32.zero)
             (mkClass Int8 Little) 0 in
  exists c', FindSignalStart c = Ok c' /\ mSignalStart c' = cHeaderSkip.
Proof.
  intros c.
  destruct (FindSignalStart_start_in_file c) as (c' & Heq & _ & _ & Hshort & _);
    [reflexivity|reflexivity|].
  exists c'. split; [exact Heq|]. apply Hshort.
  cbn [c mReader mpFid fdata]. rewrite length_replicate.
  unfold cHeaderSkip, cSiglen. lia.
Defined.

Section MaskFacts.
Variable powf : float -> float -> float.

(** X15.  [CalcEqualizerMask] makes the first [len] entries of the
    buffer symmetric for every length [len], even or odd: entries [n] and
    [len - 1 - n] are equal.  For an odd [len] the middle entry keeps the
    value it had, and the entries from [len] on are never written. *)
Theorem CalcEqualizerMask_symmetric (buffer : list float) (len : nat) :
  len <= length buffer ->
  let mask := CalcEqualizerMask powf buffer len in
  length mask = length buffer
  /\ (forall n, n < len -> mask !! (len - 1 - n) = mask !! n)
  /\ (forall n, n < len -> len = 2 * n + 1 -> mask !! n = buffer !! n)
  /\ (forall n, len <= n -> mask !! n = buffer !! n).
Proof.
  intros Hlen mask.
  pose proof (Nat.div_mod_eq len 2) as Hdiv.
  pose proof (Nat.mod_upper_bound len 2 ltac:(lia)) as Hmod.
  split.
  { subst mask. unfold CalcEqualizerMask.
    apply (for_loop_ind (fun _ b => length b = length buffer)); [done|].
    intros n b _ Hb.
    repeat match goal with |- context [if ?c then _ else _] => destruct c end;
      by rewrite !length_insert. }
  split; [|split].
  - intros n Hn. subst mask. rewrite !CalcEqualizerMask_lookup by done.
    repeat case_decide; try lia; try done.
    + by replace (len - 1 - (len - 1 - n)) with n by lia.
    + by replace (len - 1 - n) with n by lia.
  - intros n Hn Hodd. subst mask. rewrite CalcEqualizerMask_lookup by done.
    rewrite decide_False by lia. rewrite decide_False by lia. reflexivity.
  - intros n Hn. subst mask. rewrite CalcEqualizerMask_lookup by done.
    rewrite decide_False by lia. rewrite decide_False by lia. reflexivity.
Qed.

End MaskFacts.

Lemma CalcEqualizerMask_symmetric_witness :
  let powf (x y : float) := F32.lit 2512 10000 in
  let mask := CalcEqualizerMask powf (replicate 9 (F32.of_Z 7)) 7 in
  mask !! 6 = mask !! 0 /\ mask !! 3 = Some (F32.of_Z 7).
Proof.
  intros powf mask.
  destruct (CalcEqualizerMask_symmetric powf (replicate 9 (F32.of_Z 7)) 7)
    as (_ & Hsym & Hmid & _); [simpl; lia|].
  split; [exact (Hsym 0 ltac:(lia))|].
  etransitivity; [apply (Hmid 3); lia|reflexivity].
Defined.

(** ** The constructor *)

Section ConstructorFacts.
Variables sinf cosf : float -> float.
Variable powf : float -> float -> float.
Variable FFT : Z -> bool -> list float -> list float -> list float * list float.

Lemma CalcSincwin_length (buffer : list float) (len : nat) :
  length (CalcSincwin sinf cosf buffer len) = length buffer.
Proof.
  unfold CalcSincwin.
  apply (for_loop_ind (fun _ b => length b = length buffer)); [done|].
  intros n b _ Hb. cbv zeta. by rewrite !length_insert.
Qed.

Lemma CalcEqualizerMask_length (buffer : list float) (len : nat) :
  length (CalcEqualizerMask powf buffer len) = length buffer.
Proof.
  unfold CalcEqualizerMask.
  apply (for_loop_ind (fun _ b => length b = length buffer)); [done|].
  intros n b _ Hb.
  repeat match goal with |- context [if ?c then _ else _] => destruct c end;
    by rewrite !length_insert.
Qed.

Lemma SetEqualizer_fresh (n : nat) (mask : list float) :
  length mask = n ->
  mEqMask (SetEqualizer (new_SpecPowerMeter (Z.of_nat n)) mask n) = mask.
Proof.
  intros Hlen. unfold SetEqualizer, new_SpecPowerMeter. cbn [mEqMask].
  rewrite Nat2Z.id, take_ge by lia.
  apply list_eq. intros j.
  destruct (decide (j < n)) as [Hj|Hj].
  - rewrite list_lookup_inserts by (rewrite ?length_replicate; lia).
    f_equal. lia.
  - rewrite !lookup_ge_None_2; [done|lia|].
    rewrite length_inserts, length_replicate. lia.
Qed.

(** The constructor after [FindSignalStart]. *)
Lemma constructor_tail (c1 : FormatClassifier) (mono stereo : list float) :
  mClasses c1 = classes ->
  length (mRawBuffer c1) = cRawSiglen ->
  length (mSigBuffer c1) = cSiglen ->
  length (mAuxBuffer c1) = cSiglen ->
  mMeter c1 = new_SpecPowerMeter (Z.of_nat mFiltSiglen) ->
  length (mEqBuffer c1) = mFiltSiglen ->
  length mono = 10 -> length stereo = 10 ->
  let c2 := set_mStereoFeat stereo (set_mMonoFeat mono c1) in
  let c3 := set_mWinBuffer (CalcSincwin sinf cosf (mWinBuffer c2) cSiglen) c2 in
  let c4 := set_mEqBuffer (CalcEqualizerMask powf (mEqBuffer c3) mFiltSiglen) c3 in
  let c5 := set_mMeter (SetEqualizer (mMeter c4) (mEqBuffer c4) mFiltSiglen) c4 in
  exists c,
    Run FFT c5 = Ok c
    /\ mResultFormat c ∈ classes
    /\ (mResultChannels c = 1%Z \/ mResultChannels c = 2%Z)
    /\ mClasses c = classes
    /\ mSignalStart c = mSignalStart c1
    /\ fdata (mpFid (mReader c)) = fdata (mpFid (mReader c1))
    /\ mEqMask (mMeter c) = CalcEqualizerMask powf (mEqBuffer c1) mFiltSiglen.
Proof.
  intros Hcls Hraw Hsig Haux Hmeter Heqb Hmono Hstereo c2 c3 c4 c5.
  assert (Run_ready c5) as Hready.
  { unfold Run_ready. subst c5 c4 c3 c2. unfold set_mEqBuffer, set_mWinBuffer, SetEqualizer.
    simpl_members. cbn [mSigLen]. rewrite Hmeter.
    repeat split; assumption || reflexivity. }
  destruct (Run_loops FFT c5 Hready)
    as (c6 & -> & Hcls6 & _ & _ & _ & _ & _ & Hmask6 & Hstart6 & Hdata6);
    [exact Hmono|exact Hstereo|].
  exists (Run_result c6). split; [reflexivity|].
  pose proof (Run_result_spec c6 Hcls6) as (_ & _ & _ & _ & _ & Hin & Hch).
  split; [exact Hin|]. split; [exact Hch|].
  destruct (Run_result_frame c6) as (R1 & R2 & R3 & R4 & _).
  rewrite R1, R2, R3, R4, Hstart6, Hdata6, Hmask6.
  split; [exact Hcls6|]. split; [reflexivity|]. split; [reflexivity|].
  subst c5 c4 c3 c2. unfold set_mEqBuffer, set_mWinBuffer. simpl_members.
  rewrite Hmeter. apply SetEqualizer_fresh.
  rewrite CalcEqualizerMask_length. exact Heqb.
Qed.

(** X16.  The constructor raises the "Error opening file" exception
    when the file cannot be opened, and nothing else: for every file
    that opens, whatever it holds (an empty file included), whatever the
    uninitialised memory holds and whatever [sinf], [cosf], [powf] and
    the FFT compute, it returns, with one of the ten classes as the
    result format and 1 or 2 as the number of channels.  The meter ends
    up with the equalizer mask that [CalcEqualizerMask] computes from a
    zeroed buffer, the file is unchanged and [mSignalStart] is at least
    1024. *)
Theorem new_FormatClassifier_returns (file : option (list byte)) (host : EndiannessT)
    (u : Indeterminate) :
  match file with
  | None => new_FormatClassifier sinf cosf powf FFT file host u = Throw FileOpen
  | Some data =>
      exists c,
        new_FormatClassifier sinf cosf powf FFT file host u = Ok c
        /\ mResultFormat c ∈ classes
        /\ (mResultChannels c = 1%Z \/ mResultChannels c = 2%Z)
        /\ mClasses c = classes
        /\ cHeaderSkip <= mSignalStart c
        /\ fdata (mpFid (mReader c)) = data
        /\ mEqMask (mMeter c)
           = CalcEqualizerMask powf (replicate mFiltSiglen F32.zero) mFiltSiglen
  end.
Proof.
  destruct file as [data|]; [|reflexivity].
  unfold new_FormatClassifier, new_MultiFormatReader. rewrite bind_Ok.
  set (c0 := mkClassifier _ _ _ _ _ _ _ _ _ _ _ _ _ _ _ _).
  destruct (FindSignalStart_spec c0) as (c1 & -> & [Hframe _] & Hcases);
    [apply length_replicate..|].
  rewrite bind_Ok. cbv beta zeta.
  destruct Hframe as (Hmem & Hdata & _ & Hlraw & Hlsig & Hlaux).
  destruct Hmem as (Hcls & Hmeter & _ & Heqb & _).
  destruct (constructor_tail c1 (u_MonoFeat u <$> seq 0 (length (mClasses c1)))
              (u_StereoFeat u <$> seq 0 (length (mClasses c1))))
    as (c & Hrun & Hin & Hch & Hcls' & Hstart & Hfile & Hmask).
  - exact Hcls.
  - rewrite Hlraw. apply length_replicate.
  - rewrite Hlsig. apply length_replicate.
  - rewrite Hlaux. apply length_replicate.
  - exact Hmeter.
  - rewrite Heqb. apply length_replicate.
  - rewrite Hcls, length_fmap, length_seq. reflexivity.
  - rewrite Hcls, length_fmap, length_seq. reflexivity.
  - exists c. split; [exact Hrun|]. split; [exact Hin|]. split; [exact Hch|].
    split; [exact Hcls'|]. rewrite Hstart, Hfile, Hmask, Hdata, Heqb.
    split; [|split; reflexivity].
    destruct Hcases as [(i & -> & _)|(-> & _)]; [lia|].
    apply Nat.le_refl.
Qed.

End ConstructorFacts.

(** * Integration, normalisation and features of a pass *)

(** ** Normalisation in binary32 *)

Section NotANumber.

Lemma mul_nan_l (x : float) : F32.mul S754_nan x = S754_nan.
Proof. reflexivity. Qed.

Lemma add_nan_l (x : float) : F32.add S754_nan x = S754_nan.
Proof. reflexivity. Qed.

Lemma add_nan_r (x : float) : F32.add x S754_nan = S754_nan.
Proof. by destruct x as [[]|[]| |[] m e]. Qed.

Lemma sub_nan_r (x : float) : F32.sub x S754_nan = S754_nan.
Proof. by destruct x as [[]|[]| |[] m e]. Qed.

Lemma div_nan_r (x : float) : F32.div x S754_nan = S754_nan.
Proof. by destruct x as [[]|[]| |[] m e]. Qed.

Lemma fold_add_nan_acc (l : list float) : fold_left F32.add l S754_nan = S754_nan.
Proof. induction l as [|x l IH]; [reflexivity|]. cbn [fold_left]. by rewrite add_nan_l. Qed.

Lemma fold_add_nan (l : list float) (a : float) :
  S754_nan ∈ l -> fold_left F32.add l a = S754_nan.
Proof.
  revert a. induction l as [|x l IH]; intros a Hin; [by apply elem_of_nil in Hin|].
  cbn [fold_left]. apply elem_of_cons in Hin as [<-|Hin].
  - rewrite add_nan_r. apply fold_add_nan_acc.
  - by apply IH.
Qed.

Lemma fold_sq_nan_acc (l : list float) :
  fold_left (fun acc x => F32.add acc (F32.mul x x)) l S754_nan = S754_nan.
Proof. induction l as [|x l IH]; [reflexivity|]. cbn [fold_left]. by rewrite add_nan_l. Qed.

Lemma fold_sq_nan (l : list float) (a : float) :
  S754_nan ∈ l -> fold_left (fun acc x => F32.add acc (F32.mul x x)) l a = S754_nan.
Proof.
  revert a. induction l as [|x l IH]; intros a Hin; [by apply elem_of_nil in Hin|].
  cbn [fold_left]. apply elem_of_cons in Hin as [<-|Hin].
  - rewrite mul_nan_l, add_nan_r. apply fold_sq_nan_acc.
  - by apply IH.
Qed.

(** [Mean] and [Rms] of an array with a NaN among its first [len]
    elements. *)
Lemma Mean_nan (l : list float) (len j : nat) :
  len <= length l -> j < len -> l !! j = Some S754_nan -> Mean l len = S754_nan.
Proof.
  intros Hlen Hj Hl. rewrite Mean_eq by exact Hlen.
  change f_add with F32.add. change f_div with F32.div.
  rewrite fold_add_nan; [reflexivity|].
  apply list_elem_of_lookup. exists j. by rewrite lookup_take_lt.
Qed.

Lemma Rms_nan (l : list float) (len j : nat) :
  len <= length l -> j < len -> l !! j = Some S754_nan -> Rms l len = S754_nan.
Proof.
  intros Hlen Hj Hl. rewrite Rms_eq by exact Hlen.
  change f_add with F32.add. change f_mul with F32.mul. change f_sqrt with F32.sqrt.
  rewrite fold_sq_nan; [reflexivity|].
  apply list_elem_of_lookup. exists j. by rewrite lookup_take_lt.
Qed.

(** A sum of squares of zeros and NaNs is [+0] or NaN. *)
Lemma fold_sq_zero_or_nan (l : list float) (a : float) :
  a = F32.zero \/ a = S754_nan ->
  (forall x, x ∈ l -> x = S754_nan \/ exists s, x = S754_zero s) ->
  let r := fold_left (fun acc x => F32.add acc (F32.mul x x)) l a in
  r = F32.zero \/ r = S754_nan.
Proof.
  revert a. induction l as [|x l IH]; intros a Ha Hl; [exact Ha|].
  cbn [fold_left]. apply IH.
  - destruct (Hl x) as [->|[s ->]]; [by left| |].
    + right. by rewrite mul_nan_l, add_nan_r.
    + destruct Ha as [->| ->]; [left|right]; by destruct s.
  - intros y Hy. apply Hl. by right.
Qed.

End NotANumber.

Section NormaliseFacts.

(** The chain of [Preprocess], element by element. *)
Lemma Preprocess_lookup (sig aux win : list float) (j : nat) :
  length aux = cSiglen ->
  let folded := (FilterPolyphase sig aux win cPolyTaps cSiglen).2 in
  let mean := Mean folded mFiltSiglen in
  let centred := Sub folded mean mFiltSiglen in
  let rms := Rms centred mFiltSiglen in
  let out := (Preprocess sig aux win).2 in
  length folded = cSiglen /\ length centred = cSiglen /\ length out = cSiglen
  /\ (j < mFiltSiglen ->
      exists y, folded !! j = Some y /\ centred !! j = Some (F32.sub y mean)
                /\ out !! j = Some (F32.div (F32.sub y mean) rms))
  /\ (mFiltSiglen <= j -> centred !! j = folded !! j /\ out !! j = folded !! j).
Proof.
  intros Hlen folded mean centred rms out.
  assert (length folded = cSiglen) as Hf.
  { subst folded. by rewrite (proj2 (FilterPolyphase_length _ _ _ _ _)). }
  assert (length centred = cSiglen) as Hc by (subst centred; by rewrite Sub_length).
  assert (out = Div centred rms mFiltSiglen) as Hout by apply Preprocess_eq.
  assert (length out = cSiglen) as Ho by (rewrite Hout; by rewrite Div_length).
  assert (mFiltSiglen <= cSiglen) as Hle by (vm_compute; lia).
  split; [exact Hf|]. split; [exact Hc|]. split; [exact Ho|].
  assert (forall i, centred !! i
            = if decide (i < mFiltSiglen) then (fun x => f_sub x mean) <$> folded !! i
              else folded !! i) as Hcl.
  { intros i. subst centred. unfold Sub.
    apply (for_loop_update (fun _ x => f_sub x mean)). }
  assert (forall i, out !! i
            = if decide (i < mFiltSiglen) then (fun x => f_div x rms) <$> centred !! i
              else centred !! i) as Hol.
  { intros i. rewrite Hout. unfold Div.
    apply (for_loop_update (fun _ x => f_div x rms)). }
  split.
  - intros Hj. destruct (lookup_lt_is_Some_2 folded j) as [y Hy]; [lia|].
    exists y. split; [exact Hy|].
    assert (centred !! j = Some (F32.sub y mean)) as Hcj
      by (rewrite Hcl, decide_True, Hy by exact Hj; reflexivity).
    split; [exact Hcj|]. rewrite Hol, decide_True, Hcj by exact Hj. reflexivity.
  - intros Hj.
    assert (centred !! j = folded !! j) as Hcj by (rewrite Hcl, decide_False by lia; done).
    split; [exact Hcj|]. rewrite Hol, decide_False by lia. exact Hcj.
Qed.


End NormaliseFacts.


Section NanSample.

Lemma fold_add_nan_term {A : Type} (g : A -> float) (l : list A) (a : float) (k : A) :
  k ∈ l -> g k = S754_nan ->
  fold_left (fun acc k => F32.add acc (g k)) l a = S754_nan.
Proof.
  intros Hin Hg. revert a. induction l as [|x l IH]; intros a; [by apply elem_of_nil in Hin|].
  cbn [fold_left]. apply elem_of_cons in Hin as [<-|Hin].
  - rewrite Hg, add_nan_r. clear. induction l as [|y l IH]; [reflexivity|exact IH].
  - by apply IH.
Qed.

(** When [rms] is NaN the whole result is NaN. *)
Lemma Preprocess_nan_rms (sig aux win : list float) :
  length aux = cSiglen ->
  let folded := (FilterPolyphase sig aux win cPolyTaps cSiglen).2 in
  let centred := Sub folded (Mean folded mFiltSiglen) mFiltSiglen in
  let out := (Preprocess sig aux win).2 in
  Rms centred mFiltSiglen = S754_nan ->
  (forall j, j < mFiltSiglen -> out !! j = Some S754_nan)
  /\ Mean out mFiltSiglen = S754_nan /\ Rms out mFiltSiglen = S754_nan.
Proof.
  intros Hlen folded centred out Hnan.
  destruct (Preprocess_lookup sig aux win 0 Hlen) as (_ & _ & Ho & _).
  fold out in Ho.
  assert (mFiltSiglen <= cSiglen) as Hle by (vm_compute; lia).
  assert (0 < mFiltSiglen) as Hpos by (vm_compute; lia).
  assert (forall j, j < mFiltSiglen -> out !! j = Some S754_nan) as Hall.
  { intros j Hj.
    destruct (Preprocess_lookup sig aux win j Hlen) as (_ & _ & _ & Hin & _).
    destruct (Hin Hj) as (y & _ & _ & Hy).
    etransitivity; [exact Hy|]. fold folded centred. rewrite Hnan. by rewrite div_nan_r. }
  split; [exact Hall|]. split.
  - apply (Mean_nan out mFiltSiglen 0); [lia|exact Hpos|apply Hall; exact Hpos].
  - apply (Rms_nan out mFiltSiglen 0); [lia|exact Hpos|apply Hall; exact Hpos].
Qed.

(** A NaN among the [S] samples makes [rms] NaN, whatever the window
    is. *)
Lemma Preprocess_nan_sample (sig aux win : list float) (i : nat) :
  length aux = cSiglen -> i < cSiglen -> sig !! i = Some S754_nan ->
  let folded := (FilterPolyphase sig aux win cPolyTaps cSiglen).2 in
  let centred := Sub folded (Mean folded mFiltSiglen) mFiltSiglen in
  Rms centred mFiltSiglen = S754_nan.
Proof.
  intros Hlen Hi Hsig folded centred.
  destruct (Preprocess_lookup sig aux win 0 Hlen) as (Hf & Hc & _ & Hin & _).
  fold folded centred in Hf, Hc, Hin.
  assert (mFiltSiglen <= cSiglen) as Hle by (vm_compute; lia).
  assert (0 < mFiltSiglen) as Hpos by (vm_compute; lia).
  assert (cSiglen / cPolyTaps = mFiltSiglen) as Hout by reflexivity.
  assert (cSiglen = cPolyTaps * mFiltSiglen) as Hmul by reflexivity.
  set (xw := (FilterPolyphase sig aux win cPolyTaps cSiglen).1).
  assert (xw !!! i = S754_nan) as Hx.
  { apply list_lookup_total_correct. subst xw.
    rewrite FilterPolyphase_window, decide_True by exact Hi.
    unfold float in *. rewrite Hsig. reflexivity. }
  assert (folded !! (i mod mFiltSiglen) = Some S754_nan) as Hy.
  { destruct (FilterPolyphase_branches sig aux win cPolyTaps cSiglen) as [Hfold _].
    { rewrite Hlen. apply Nat.Div0.div_le_upper_bound. unfold cPolyTaps. lia. }
    fold folded xw in Hfold. rewrite Hout in Hfold.
    etransitivity; [apply Hfold; apply Nat.mod_upper_bound; lia|]. f_equal.
    apply (fold_add_nan_term (fun k => xw !!! (k * mFiltSiglen + i mod mFiltSiglen))
                             _ _ (i / mFiltSiglen)).
    - apply elem_of_seq. split; [lia|]. cbn [Nat.add].
      apply Nat.Div0.div_lt_upper_bound. lia.
    - rewrite <- Hx. f_equal. pose proof (Nat.div_mod_eq i mFiltSiglen). lia. }
  assert (Mean folded mFiltSiglen = S754_nan) as Hmean.
  { apply (Mean_nan folded mFiltSiglen (i mod mFiltSiglen)); [lia| |exact Hy].
    apply Nat.mod_upper_bound. lia. }
  apply (Rms_nan centred mFiltSiglen 0); [lia|exact Hpos|].
  destruct (Hin Hpos) as (y & _ & Hc0 & _).
  etransitivity; [exact Hc0|]. rewrite Hmean. by rewrite sub_nan_r.
Qed.

End NanSample.

Section WindowFacts.
Variable c : FormatClassifier.
Variable fmt : FormatClassT.
Variable s : nat.
Hypothesis Hs : 1 <= s.
Hypothesis Hraw : cSiglen * 8 <= length (mRawBuffer c).

Let W := width (format fmt).
Let L := length (fdata (mpFid (mReader c))).

Lemma cast_sample_value (host : EndiannessT) (raw : list byte) (n : nat) :
  cast_sample host (format fmt) raw n
  = sample_value (format fmt) (load host raw (width (format fmt)) n).
Proof. by destruct (format fmt). Qed.

Lemma window_at_length (o : nat) : length (window_at c fmt s o) = cSiglen.
Proof.
  unfold window_at.
  destruct (ReadSamples_spec (ResetAt o (mReader c)) (mRawBuffer c) cSiglen s
              (format fmt) (endian fmt)) as (b & a & f & -> & _); [exact Hs| |].
  { pose proof (width_pos (format fmt)). nia. }
  by rewrite length_fmap, length_seq.
Qed.

(** A sample of a window that lies inside the file is the conversion of
    its bytes in the file, read in the byte order of the class. *)
Lemma window_at_file (o j : nat) :
  j < cSiglen -> o + j * (s * W) + W <= L ->
  window_at c fmt s o !! j
  = Some (sample_value (format fmt)
            (load_at (endian fmt) (fdata (mpFid (mReader c))) (o + j * (s * W)) W)).
Proof.
  intros Hj Hin. unfold window_at.
  assert (cSiglen * width (format fmt) <= length (mRawBuffer c)) as Hbuf.
  { pose proof (width_pos (format fmt)). nia. }
  destruct (ReadSamples_spec (ResetAt o (mReader c)) (mRawBuffer c) cSiglen s
              (format fmt) (endian fmt) Hs Hbuf) as (b & a & f & Heq & _).
  rewrite Heq. rewrite list_lookup_fmap, lookup_seq_lt by exact Hj.
  cbn [fmap option_fmap option_map Nat.add]. f_equal.
  rewrite cast_sample_value. f_equal.
  assert (j < a) as Ha.
  { rewrite (CountFacts.ReadSamples_count _ _ _ _ _ _ _ _ _ Hs Heq).
    apply CountFacts.samples_available_lt; [apply width_pos|exact Hs|].
    split; [exact Hj|exact Hin]. }
  exact (ValueFacts.ReadSamples_load _ _ _ _ _ _ _ _ _ j Hs Hbuf Heq Ha).
Qed.

Lemma window_sum_length (m : nat) : length (window_sum c fmt s m) = cSiglen.
Proof. unfold window_sum. by rewrite length_fmap, length_seq. Qed.

Lemma window_sum_lookup (m j : nat) :
  j < cSiglen ->
  window_sum c fmt s m !! j
  = Some (fold_left
            (fun acc k => F32.add acc (window_at c fmt s (window_offset c fmt s k) !!! j))
            (seq 1 (m - 1))
            (window_at c fmt s (window_offset c fmt s 0) !!! j)).
Proof.
  intros Hj. unfold window_sum.
  by rewrite list_lookup_fmap, lookup_seq_lt by exact Hj.
Qed.

Hypothesis Hsig : length (mSigBuffer c) = cSiglen.
Hypothesis Haux : length (mAuxBuffer c) = cSiglen.

(** What the loop of [ReadSignal] accumulates with [Add] is the
    element-wise sum. *)
Lemma integrate_window_sum (m : nat) :
  1 <= m -> integrate c fmt s m = window_sum c fmt s m.
Proof.
  intros Hm. induction m as [|m IH]; [lia|].
  destruct (decide (m = 0)) as [->|Hne].
  - rewrite integrate_1. apply list_eq. intros j.
    destruct (decide (j < cSiglen)) as [Hj|Hj].
    + rewrite window_sum_lookup by exact Hj. cbn [Nat.sub seq fold_left].
      apply list_lookup_lookup_total_lt. rewrite window_at_length. exact Hj.
    + rewrite !lookup_ge_None_2; [done|rewrite window_sum_length; lia|].
      rewrite window_at_length. lia.
  - rewrite (integrate_S c fmt s Hs Hraw Hsig Haux) by lia. rewrite IH by lia.
    apply list_eq. intros j. rewrite Add_lookup.
    destruct (decide (j < cSiglen)) as [Hj|Hj].
    + rewrite !window_sum_lookup by exact Hj. cbn [fmap option_fmap option_map].
      replace (S m - 1) with (S (m - 1)) by lia.
      rewrite seq_S, fold_left_app. cbn [fold_left].
      by replace (1 + (m - 1)) with m by lia.
    + rewrite !lookup_ge_None_2; [done|rewrite window_sum_length; lia..].
Qed.

End WindowFacts.

(** C6.  [ReadSignal(class, stride)] returns normally.  With window 0 at
    [mSignalStart], window 1 right after it, and window [k + 1] starting
    [k + 1] samples (the dummy read at iteration [k]) after the end of
    window [k] for [k >= 1], element [j] of [mSigBuffer] ends up as the
    binary32 sum [((w0[j] + w1[j]) + ...) + w(m-1)[j]] of the elements [j]
    of the windows [0, ..., m - 1], where [1 <= m <= 32]: the windows 1 to
    [m - 1] are all complete reads of [S = 1024] samples, and when
    [m < 32] the read of window [m] was short, which ended the loop.
    Every sample of a window that lies inside the file is the conversion
    of its bytes in the file, read in the byte order of the class.  A
    window is complete exactly when [ReadSamples] at its offset returns
    [S]. *)
Theorem ReadSignal_integrates (c : FormatClassifier) (fmt : FormatClassT) (stride : nat) :
  stride = 1 \/ stride = 2 ->
  length (mRawBuffer c) = cRawSiglen ->
  length (mSigBuffer c) = cSiglen ->
  length (mAuxBuffer c) = cSiglen ->
  let W := width (format fmt) in
  let L := length (fdata (mpFid (mReader c))) in
  let offset := window_offset c fmt stride in
  let window k := window_at c fmt stride (offset k) in
  exists n c' m,
    ReadSignal fmt stride c = Ok (n, c')
    /\ (cSiglen = 1024 /\ cNumInts = 32)
    /\ 1 <= m <= cNumInts
    /\ (forall k, 1 <= k < m -> window_full c fmt stride k)
    /\ (m < cNumInts -> ~ window_full c fmt stride m)
    /\ length (mSigBuffer c') = cSiglen
    /\ (forall j, j < cSiglen ->
          mSigBuffer c' !! j
          = Some (fold_left (fun acc k => F32.add acc (window k !!! j))
                            (seq 1 (m - 1)) (window 0 !!! j)))
    /\ (forall k j, j < cSiglen -> offset k + j * (stride * W) + W <= L ->
          window k !! j
          = Some (sample_value (format fmt)
                    (load_at (endian fmt) (fdata (mpFid (mReader c)))
                             (offset k + j * (stride * W)) W)))
    /\ (offset 0 = mSignalStart c
        /\ offset 1 = offset 0 + cSiglen * (stride * W)
        /\ forall k, 1 <= k ->
             offset (S k) = offset k + cSiglen * (stride * W) + (k + 1) * (stride * W))
    /\ (forall k, window_full c fmt stride k
          <-> exists raw rd,
                ReadSamples (ResetAt (offset k) (mReader c)) (mRawBuffer c) cSiglen stride
                            (format fmt) (endian fmt) = Ok (raw, cSiglen, rd)).
Proof.
  intros Hstride Hraw Hsig Haux W L offset window.
  assert (1 <= stride) as Hs by lia.
  assert (cSiglen * 8 <= length (mRawBuffer c)) as Hraw' by (rewrite Hraw; done).
  destruct (ReadSignal_spec c fmt stride Hs Hraw' Hsig Haux)
    as (n & c' & Heq & Hn & Hframe & Hstart & m & Hm & Hall & Hstop & Hsigc).
  exists n, c', m. split; [done|]. split; [done|]. split; [done|].
  split; [done|]. split; [done|]. split.
  { destruct Hframe as (_ & _ & _ & _ & Hl & _). by rewrite Hl. }
  split.
  { intros j Hj. rewrite Hsigc.
    rewrite (integrate_window_sum c fmt stride Hs Hraw' Hsig Haux) by lia.
    by apply window_sum_lookup. }
  split.
  { intros k j Hj Hin. by apply (window_at_file c fmt stride Hs Hraw'). }
  split.
  - split; [by apply window_offset_0|]. split.
    + subst offset. rewrite (window_offset_S c fmt stride 0), decide_True by done.
      fold W. lia.
    + intros k Hk. subst offset. rewrite (window_offset_S c fmt stride k), decide_False by lia.
      fold W. lia.
  - intros k. apply (read_full_iff c fmt stride Hs Hraw').
Qed.

Lemma ReadSignal_integrates_witness :
  let file := replicate 3072 1%Z ++ replicate 2052 2%Z ++ replicate 2876 3%Z in
  let c := mkClassifier classes (mkReader (mkFILE file 0) Little)
             (mkMeter 256 (replicate 256 F32.zero) false (replicate 256 F32.one))
             (replicate cSiglen F32.zero) (replicate cSiglen F32.zero)
             (replicate cSiglen F32.one) (replicate 256 F32.one)
             (replicate cRawSiglen 0%Z) cHeaderSkip [] [] []
             (replicate 10 F32.zero) (replicate 10 F32.zero)
             (mkClass Int8 Little) 0 in
  let fmt := mkClass Int16 Big in
  exists n c',
    ReadSignal fmt 1 c = Ok (n, c')
    /\ window_full c fmt 1 2 /\ ~ window_full c fmt 1 3
    /\ window_offset c fmt 1 2 = 5 * 1024 + 4
    /\ mSigBuffer c' !! 0
       = Some (F32.add (F32.add (F32.of_Z 257) (F32.of_Z 514)) (F32.of_Z 771)).
Proof.
  intros file c fmt.
  assert (window_full c fmt 1 1) as Hf1
    by (unfold window_full, read_full; right; vm_compute; lia).
  assert (window_full c fmt 1 2) as Hf2
    by (unfold window_full, read_full; right; vm_compute; lia).
  assert (~ window_full c fmt 1 3) as Hf3.
  { unfold window_full, read_full. intros [H|H]; [discriminate H|].
    vm_compute in H. lia. }
  destruct (ReadSignal_integrates c fmt 1)
    as (n & c' & m & Heq & _ & Hm & Hall & Hstop & _ & Hsum & Hfile & _);
    [by left|reflexivity|reflexivity|reflexivity|].
  assert (m = 3) as ->.
  { assert (1 < cNumInts /\ 2 < cNumInts) as [H1 H2] by (vm_compute; lia).
    destruct (decide (m = 1)) as [E1|N1].
    { exfalso. subst m. exact (Hstop H1 Hf1). }
    destruct (decide (m = 2)) as [E2|N2].
    { exfalso. subst m. exact (Hstop H2 Hf2). }
    destruct (decide (m = 3)) as [E3|N3]; [exact E3|].
    exfalso. apply Hf3. apply Hall. lia. }
  exists n, c'. split; [exact Heq|]. split; [exact Hf2|]. split; [exact Hf3|].
  split; [vm_compute; reflexivity|].
  rewrite Hsum by (vm_compute; lia). cbn [Nat.sub seq fold_left].
  pose proof (Hfile 0 0 ltac:(vm_compute; lia) ltac:(vm_compute; lia)) as H0.
  pose proof (Hfile 1 0 ltac:(vm_compute; lia) ltac:(vm_compute; lia)) as H1.
  pose proof (Hfile 2 0 ltac:(vm_compute; lia) ltac:(vm_compute; lia)) as H2.
  apply list_lookup_total_correct in H0, H1, H2. rewrite H0, H1, H2.
  vm_compute. reflexivity.
Defined.

Lemma fold_add_terms_nan {A : Type} (g : A -> float) (l : list A) (a : float) :
  a = S754_nan -> fold_left (fun acc k => F32.add acc (g k)) l a = S754_nan.
Proof. intros ->. induction l as [|y l IH]; [reflexivity|exact IH]. Qed.


(** ** From the samples of a pass to the features *)

Section PassFacts.
Variable FFT : Z -> bool -> list float -> list float -> list float * list float.

(** One pass of the first loop of [Run], in terms of the signal that
    [ReadSignal] leaves: both powers are computed from the preprocessed
    [mSigBuffer], and the feature is their quotient. *)
Lemma Run_mono_pass (n : nat) (c : FormatClassifier) (k : nat) (c1 : FormatClassifier) :
  Run_ready c ->
  ReadSignal (mClasses c !!! n) 1 c = Ok (k, c1) ->
  let aux := (Preprocess (mSigBuffer c1) (mAuxBuffer c1) (mWinBuffer c)).2 in
  exists pLo pHiM c',
    CalcPower FFT (mMeter c) aux (F32.lit 25 100) (F32.lit 5 10) = Ok pLo
    /\ CalcPower FFT (mMeter c) aux (F32.lit 45 100) (F32.lit 1 10) = Ok pHiM
    /\ Run_mono FFT n c = Ok c'
    /\ mPLo c' = mPLo c ++ [pLo] /\ mPHiM c' = mPHiM c ++ [pHiM]
    /\ mMonoFeat c'
       = <[n := F32.div ((mPLo c ++ [pLo]) !!! n) ((mPHiM c ++ [pHiM]) !!! n)]> (mMonoFeat c).
Proof.
  intros (Hcls & Hraw & Hsig & Haux & Hlen) HRS aux.
  destruct (ReadSignal_spec c (mClasses c !!! n) 1)
    as (k' & c1' & Heq & _ & Hframe & _);
    [lia|rewrite Hraw; unfold cRawSiglen; lia|exact Hsig|exact Haux|].
  rewrite HRS in Heq. injection Heq as <- <-.
  destruct Hframe as (Hmem & _).
  destruct Hmem as (_ & Hm1 & Hw1 & _ & HpLo & HpHiM & _ & Hmono & _).
  assert (mSigLen (mMeter c) = 256%Z) as HN by (rewrite Hlen; reflexivity).
  destruct (CalcPower_requests FFT (mMeter c) aux HN) as ([pLo HLo] & [pHiM HHi] & _).
  exists pLo, pHiM.
  assert (exists c',
            Run_mono FFT n c = Ok c'
            /\ mPLo c' = mPLo c ++ [pLo] /\ mPHiM c' = mPHiM c ++ [pHiM]
            /\ mMonoFeat c'
               = <[n := F32.div ((mPLo c ++ [pLo]) !!! n) ((mPHiM c ++ [pHiM]) !!! n)]>
                   (mMonoFeat c)) as (c' & H3 & H4 & H5 & H6).
  { unfold Run_mono. rewrite HRS, bind_Ok. cbv beta iota. rewrite Hw1.
    revert HLo HHi. subst aux.
    destruct (Preprocess (mSigBuffer c1) (mAuxBuffer c1) (mWinBuffer c)) as [sig aux'].
    cbn [snd]. intros HLo HHi. simpl_members.
    rewrite Hm1, HLo, bind_Ok. simpl_members. rewrite HHi, bind_Ok. simpl_members.
    eexists. split; [reflexivity|]. simpl_members.
    rewrite HpLo, HpHiM, Hmono. repeat split; reflexivity. }
  exists c'. repeat split; assumption.
Qed.

Lemma Run_stereo_pass (n : nat) (c : FormatClassifier) (k : nat) (c1 : FormatClassifier) :
  Run_ready c ->
  ReadSignal (mClasses c !!! n) 2 c = Ok (k, c1) ->
  let aux := (Preprocess (mSigBuffer c1) (mAuxBuffer c1) (mWinBuffer c)).2 in
  exists pHiS c',
    CalcPower FFT (mMeter c) aux (F32.lit 40 100) (F32.lit 2 10) = Ok pHiS
    /\ Run_stereo FFT n c = Ok c'
    /\ mPHiS c' = mPHiS c ++ [pHiS]
    /\ mStereoFeat c'
       = <[n := F32.div (mPLo c !!! n) ((mPHiS c ++ [pHiS]) !!! n)]> (mStereoFeat c).
Proof.
  intros (Hcls & Hraw & Hsig & Haux & Hlen) HRS aux.
  destruct (ReadSignal_spec c (mClasses c !!! n) 2)
    as (k' & c1' & Heq & _ & Hframe & _);
    [lia|rewrite Hraw; unfold cRawSiglen; lia|exact Hsig|exact Haux|].
  rewrite HRS in Heq. injection Heq as <- <-.
  destruct Hframe as (Hmem & _).
  destruct Hmem as (_ & Hm1 & Hw1 & _ & HpLo & _ & HpHiS & _ & Hstereo & _).
  assert (mSigLen (mMeter c) = 256%Z) as HN by (rewrite Hlen; reflexivity).
  destruct (CalcPower_requests FFT (mMeter c) aux HN) as (_ & _ & [pHiS HHi]).
  exists pHiS.
  assert (exists c',
            Run_stereo FFT n c = Ok c'
            /\ mPHiS c' = mPHiS c ++ [pHiS]
            /\ mStereoFeat c'
               = <[n := F32.div (mPLo c !!! n) ((mPHiS c ++ [pHiS]) !!! n)]>
                   (mStereoFeat c)) as (c' & H3 & H4 & H5).
  { unfold Run_stereo. rewrite HRS, bind_Ok. cbv beta iota. rewrite Hw1.
    revert HHi. subst aux.
    destruct (Preprocess (mSigBuffer c1) (mAuxBuffer c1) (mWinBuffer c)) as [sig aux'].
    cbn [snd]. intros HHi. simpl_members.
    rewrite Hm1, HHi, bind_Ok. simpl_members.
    eexists. split; [reflexivity|]. simpl_members.
    rewrite HpLo, HpHiS, Hstereo. repeat split; reflexivity. }
  exists c'. repeat split; assumption.
Qed.


End PassFacts.

